(** * Hazard-aware route evaluation of the flood-map client (client/src/App.js)

    A shallow embedding of [checkRouteForFloods] and [getRoute] together with
    the properties of the intersection check and of the detour computation.

    JavaScript numbers are IEEE-754 binary64 values: they are modelled with
    Rocq's primitive floats, so [NaN], [Infinity], [<], [!==] and [+ 0.01]
    behave as they do in the program.

    The geometry library (turf) is not part of the repository.  Its feature
    constructors ([point], [lineString], [polygon]) and its coordinate reader
    ([getCoord]) only validate and wrap or unwrap their argument; that
    contract is written out in module [Turf].  Its numerical routines
    ([buffer], [booleanIntersects], [distance], [pointToLineDistance],
    [nearestPointOnLine]) are a parameter of the development (class
    [TurfKernel]); [buffer], [booleanIntersects] and [nearestPointOnLine] may
    throw on an argument they do not accept.  Every theorem holds for every
    kernel. *)

From Stdlib Require Import List String Ascii ZArith Bool Lia Permutation.
From Stdlib Require Import Floats.
Import ListNotations.

Set Implicit Arguments.
Set Warnings "-inexact-float".

(** ** Values *)

(** [coord] is a display-order pair [[lat, lng]]; [position] is a GeoJSON
    pair [[lng, lat]].  [flip] is the arrow function
    [coord => [coord[1], coord[0]]] used at every boundary. *)
Definition coord : Type := float * float.
Definition position : Type := float * float.

Definition flip (c : float * float) : float * float := (snd c, fst c).

(** The exceptions of the program. *)
Inductive error : Type :=
| PointNotNumeric      (* turf.point: coordinates must contain numbers *)
| LineStringTooShort   (* turf.lineString: two or more positions required *)
| RingTooShort         (* turf.polygon: a LinearRing needs 4 or more Positions *)
| RingNotClosed        (* turf.polygon: first and last Position differ *)
| TypeError            (* a property read or a call on undefined *)
| CoordNotPoint        (* a point was expected where coordinates are nested *)
| URIError             (* encodeURIComponent: a surrogate without its partner *)
| FetchRejected        (* fetch() rejected *)
| JsonRejected.        (* response.json() rejected *)

Inductive result (A : Type) : Type :=
| Ok (a : A)
| Throw (e : error).
Arguments Ok {A} a.
Arguments Throw {A} e.

Definition rbind {A B : Type} (r : result A) (k : A -> result B) : result B :=
  match r with
  | Ok a => k a
  | Throw e => Throw e
  end.

Declare Scope result_scope.
Delimit Scope result_scope with result.
Notation "x <- r ;; k" := (rbind r (fun x => k))
  (at level 61, r at next level, right associativity) : result_scope.

Definition is_ok {A : Type} (r : result A) : bool :=
  match r with Ok _ => true | Throw _ => false end.

(** GeoJSON geometries, as far as the program builds them. *)
Inductive geometry : Type :=
| Point (p : position)
| LineString (cs : list position)
| Polygon (rings : list (list position)).

Inductive units : Type := Kilometers.

(** What [closestFloodZone] holds when it is not [null]: the point feature of
    a report, or the first ring ([polygon.geometry.coordinates[0]]) of a drawn
    area, a bare array of positions. *)
Inductive floodZone : Type :=
| ZonePoint (pt : geometry)
| ZoneRing (ring : list position).

(** ** The feature constructors of the geometry library *)
Module Turf.

(** [isNumber]: a number that is not [NaN]. *)
Definition isNumber (x : float) : bool := negb (PrimFloat.is_nan x).

Definition point (p : position) : result geometry :=
  if isNumber (fst p) && isNumber (snd p) then Ok (Point p)
  else Throw PointNotNumeric.

Definition lineString (cs : list position) : result geometry :=
  if (List.length cs <? 2)%nat then Throw LineStringTooShort
  else Ok (LineString cs).

(** [a !== b] on numbers is the negation of IEEE equality. *)
Definition samePosition (a b : position) : bool :=
  (fst a =? fst b)%float && (snd a =? snd b)%float.

Definition origin : position := (0%float, 0%float).

Definition checkRing (ring : list position) : result unit :=
  if (List.length ring <? 4)%nat then Throw RingTooShort
  else if samePosition (last ring origin) (hd origin ring) then Ok tt
  else Throw RingNotClosed.

Fixpoint checkRings (rings : list (list position)) : result unit :=
  match rings with
  | [] => Ok tt
  | ring :: rest =>
      match checkRing ring with
      | Ok _ => checkRings rest
      | Throw e => Throw e
      end
  end.

Definition polygon (rings : list (list position)) : result geometry :=
  match checkRings rings with
  | Ok _ => Ok (Polygon rings)
  | Throw e => Throw e
  end.

(** [getCoord], through which a routine reads an argument documented as a
    point: a point feature gives its position; an array is accepted when it
    starts with two entries that are not arrays, which a ring, an array of
    positions, never does ("coord must be GeoJSON Point or an Array of
    numbers"). *)
Definition getCoord (zone : floodZone) : result position :=
  match zone with
  | ZonePoint (Point p) => Ok p
  | ZonePoint _ => Throw CoordNotPoint
  | ZoneRing _ => Throw CoordNotPoint
  end.

End Turf.

(** The numerical routines of the geometry library.  [buffer] and
    [booleanIntersects] throw on some of the features that the constructors
    build (a point with an infinite coordinate, a polygon without rings), so
    they and [nearestPointOnLine] return a [result]; [distance] and
    [pointToLineDistance] return a number, [NaN] included. *)
Class TurfKernel : Type := {
  buffer : geometry -> float -> units -> result geometry;
  booleanIntersects : geometry -> geometry -> result bool;
  distance : geometry -> geometry -> units -> float;
  pointToLineDistance : geometry -> geometry -> units -> float;
  nearestPointOnLine : geometry -> position -> result position
}.

(** ** Application data *)

Module Report.
Record t : Type := { id : Z; lat : float; lng : float; severity : string }.
End Report.

Module LatLng.
Record t : Type := { lat : float; lng : float }.
End LatLng.

(** [latlngs] of a drawn item: [getLatLngs()] gives rings, [getLatLng()] a
    single position (shapes without [getLatLngs]). *)
Inductive latlngs : Type :=
| Rings (rs : list (list coord))
| Single (c : LatLng.t).

Module Drawn.
Record t : Type := { id : Z; type : string; latlngs : latlngs; color : string }.
End Drawn.

Definition isArea (item : Drawn.t) : bool :=
  (Drawn.type item =? "rectangle")%string || (Drawn.type item =? "polygon")%string.

(** [turf.polygon(item.latlngs.map(ring => ring.map(coord => [coord[1], coord[0]])))];
    a value without [map] raises a TypeError. *)
Definition itemPolygon (item : Drawn.t) : result geometry :=
  match Drawn.latlngs item with
  | Rings rs => Turf.polygon (map (map flip) rs)
  | Single _ => Throw TypeError
  end.

(** ** The intersection check *)
Section Check.
Context {K : TurfKernel}.
Local Open Scope result_scope.

(** The buffered point of a report: 0.1 km around [[lng, lat]]. *)
Definition reportZone (report : Report.t) : result geometry :=
  point <- Turf.point (Report.lng report, Report.lat report) ;;
  buffer point 0.1%float Kilometers.

(** The first loop: [Ok true] is the early [return true], [Ok false] means
    that the loop ran to its end. *)
Fixpoint checkReports (routeLine : geometry) (reports : list Report.t)
  : result bool :=
  match reports with
  | [] => Ok false
  | report :: rest =>
      bufferedPoint <- reportZone report ;;
      hit <- booleanIntersects routeLine bufferedPoint ;;
      if hit then Ok true else checkReports routeLine rest
  end.

Fixpoint checkDrawn (routeLine : geometry) (drawn : list Drawn.t)
  : result bool :=
  match drawn with
  | [] => Ok false
  | item :: rest =>
      if isArea item then
        polygon <- itemPolygon item ;;
        hit <- booleanIntersects routeLine polygon ;;
        if hit then Ok true else checkDrawn routeLine rest
      else checkDrawn routeLine rest
  end.

Definition checkRouteForFloods (routeCoords : list coord)
    (reports : list Report.t) (drawn : list Drawn.t) : result bool :=
  routeLine <- Turf.lineString (map flip routeCoords) ;;
  hit <- checkReports routeLine reports ;;
  if hit then Ok true else checkDrawn routeLine drawn.

End Check.

(** ** The nearest flood zone (the two loops that follow [setShowWarning(true)]) *)
Section Closest.
Context {K : TurfKernel}.
Local Open Scope result_scope.

(** The pair [(closestFloodZone, minDistance)] carried through both loops. *)
Definition selection : Type := option floodZone * float.

Definition noSelection : selection := (None, infinity).

Definition closerReport (startPointTurf : geometry) (sel : selection)
    (report : Report.t) : result selection :=
  point <- Turf.point (Report.lng report, Report.lat report) ;;
  let d := distance startPointTurf point Kilometers in
  if (d <? snd sel)%float then Ok (Some (ZonePoint point), d) else Ok sel.

(** [polygon.geometry.coordinates[0]] is undefined for a polygon without
    rings, and [turf.lineString] then fails on reading its length. *)
Definition firstRing (polygon : geometry) : result (list position) :=
  match polygon with
  | Polygon (ring :: _) => Ok ring
  | _ => Throw TypeError
  end.

Definition closerDrawn (startPointTurf : geometry) (sel : selection)
    (item : Drawn.t) : result selection :=
  if isArea item then
    polygon <- itemPolygon item ;;
    ring <- firstRing polygon ;;
    line <- Turf.lineString ring ;;
    let d := pointToLineDistance startPointTurf line Kilometers in
    if (d <? snd sel)%float then Ok (Some (ZoneRing ring), d) else Ok sel
  else Ok sel.

(** A [for ... of] loop whose body updates the loop state or throws. *)
Fixpoint forOf {A S : Type} (body : S -> A -> result S) (s : S) (xs : list A)
  : result S :=
  match xs with
  | [] => Ok s
  | x :: rest => s' <- body s x ;; forOf body s' rest
  end.

Definition findClosestFloodZone (startCoords : LatLng.t)
    (reports : list Report.t) (drawn : list Drawn.t) : result selection :=
  startPointTurf <- Turf.point (LatLng.lng startCoords, LatLng.lat startCoords) ;;
  sel <- forOf (closerReport startPointTurf) noSelection reports ;;
  forOf (closerDrawn startPointTurf) sel drawn.

(** [detourPoint], then [detourPoint[0] + 0.01] and [detourPoint[1] + 0.01]. *)
Definition offset (detourPoint : position) : position :=
  (fst detourPoint + 0.01, snd detourPoint + 0.01)%float.

(** [turf.nearestPointOnLine(mainRouteLine, closestFloodZone)]: the routine
    measures from its second argument through [getCoord]. *)
Definition detourAnchor (routeCoordinates : list coord) (zone : floodZone)
  : result position :=
  mainRouteLine <- Turf.lineString (map flip routeCoordinates) ;;
  pt <- Turf.getCoord zone ;;
  nearestPointOnLine mainRouteLine pt.

Definition bypassWaypoint (routeCoordinates : list coord) (zone : floodZone)
  : result position :=
  detourPoint <- detourAnchor routeCoordinates zone ;;
  Ok (offset detourPoint).

End Closest.

(** ** The component state and the outside world *)

(** One OSRM route object ([geometry.coordinates]) and the parsed body. *)
Record osrmRoute : Type := { coordinates : list position }.
Record osrmData : Type := { routes : option (list osrmRoute) }.

(** One Nominatim hit, after [parseFloat] of its [lat] and [lon]. *)
Record geoHit : Type := { hit_lat : float; hit_lon : float }.

(** [await fetch(url)] followed by [await response.json()]. *)
Inductive fetched (A : Type) : Type :=
| FetchFails
| JsonFails
| Json (data : A).
Arguments FetchFails {A}.
Arguments JsonFails {A}.
Arguments Json {A} data.

(** The two services, as functions of what the request URL carries. *)
Record Net : Type := {
  nominatim : string -> fetched (list geoHit);
  osrm : position -> position -> fetched osrmData
}.

Inductive request : Type :=
| Search (address : string)
| Driving (from to : position).

(** The [useState] cells of [App], and what the component did to the outside:
    alerts, console errors and requests, oldest first. *)
Record World : Type := {
  start : string;
  end_ : string;
  route : option (list coord);
  altRoute : option (list coord);
  startPoint : option LatLng.t;
  endPoint : option LatLng.t;
  floodReports : list Report.t;
  drawnItems : list Drawn.t;
  showWarning : bool;
  alerts : list string;
  consoleErrors : list string;
  requests : list request
}.

(** A computation of the component: it changes the world and returns or
    throws; what was done before a throw stays done. *)
Definition M (A : Type) : Type := World -> result A * World.

Definition ret {A : Type} (a : A) : M A := fun w => (Ok a, w).

Definition bind {A B : Type} (m : M A) (k : A -> M B) : M B :=
  fun w =>
    match m w with
    | (Ok a, w') => k a w'
    | (Throw e, w') => (Throw e, w')
    end.

Definition liftR {A : Type} (r : result A) : M A := fun w => (r, w).

Definition tryCatch {A : Type} (body : M A) (handler : error -> M A) : M A :=
  fun w =>
    match body w with
    | (Ok a, w') => (Ok a, w')
    | (Throw e, w') => handler e w'
    end.

Definition modify (f : World -> World) : M unit := fun w => (Ok tt, f w).

Declare Scope app_scope.
Delimit Scope app_scope with app.
Notation "x <- m ;; k" := (bind m (fun x => k))
  (at level 61, m at next level, right associativity) : app_scope.
Notation "m ;; k" := (bind m (fun _ => k))
  (at level 61, right associativity) : app_scope.

(** The state setters and the three outward effects. *)
Definition setRoute (v : option (list coord)) : M unit :=
  modify (fun w =>
    {| start := start w;
       end_ := end_ w;
       route := v;
       altRoute := altRoute w;
       startPoint := startPoint w;
       endPoint := endPoint w;
       floodReports := floodReports w;
       drawnItems := drawnItems w;
       showWarning := showWarning w;
       alerts := alerts w;
       consoleErrors := consoleErrors w;
       requests := requests w |}).

Definition setAltRoute (v : option (list coord)) : M unit :=
  modify (fun w =>
    {| start := start w;
       end_ := end_ w;
       route := route w;
       altRoute := v;
       startPoint := startPoint w;
       endPoint := endPoint w;
       floodReports := floodReports w;
       drawnItems := drawnItems w;
       showWarning := showWarning w;
       alerts := alerts w;
       consoleErrors := consoleErrors w;
       requests := requests w |}).

Definition setStartPoint (v : option LatLng.t) : M unit :=
  modify (fun w =>
    {| start := start w;
       end_ := end_ w;
       route := route w;
       altRoute := altRoute w;
       startPoint := v;
       endPoint := endPoint w;
       floodReports := floodReports w;
       drawnItems := drawnItems w;
       showWarning := showWarning w;
       alerts := alerts w;
       consoleErrors := consoleErrors w;
       requests := requests w |}).

Definition setEndPoint (v : option LatLng.t) : M unit :=
  modify (fun w =>
    {| start := start w;
       end_ := end_ w;
       route := route w;
       altRoute := altRoute w;
       startPoint := startPoint w;
       endPoint := v;
       floodReports := floodReports w;
       drawnItems := drawnItems w;
       showWarning := showWarning w;
       alerts := alerts w;
       consoleErrors := consoleErrors w;
       requests := requests w |}).

Definition setShowWarning (v : bool) : M unit :=
  modify (fun w =>
    {| start := start w;
       end_ := end_ w;
       route := route w;
       altRoute := altRoute w;
       startPoint := startPoint w;
       endPoint := endPoint w;
       floodReports := floodReports w;
       drawnItems := drawnItems w;
       showWarning := v;
       alerts := alerts w;
       consoleErrors := consoleErrors w;
       requests := requests w |}).

Definition alert (msg : string) : M unit :=
  modify (fun w =>
    {| start := start w;
       end_ := end_ w;
       route := route w;
       altRoute := altRoute w;
       startPoint := startPoint w;
       endPoint := endPoint w;
       floodReports := floodReports w;
       drawnItems := drawnItems w;
       showWarning := showWarning w;
       alerts := alerts w ++ [msg];
       consoleErrors := consoleErrors w;
       requests := requests w |}).

Definition consoleError (msg : string) : M unit :=
  modify (fun w =>
    {| start := start w;
       end_ := end_ w;
       route := route w;
       altRoute := altRoute w;
       startPoint := startPoint w;
       endPoint := endPoint w;
       floodReports := floodReports w;
       drawnItems := drawnItems w;
       showWarning := showWarning w;
       alerts := alerts w;
       consoleErrors := consoleErrors w ++ [msg];
       requests := requests w |}).

Definition send (r : request) : M unit :=
  modify (fun w =>
    {| start := start w;
       end_ := end_ w;
       route := route w;
       altRoute := altRoute w;
       startPoint := startPoint w;
       endPoint := endPoint w;
       floodReports := floodReports w;
       drawnItems := drawnItems w;
       showWarning := showWarning w;
       alerts := alerts w;
       consoleErrors := consoleErrors w;
       requests := requests w ++ [r] |}).

Definition getWorld : M World := fun w => (Ok w, w).

(** The body of a response that was fetched and parsed, or the rejection. *)
Definition parsed {A : Type} (f : fetched A) : result A :=
  match f with
  | FetchFails => Throw FetchRejected
  | JsonFails => Throw JsonRejected
  | Json data => Ok data
  end.

(** [Promise.all] over the two fetches, then over the two bodies: a rejected
    fetch wins over a rejected body. *)
Definition parsedBoth {A : Type} (f1 f2 : fetched A) : result (A * A) :=
  match f1, f2 with
  | FetchFails, _ | _, FetchFails => Throw FetchRejected
  | JsonFails, _ | _, JsonFails => Throw JsonRejected
  | Json data1, Json data2 => Ok (data1, data2)
  end.

(** [data.routes && data.routes.length > 0], then [data.routes[0]]. *)
Definition firstRoute (data : osrmData) : option osrmRoute :=
  match routes data with
  | Some (r :: _) => Some r
  | _ => None
  end.

(** ** [geocodeAddress] and [getRoute]

    The sequential model: one call from its start to its end with nothing
    else running in between, on addresses that [encodeURIComponent] accepts.
    The suspensions of the two functions and the URIError raised while the
    request URL is built are in module [Async] below, and [click_alone] shows
    that this model is the asynchronous one for a call that no other handler
    disturbs and that is not rejected. *)
Section App.
Context {K : TurfKernel}.
Variable net : Net.
Local Open Scope app_scope.

Definition geocodeAddress (address : string) : M (option LatLng.t) :=
  tryCatch
    (send (Search address) ;;
     data <- liftR (parsed (nominatim net address)) ;;
     match data with
     | hit :: _ => ret (Some {| LatLng.lat := hit_lat hit; LatLng.lng := hit_lon hit |})
     | [] => ret None
     end)
    (fun _ => consoleError "Error geocoding address:" ;; ret None).

(** The merged alternate route of two leg bodies. *)
Definition combinedRouteCoordinates (leg1 leg2 : osrmRoute) : list coord :=
  map flip (coordinates leg1 ++ coordinates leg2).

(** The block under [if (closestFloodZone)]: the anchor, the two requests,
    and [setAltRoute] when both bodies carry a route. *)
Definition detour (startCoords endCoords : LatLng.t)
    (routeCoordinates : list coord) (zone : floodZone) : M unit :=
  waypoint <- liftR (bypassWaypoint routeCoordinates zone) ;;
  let origin := (LatLng.lng startCoords, LatLng.lat startCoords) in
  let destination := (LatLng.lng endCoords, LatLng.lat endCoords) in
  send (Driving origin waypoint) ;;
  send (Driving waypoint destination) ;;
  data <- liftR (parsedBoth (osrm net origin waypoint) (osrm net waypoint destination)) ;;
  match firstRoute (fst data), firstRoute (snd data) with
  | Some leg1, Some leg2 => setAltRoute (Some (combinedRouteCoordinates leg1 leg2))
  | _, _ => ret tt
  end.

(** The alternative-route block that follows [setShowWarning(true)]. *)
Definition alternativeRoute (startCoords endCoords : LatLng.t)
    (routeCoordinates : list coord) (reports : list Report.t)
    (drawn : list Drawn.t) : M unit :=
  sel <- liftR (findClosestFloodZone startCoords reports drawn) ;;
  match fst sel with
  | Some closestFloodZone => detour startCoords endCoords routeCoordinates closestFloodZone
  | None => ret tt
  end.

(** The [try] block of [getRoute]. *)
Definition fetchAndEvaluate (startCoords endCoords : LatLng.t)
    (reports : list Report.t) (drawn : list Drawn.t) : M unit :=
  let origin := (LatLng.lng startCoords, LatLng.lat startCoords) in
  let destination := (LatLng.lng endCoords, LatLng.lat endCoords) in
  send (Driving origin destination) ;;
  data <- liftR (parsed (osrm net origin destination)) ;;
  match firstRoute data with
  | Some r =>
      let routeCoordinates := map flip (coordinates r) in
      setRoute (Some routeCoordinates) ;;
      blocked <- liftR (checkRouteForFloods routeCoordinates reports drawn) ;;
      if blocked then
        setShowWarning true ;;
        alternativeRoute startCoords endCoords routeCoordinates reports drawn
      else
        setShowWarning false ;;
        setAltRoute None
  | None => alert "Could not find a route."
  end.

Definition isEmpty (s : string) : bool :=
  match s with EmptyString => true | _ => false end.

Definition getRoute : M unit :=
  setRoute None ;;
  setAltRoute None ;;
  setStartPoint None ;;
  setEndPoint None ;;
  setShowWarning false ;;
  w <- getWorld ;;
  if isEmpty (start w) || isEmpty (end_ w) then
    alert "Please enter both start and end points."
  else
    startCoords <- geocodeAddress (start w) ;;
    endCoords <- geocodeAddress (end_ w) ;;
    match startCoords, endCoords with
    | Some startCoords, Some endCoords =>
        setStartPoint (Some startCoords) ;;
        setEndPoint (Some endCoords) ;;
        tryCatch
          (fetchAndEvaluate startCoords endCoords (floodReports w) (drawnItems w))
          (fun _ =>
             consoleError "Error fetching route:" ;;
             alert "An error occurred while getting the route.")
    | _, _ => alert "Could not find one or both locations. Please try again."
    end.

End App.

(** ** A planar kernel

    A stand-in for the numerical routines, used to run the model on concrete
    data: degrees are treated as planar coordinates, 111 km to the degree, and
    the buffer of a point is the square of that half-width.  It throws where
    the library does: [buffer] on a coordinate that is not finite,
    [booleanIntersects] on a polygon without rings.  No theorem below is about
    this kernel; the examples apply the theorems to it. *)
Module Planar.
Local Open Scope float_scope.

Definition kmPerDegree : float := 111.

Definition minf (a b : float) : float := if a <? b then a else b.
Definition maxf (a b : float) : float := if a <? b then b else a.

(** Twice the signed area of the triangle [a b c]. *)
Definition cross (a b c : position) : float :=
  (fst b - fst a) * (snd c - snd a) - (snd b - snd a) * (fst c - fst a).

Definition inBox (a b c : position) : bool :=
  (minf (fst a) (fst b) <=? fst c) && (fst c <=? maxf (fst a) (fst b)) &&
  (minf (snd a) (snd b) <=? snd c) && (snd c <=? maxf (snd a) (snd b)).

Definition opposite (x y : float) : bool :=
  ((x <? 0) && (0 <? y)) || ((0 <? x) && (y <? 0)).

Definition segmentsMeet (s q : position * position) : bool :=
  let (p1, p2) := s in
  let (q1, q2) := q in
  let d1 := cross q1 q2 p1 in
  let d2 := cross q1 q2 p2 in
  let d3 := cross p1 p2 q1 in
  let d4 := cross p1 p2 q2 in
  (opposite d1 d2 && opposite d3 d4)
  || ((d1 =? 0) && inBox q1 q2 p1) || ((d2 =? 0) && inBox q1 q2 p2)
  || ((d3 =? 0) && inBox p1 p2 q1) || ((d4 =? 0) && inBox p1 p2 q2).

Fixpoint segments (cs : list position) : list (position * position) :=
  match cs with
  | a :: (b :: _) as rest => (a, b) :: segments rest
  | _ => []
  end.

(** Even-odd rule: does the ray from [p] towards larger x cross the edge? *)
Definition crossesRay (p : position) (e : position * position) : bool :=
  let (a, b) := e in
  negb (Bool.eqb (snd p <? snd a) (snd p <? snd b))
  && (fst p <? (fst b - fst a) * (snd p - snd a) / (snd b - snd a) + fst a).

Definition inside (p : position) (rings : list (list position)) : bool :=
  Nat.odd (List.length (filter (crossesRay p) (flat_map segments rings))).

Definition booleanIntersects (g1 g2 : geometry) : result bool :=
  match g1, g2 with
  | _, Polygon [] => Throw TypeError
  | LineString cs, Polygon rings =>
      Ok (existsb (fun s => existsb (segmentsMeet s) (flat_map segments rings)) (segments cs)
          || match cs with p :: _ => inside p rings | [] => false end)
  | _, _ => Ok false
  end.

Definition buffer (g : geometry) (radius : float) (u : units) : result geometry :=
  match g with
  | Point (x, y) =>
      if PrimFloat.is_finite x && PrimFloat.is_finite y then
        let r := radius / kmPerDegree in
        Ok (Polygon [[(x - r, y - r); (x + r, y - r); (x + r, y + r); (x - r, y + r); (x - r, y - r)]])
      else Throw TypeError
  | _ => Ok g
  end.

Definition between (p q : position) : float :=
  sqrt ((fst p - fst q) * (fst p - fst q) + (snd p - snd q) * (snd p - snd q)).

Definition distance (g1 g2 : geometry) (u : units) : float :=
  match g1, g2 with
  | Point p, Point q => kmPerDegree * between p q
  | _, _ => nan
  end.

(** The point of the segment [a b] nearest to [p]. *)
Definition project (p : position) (s : position * position) : position :=
  let (a, b) := s in
  let dx := fst b - fst a in
  let dy := snd b - snd a in
  let len2 := dx * dx + dy * dy in
  if len2 =? 0 then a
  else
    let t := ((fst p - fst a) * dx + (snd p - snd a) * dy) / len2 in
    let t := maxf 0 (minf 1 t) in
    (fst a + t * dx, snd a + t * dy).

Definition nearer (p : position) (best c : position) : position :=
  if between p c <? between p best then c else best.

Definition pointToLineDistance (g1 g2 : geometry) (u : units) : float :=
  match g1, g2 with
  | Point p, LineString (a :: cs) =>
      kmPerDegree * between p (fold_left (nearer p) (map (project p) (segments (a :: cs))) a)
  | _, _ => nan
  end.

Definition nearestPointOnLine (line : geometry) (p : position) : result position :=
  match line with
  | LineString (a :: cs) =>
      Ok (fold_left (nearer p) (map (project p) (segments (a :: cs))) a)
  | _ => Throw TypeError
  end.

Definition kernel : TurfKernel :=
  Build_TurfKernel buffer booleanIntersects distance pointToLineDistance nearestPointOnLine.

End Planar.

(** ** A spherical kernel

    The planar kernel with the distance between two points computed as the
    library computes it, by the haversine formula on a sphere of radius
    6371.0088 km.  [Math.sin], [Math.cos] and [Math.atan2] are replaced by
    their power series, which agree with them to about fifteen digits on the
    angles used here; [degrees % 360] is taken for angles below 360 degrees in
    absolute value, where it changes nothing, and is [NaN] beyond, as it is
    for an infinite angle. *)
Module Spherical.
Local Open Scope float_scope.

Definition pi : float := 3.141592653589793.

(** An alternating power series: each term is the one before it times
    [- x2 / ((k + 1) * (k + 2))]. *)
Fixpoint series (n : nat) (k term acc x2 : float) : float :=
  match n with
  | O => acc
  | S n' =>
      let term' := - term * x2 / ((k + 1) * (k + 2)) in
      series n' (k + 2) term' (acc + term') x2
  end.

Definition sin (x : float) : float := series 20 1 x x (x * x).
Definition cos (x : float) : float := series 20 0 1 1 (x * x).

Fixpoint atanSeries (n : nat) (k power acc t2 : float) : float :=
  match n with
  | O => acc
  | S n' =>
      let power' := - power * t2 in
      atanSeries n' (k + 2) power' (acc + power' / (k + 2)) t2
  end.

(** [atan t = 2 * atan (t / (1 + sqrt (1 + t * t)))], used twice before the
    series. *)
Definition halve (t : float) : float := t / (1 + sqrt (1 + t * t)).

Definition atanUnit (t : float) : float :=
  let u := halve (halve t) in 4 * atanSeries 25 1 u u (u * u).

(** [Math.atan2] on the quarter plane where both arguments are positive. *)
Definition atan2 (y x : float) : float :=
  if y <=? x then atanUnit (y / x) else pi / 2 - atanUnit (x / y).

Definition degreesToRadians (degrees : float) : float :=
  if abs degrees <? 360 then degrees * pi / 180 else nan.

Definition earthRadiusKm : float := 6371.0088.

Definition haversine (p q : position) : float :=
  let dLat := degreesToRadians (snd q - snd p) in
  let dLon := degreesToRadians (fst q - fst p) in
  let lat1 := degreesToRadians (snd p) in
  let lat2 := degreesToRadians (snd q) in
  let a := sin (dLat / 2) * sin (dLat / 2)
           + sin (dLon / 2) * sin (dLon / 2) * cos lat1 * cos lat2 in
  2 * atan2 (sqrt a) (sqrt (1 - a)) * earthRadiusKm.

Definition distance (g1 g2 : geometry) (u : units) : float :=
  match g1, g2 with
  | Point p, Point q => haversine p q
  | _, _ => nan
  end.

Definition kernel : TurfKernel :=
  Build_TurfKernel Planar.buffer Planar.booleanIntersects distance
    Planar.pointToLineDistance Planar.nearestPointOnLine.

End Spherical.

(** Distances in the plane of the coordinates, in kilometers: with a degree
    of longitude as long as a degree of latitude, and with the degrees of
    longitude shortened by the cosine of the latitude of the first point. *)
Module Plane.
Local Open Scope float_scope.

Definition kmPerDegree : float := Spherical.earthRadiusKm * Spherical.pi / 180.

Definition degrees (p q : position) : float :=
  kmPerDegree * Planar.between p q.

Definition projected (p q : position) : float :=
  let k := Spherical.cos (Spherical.degreesToRadians (snd p)) in
  let dx := k * (fst q - fst p) in
  let dy := snd q - snd p in
  kmPerDegree * sqrt (dx * dx + dy * dy).

End Plane.

(** ** Sample data: the scenarios of the specification *)
Module Sample.
Local Open Scope float_scope.

Definition routeCoords : list coord := [(17.30, 78.40); (17.40, 78.50)].

Definition onRoute : Report.t :=
  {| Report.id := 1; Report.lat := 17.35; Report.lng := 78.45; Report.severity := "High" |}.

Definition farAway : Report.t :=
  {| Report.id := 2; Report.lat := 10.0; Report.lng := 10.0; Report.severity := "Low" |}.

(** The rectangle of the third scenario, as the drawing layer reports it:
    four corners, the first one not repeated. *)
Definition openRectangle : Drawn.t :=
  {| Drawn.id := 3; Drawn.type := "rectangle";
     Drawn.latlngs := Rings [[(17.34, 78.44); (17.34, 78.46); (17.36, 78.46); (17.36, 78.44)]];
     Drawn.color := "red" |}.

(** The same rectangle with its first corner repeated at the end. *)
Definition closedRectangle : Drawn.t :=
  {| Drawn.id := 4; Drawn.type := "rectangle";
     Drawn.latlngs := Rings [[(17.34, 78.44); (17.34, 78.46); (17.36, 78.46); (17.36, 78.44); (17.34, 78.44)]];
     Drawn.color := "red" |}.

(** A drawn area with two ring points. *)
Definition sliver : Drawn.t :=
  {| Drawn.id := 5; Drawn.type := "polygon";
     Drawn.latlngs := Rings [[(17.31, 78.49); (17.32, 78.49)]];
     Drawn.color := "red" |}.

(** A shape of another kind, with the single position of [getLatLng()]. *)
Definition marker : Drawn.t :=
  {| Drawn.id := 6; Drawn.type := "Marker";
     Drawn.latlngs := Single {| LatLng.lat := 17.35; LatLng.lng := 78.45 |};
     Drawn.color := "red" |}.

(** A closed rectangle beyond the destination. *)
Definition farRectangle : Drawn.t :=
  {| Drawn.id := 7; Drawn.type := "rectangle";
     Drawn.latlngs := Rings [[(17.50, 78.60); (17.50, 78.62); (17.52, 78.62); (17.52, 78.60); (17.50, 78.60)]];
     Drawn.color := "red" |}.

Definition startCoords : LatLng.t := {| LatLng.lat := 17.30; LatLng.lng := 78.40 |}.
Definition endCoords : LatLng.t := {| LatLng.lat := 17.40; LatLng.lng := 78.50 |}.

(** The point feature of [onRoute], the values the planar kernel gives for
    it from [startCoords], and the bypass waypoint it leads to. *)
Definition zone : floodZone := ZonePoint (Point (78.45, 17.35)).

Definition zoneDistance : float :=
  Eval vm_compute in
    Planar.distance (Point (78.40, 17.30)) (Point (78.45, 17.35)) Kilometers.

Definition bypass : position :=
  Eval vm_compute in
    match bypassWaypoint (K := Planar.kernel) routeCoords zone with
    | Ok waypoint => waypoint
    | Throw _ => Turf.origin
    end.

(** The first ring of [closedRectangle] in GeoJSON order, and its distance
    from the start in the planar kernel. *)
Definition rectangleRing : list position :=
  [(78.44, 17.34); (78.46, 17.34); (78.46, 17.36); (78.44, 17.36); (78.44, 17.34)].

Definition rectangleDistance : float :=
  Eval vm_compute in
    Planar.pointToLineDistance (Point (78.40, 17.30)) (LineString rectangleRing) Kilometers.

Definition farRectangleCandidate : floodZone * float :=
  Eval vm_compute in
    match Drawn.latlngs farRectangle with
    | Rings (ring :: _) =>
        (ZoneRing (map flip ring),
         Planar.pointToLineDistance (Point (78.40, 17.30)) (LineString (map flip ring)) Kilometers)
    | _ => (ZoneRing [], nan)
    end.

Definition legA : osrmRoute :=
  {| coordinates := [(78.40, 17.30); (78.43, 17.36); (78.46, 17.36)] |}.
Definition legB : osrmRoute :=
  {| coordinates := [(78.46, 17.36); (78.45, 17.35); (78.50, 17.40)] |}.

Definition isStart (p : position) : bool := (fst p =? 78.40) && (snd p =? 17.30).
Definition isEnd (p : position) : bool := (fst p =? 78.50) && (snd p =? 17.40).

(** A router that knows the direct route and one leg to and from any
    intermediate point. *)
Definition router (from to : position) : fetched osrmData :=
  if isStart from && isEnd to then
    Json {| routes := Some [{| coordinates := [(78.40, 17.30); (78.50, 17.40)] |}] |}
  else if isStart from then Json {| routes := Some [legA] |}
  else if isEnd to then Json {| routes := Some [legB] |}
  else Json {| routes := None |}.

Definition geocoder (address : string) : fetched (list geoHit) :=
  if (address =? "A")%string then Json [{| hit_lat := 17.30; hit_lon := 78.40 |}]
  else if (address =? "B")%string then Json [{| hit_lat := 17.40; hit_lon := 78.50 |}]
  else Json [].

Definition net : Net := {| nominatim := geocoder; osrm := router |}.

(** The same services with the second detour leg unreachable. *)
Definition netLegDown : Net :=
  {| nominatim := geocoder;
     osrm := fun from to => if isStart from || negb (isEnd to) then router from to else FetchFails |}.

Definition world (reports : list Report.t) (drawn : list Drawn.t) : World :=
  {| start := "A"; end_ := "B"; route := None; altRoute := None;
     startPoint := None; endPoint := None;
     floodReports := reports; drawnItems := drawn; showWarning := false;
     alerts := []; consoleErrors := []; requests := [] |}.

End Sample.

(** ** Sample data at high latitude and at an unbounded start *)
Module North.
Local Open Scope float_scope.

(** A route along the parallel of 60 degrees north, a report on it twenty
    degrees east of the start, and a report 9.98 degrees north of the start. *)
Definition startCoords : LatLng.t := {| LatLng.lat := 60; LatLng.lng := 0 |}.

Definition routeCoords : list coord := [(60, 0); (60, 20); (60, 30)].

Definition east : Report.t :=
  {| Report.id := 1; Report.lat := 60; Report.lng := 20; Report.severity := "High" |}.

Definition north : Report.t :=
  {| Report.id := 2; Report.lat := 69.98; Report.lng := 0; Report.severity := "High" |}.

Definition eastDistance : float :=
  Eval vm_compute in Spherical.haversine (0, 60) (20, 60).

Definition northDistance : float :=
  Eval vm_compute in Spherical.haversine (0, 60) (0, 69.98).

(** A search service that answers "A" with a latitude that [parseFloat]
    reads as [Infinity], and a router that knows the sample route only. *)
Definition netUnbounded : Net :=
  {| nominatim := fun address =>
       if (address =? "A")%string then Json [{| hit_lat := infinity; hit_lon := 78.40 |}]
       else Sample.geocoder address;
     osrm := fun _ _ =>
       Json {| routes := Some [{| coordinates := [(78.40, 17.30); (78.50, 17.40)] |}] |} |}.

End North.

(** ** Order facts on binary64 numbers *)
Section FloatOrder.

Ltac order_cases :=
  repeat match goal with
  | |- context [Z.compare ?a ?b] => destruct (Z.compare_spec a b); subst
  | H : context [Z.compare ?a ?b] |- _ => destruct (Z.compare_spec a b); subst
  | |- context [Pos.compare_cont Eq ?a ?b] =>
      change (Pos.compare_cont Eq a b) with (Pos.compare a b);
      destruct (Pos.compare_spec a b); subst
  | H : context [Pos.compare_cont Eq ?a ?b] |- _ =>
      change (Pos.compare_cont Eq a b) with (Pos.compare a b) in H;
      destruct (Pos.compare_spec a b); subst
  end; simpl in *; try discriminate; try reflexivity; try lia.

Ltac by_spec_cases x y z :=
  unfold SFltb, SFleb, SFcompare;
  destruct x as [[]|[]| |[] ? ?], y as [[]|[]| |[] ? ?], z as [[]|[]| |[] ? ?];
  simpl; try discriminate; try reflexivity; intros; order_cases.

Lemma SFltb_trans x y z :
  SFltb x y = true -> SFltb y z = true -> SFltb x z = true.
Proof. by_spec_cases x y z. Qed.

Lemma SFleb_ltb_trans x y z :
  SFleb x y = true -> SFltb y z = true -> SFltb x z = true.
Proof. by_spec_cases x y z. Qed.

Lemma SFltb_leb x y : SFltb x y = true -> SFleb x y = true.
Proof.
  unfold SFltb, SFleb. destruct (SFcompare x y) as [[]|]; try discriminate; reflexivity.
Qed.

Lemma ltb_trans (x y z : float) :
  (x <? y)%float = true -> (y <? z)%float = true -> (x <? z)%float = true.
Proof. rewrite !ltb_spec. apply SFltb_trans. Qed.

Lemma leb_ltb_trans (x y z : float) :
  (x <=? y)%float = true -> (y <? z)%float = true -> (x <? z)%float = true.
Proof. rewrite leb_spec, !ltb_spec. apply SFleb_ltb_trans. Qed.

Lemma ltb_leb (x y : float) : (x <? y)%float = true -> (x <=? y)%float = true.
Proof. rewrite leb_spec, ltb_spec. apply SFltb_leb. Qed.

Lemma ltb_irrefl (x : float) : (x <? x)%float = false.
Proof.
  destruct (x <? x)%float eqn:E; [|reflexivity].
  rewrite ltb_spec in E. revert E. generalize (Prim2SF x). intro f.
  unfold SFltb, SFcompare.
  destruct f as [[]|[]| |[] ? ?]; simpl; try discriminate; intros; order_cases.
Qed.

End FloatOrder.

(** ** Hazards and their effective geometry *)

Inductive hazard : Type :=
| HazardReport (report : Report.t)
| HazardArea (item : Drawn.t).

(** The hazards of a snapshot, in the order in which the program visits them:
    the reports, then the drawn rectangles and polygons. *)
Definition hazardSet (reports : list Report.t) (drawn : list Drawn.t) : list hazard :=
  map HazardReport reports ++ map HazardArea (filter isArea drawn).

(** A report whose point feature can be built: neither coordinate is NaN. *)
Definition reportOk (report : Report.t) : bool :=
  is_ok (Turf.point (Report.lng report, Report.lat report)).

(** A drawn item that is no area, or an area whose polygon can be built:
    every ring has four or more positions and ends where it starts. *)
Definition itemOk (item : Drawn.t) : bool :=
  negb (isArea item) || is_ok (itemPolygon item).

(** A drawn area with a ring of fewer than three points. *)
Definition degenerate (item : Drawn.t) : Prop :=
  isArea item = true /\
  exists rs, Drawn.latlngs item = Rings rs /\
             Exists (fun ring => (List.length ring < 3)%nat) rs.

Section CheckFacts.
Context {K : TurfKernel}.
Local Open Scope result_scope.

(** The 100 m buffer of a report, or the polygon of an area. *)
Definition effectiveGeometry (h : hazard) : result geometry :=
  match h with
  | HazardReport report => reportZone report
  | HazardArea item => itemPolygon item
  end.

(** The test of one hazard: build its geometry, then intersect it with the
    route line.  Either step can throw. *)
Definition hazardTest (routeLine : geometry) (h : hazard) : result bool :=
  g <- effectiveGeometry h ;; booleanIntersects routeLine g.

(** A hazard whose test returns. *)
Definition testable (routeLine : geometry) (h : hazard) : Prop :=
  exists b, hazardTest routeLine h = Ok b.

(** Does the test of the hazard return true? *)
Definition hits (routeLine : geometry) (h : hazard) : bool :=
  match hazardTest routeLine h with
  | Ok b => b
  | Throw _ => false
  end.

(** The second outcome counts only when the first is a plain "no". *)
Definition orElse (r1 r2 : result bool) : result bool :=
  match r1 with
  | Ok false => r2
  | r => r
  end.

Fixpoint scan (test : hazard -> result bool) (hs : list hazard) : result bool :=
  match hs with
  | [] => Ok false
  | h :: rest => orElse (test h) (scan test rest)
  end.

Lemma scan_app test hs hs' :
  scan test (hs ++ hs') = orElse (scan test hs) (scan test hs').
Proof.
  induction hs as [|h rest IH]; [reflexivity|].
  cbn [app scan]. rewrite IH. destruct (test h) as [[]|]; reflexivity.
Qed.

Lemma checkReports_scan routeLine reports :
  checkReports routeLine reports = scan (hazardTest routeLine) (map HazardReport reports).
Proof.
  induction reports as [|report rest IH]; [reflexivity|].
  cbn [checkReports map scan]. unfold hazardTest at 1. cbn [effectiveGeometry].
  destruct (reportZone report) as [g|]; [|reflexivity]. cbn [rbind].
  destruct (booleanIntersects routeLine g) as [[]|]; cbn [rbind orElse];
    [reflexivity | exact IH | reflexivity].
Qed.

Lemma checkDrawn_scan routeLine drawn :
  checkDrawn routeLine drawn =
    scan (hazardTest routeLine) (map HazardArea (filter isArea drawn)).
Proof.
  induction drawn as [|item rest IH]; [reflexivity|].
  cbn [checkDrawn filter]. destruct (isArea item); [|exact IH].
  cbn [map scan]. unfold hazardTest at 1. cbn [effectiveGeometry].
  destruct (itemPolygon item) as [g|]; [|reflexivity]. cbn [rbind].
  destruct (booleanIntersects routeLine g) as [[]|]; cbn [rbind orElse];
    [reflexivity | exact IH | reflexivity].
Qed.

Lemma check_scan routeCoords reports drawn :
  checkRouteForFloods routeCoords reports drawn =
    routeLine <- Turf.lineString (map flip routeCoords) ;;
    scan (hazardTest routeLine) (hazardSet reports drawn).
Proof.
  unfold checkRouteForFloods, hazardSet.
  destruct (Turf.lineString _) as [line|]; [|reflexivity]. cbn [rbind].
  rewrite scan_app, <- checkReports_scan, <- checkDrawn_scan.
  destruct (checkReports line reports) as [[]|]; reflexivity.
Qed.

Lemma lineString_ok cs :
  (2 <= List.length cs)%nat -> Turf.lineString cs = Ok (LineString cs).
Proof.
  intro H. unfold Turf.lineString.
  destruct (Nat.ltb_spec (List.length cs) 2); [lia | reflexivity].
Qed.

Lemma lineString_cases cs :
  ((2 <= List.length cs)%nat /\ Turf.lineString cs = Ok (LineString cs)) \/
  ((List.length cs < 2)%nat /\ Turf.lineString cs = Throw LineStringTooShort).
Proof.
  unfold Turf.lineString. destruct (Nat.ltb_spec (List.length cs) 2); [right | left]; auto.
Qed.

Lemma scan_true test hs :
  scan test hs = Ok true <->
  exists pre h post,
    hs = pre ++ h :: post /\
    Forall (fun x => test x = Ok false) pre /\ test h = Ok true.
Proof.
  induction hs as [|h rest IH]; cbn [scan].
  - split; [discriminate|]. intros (pre & x & post & E & _). destruct pre; discriminate.
  - destruct (test h) as [[]|e] eqn:Eh; cbn [orElse].
    + split; [|reflexivity]. intros _. exists [], h, rest. auto.
    + rewrite IH. split.
      * intros (pre & x & post & -> & Hpre & Hx). exists (h :: pre), x, post. auto.
      * intros (pre & x & post & E & Hpre & Hx). destruct pre as [|y pre].
        -- injection E as <- _. congruence.
        -- injection E as <- ->. inversion Hpre; subst. exists pre, x, post. auto.
    + split; [discriminate|]. intros (pre & x & post & E & Hpre & Hx).
      destruct pre as [|y pre].
      * injection E as <- _. congruence.
      * injection E as <- _. inversion Hpre; subst. congruence.
Qed.

Lemma scan_throw test hs e :
  scan test hs = Throw e <->
  exists pre h post,
    hs = pre ++ h :: post /\
    Forall (fun x => test x = Ok false) pre /\ test h = Throw e.
Proof.
  induction hs as [|h rest IH]; cbn [scan].
  - split; [discriminate|]. intros (pre & x & post & E & _). destruct pre; discriminate.
  - destruct (test h) as [[]|e'] eqn:Eh; cbn [orElse].
    + split; [discriminate|]. intros (pre & x & post & E & Hpre & Hx).
      destruct pre as [|y pre].
      * injection E as <- _. congruence.
      * injection E as <- _. inversion Hpre; subst. congruence.
    + rewrite IH. split.
      * intros (pre & x & post & -> & Hpre & Hx). exists (h :: pre), x, post. auto.
      * intros (pre & x & post & E & Hpre & Hx). destruct pre as [|y pre].
        -- injection E as <- _. congruence.
        -- injection E as <- ->. inversion Hpre; subst. exists pre, x, post. auto.
    + split.
      * intro H. injection H as <-. exists [], h, rest. auto.
      * intros (pre & x & post & E & Hpre & Hx). destruct pre as [|y pre].
        -- injection E as <- _. congruence.
        -- injection E as <- _. inversion Hpre; subst. congruence.
Qed.

Lemma scan_false test hs :
  scan test hs = Ok false <-> Forall (fun x => test x = Ok false) hs.
Proof.
  induction hs as [|h rest IH]; cbn [scan].
  - split; auto.
  - destruct (test h) as [[]|e] eqn:Eh; cbn [orElse].
    + split; [discriminate|]. intro H. inversion H; subst. congruence.
    + rewrite IH. split; [intro; constructor; assumption|].
      intro H. inversion H; assumption.
    + split; [discriminate|]. intro H. inversion H; subst. congruence.
Qed.

(** When every test returns, the scan is the disjunction of the tests. *)
Lemma scan_testable routeLine hs :
  Forall (testable routeLine) hs ->
  scan (hazardTest routeLine) hs = Ok (existsb (hits routeLine) hs).
Proof.
  induction 1 as [|h rest (b & Hb) _ IH]; [reflexivity|].
  cbn [scan existsb]. unfold hits at 1. rewrite Hb, IH.
  destruct b; reflexivity.
Qed.

Lemma checkReports_app routeLine reports more :
  checkReports routeLine (reports ++ more) =
    orElse (checkReports routeLine reports) (checkReports routeLine more).
Proof. rewrite !checkReports_scan, map_app. apply scan_app. Qed.

Lemma hazardSet_app reports reports' drawn drawn' :
  hazardSet (reports ++ reports') (drawn ++ drawn') =
    hazardSet reports [] ++ hazardSet reports' [] ++ hazardSet [] drawn ++ hazardSet [] drawn'.
Proof.
  unfold hazardSet. cbn [filter map app]. rewrite !app_nil_r, filter_app, !map_app.
  rewrite <- app_assoc. reflexivity.
Qed.

Lemma reportOk_iff report :
  reportOk report = true <->
  PrimFloat.is_nan (Report.lng report) = false /\
  PrimFloat.is_nan (Report.lat report) = false.
Proof.
  unfold reportOk, Turf.point, Turf.isNumber. cbn [fst snd].
  destruct (PrimFloat.is_nan (Report.lng report)),
           (PrimFloat.is_nan (Report.lat report)); cbn; intuition congruence.
Qed.

Lemma checkRing_ok_iff ring :
  is_ok (Turf.checkRing ring) = true <->
  (4 <= List.length ring)%nat /\
  Turf.samePosition (last ring Turf.origin) (hd Turf.origin ring) = true.
Proof.
  unfold Turf.checkRing.
  destruct (Nat.ltb_spec (List.length ring) 4).
  - cbn. split; [discriminate | lia].
  - destruct (Turf.samePosition _ _); cbn; intuition (try congruence; try lia).
Qed.

Lemma checkRings_ok_iff rings :
  is_ok (Turf.checkRings rings) = true <->
  Forall (fun ring => is_ok (Turf.checkRing ring) = true) rings.
Proof.
  induction rings as [|ring rest IH]; cbn.
  - split; auto.
  - destruct (Turf.checkRing ring) eqn:E.
    + rewrite IH. split.
      * intro. constructor; [rewrite E; reflexivity | assumption].
      * intro H. inversion H; assumption.
    + cbn. split; [discriminate|]. intro H. inversion H as [|? ? H1 _]; subst.
      rewrite E in H1. discriminate.
Qed.

Lemma polygon_ok rings :
  is_ok (Turf.checkRings rings) = true -> Turf.polygon rings = Ok (Polygon rings).
Proof.
  unfold Turf.polygon. destruct (Turf.checkRings rings) as [[]|]; [reflexivity | discriminate].
Qed.

Lemma itemOk_iff item :
  itemOk item = true <->
  isArea item = false \/
  exists rs, Drawn.latlngs item = Rings rs /\
    Forall (fun ring =>
              (4 <= List.length ring)%nat /\
              Turf.samePosition (last (map flip ring) Turf.origin)
                                (hd Turf.origin (map flip ring)) = true) rs.
Proof.
  unfold itemOk, itemPolygon, Turf.polygon.
  destruct (isArea item); cbn [negb orb]; [|intuition].
  destruct (Drawn.latlngs item) as [rs|c].
  - assert (H : is_ok (Turf.checkRings (map (map flip) rs)) = true <->
                Forall (fun ring =>
                  (4 <= List.length ring)%nat /\
                  Turf.samePosition (last (map flip ring) Turf.origin)
                                    (hd Turf.origin (map flip ring)) = true) rs).
    { rewrite checkRings_ok_iff, Forall_map, !Forall_forall.
      split; intros Hx ring Hin; specialize (Hx ring Hin);
        rewrite checkRing_ok_iff, length_map in *; exact Hx. }
    destruct (Turf.checkRings (map (map flip) rs)) as [[]|e]; cbn [is_ok] in *.
    + split; [intros _; right; exists rs; split; [reflexivity | apply H; reflexivity]
             | reflexivity].
    + split; [discriminate|]. intros [Hf|(rs' & Hrs & Hall)]; [discriminate|].
      injection Hrs as <-. apply H. exact Hall.
  - cbn. split; [discriminate|]. intros [Hf|(rs & Hrs & _)]; discriminate.
Qed.

(** A hazard whose test returns has a geometry: the coordinates of a report
    are numbers, the rings of an area are closed and long enough. *)
Lemma testable_built routeLine h :
  testable routeLine h ->
  match h with
  | HazardReport report => reportOk report = true
  | HazardArea item => is_ok (itemPolygon item) = true
  end.
Proof.
  intros (b & Hb). unfold hazardTest in Hb. destruct h as [report|item]; cbn in Hb.
  - unfold reportOk. unfold reportZone in Hb.
    destruct (Turf.point _); [reflexivity | discriminate].
  - destruct (itemPolygon item); [reflexivity | discriminate].
Qed.

(** On hazards whose tests all return, the check is the disjunction of the
    individual tests. *)
Lemma check_ok routeCoords reports drawn :
  (2 <= List.length routeCoords)%nat ->
  Forall (testable (LineString (map flip routeCoords))) (hazardSet reports drawn) ->
  checkRouteForFloods routeCoords reports drawn =
    Ok (existsb (hits (LineString (map flip routeCoords))) (hazardSet reports drawn)).
Proof.
  intros Hlen Hall. rewrite check_scan.
  rewrite lineString_ok by (rewrite length_map; exact Hlen). cbn [rbind].
  apply scan_testable. exact Hall.
Qed.

Lemma existsb_Permutation {A : Type} (f : A -> bool) (l l' : list A) :
  Permutation l l' -> existsb f l = existsb f l'.
Proof.
  induction 1; cbn.
  - reflexivity.
  - now rewrite IHPermutation.
  - destruct (f x), (f y); reflexivity.
  - congruence.
Qed.

Lemma hits_spec routeLine h :
  hits routeLine h = true <->
  exists g, effectiveGeometry h = Ok g /\ booleanIntersects routeLine g = Ok true.
Proof.
  unfold hits, hazardTest. destruct (effectiveGeometry h) as [g|e]; cbn [rbind].
  - split.
    + destruct (booleanIntersects routeLine g) as [[]|] eqn:E; try discriminate.
      intros _. exists g. auto.
    + intros (g' & E & H). injection E as <-. rewrite H. reflexivity.
  - split; [discriminate | intros (g' & E & _); discriminate].
Qed.

(** A ring of fewer than three points stops the polygon constructor. *)
Lemma degenerate_throws item :
  degenerate item -> exists e, itemPolygon item = Throw e.
Proof.
  intros (_ & rs & Hrs & Hex). unfold itemPolygon. rewrite Hrs.
  unfold Turf.polygon.
  destruct (Turf.checkRings (map (map flip) rs)) as [[]|e] eqn:E; [|eauto].
  exfalso.
  assert (Hok : is_ok (Turf.checkRings (map (map flip) rs)) = true)
    by (rewrite E; reflexivity).
  apply checkRings_ok_iff in Hok. rewrite Forall_map in Hok.
  apply Exists_exists in Hex. destruct Hex as (ring & Hin & Hlt).
  rewrite Forall_forall in Hok. specialize (Hok ring Hin).
  apply checkRing_ok_iff in Hok. destruct Hok as [Hok _].
  rewrite length_map in Hok. unfold coord in *. lia.
Qed.

Lemma checkDrawn_app routeLine before after :
  checkDrawn routeLine (before ++ after) =
    match checkDrawn routeLine before with
    | Ok false => checkDrawn routeLine after
    | r => r
    end.
Proof.
  rewrite !checkDrawn_scan, filter_app, map_app, scan_app. unfold orElse.
  destruct (scan _ _) as [[]|]; reflexivity.
Qed.

Lemma checkDrawn_filter routeLine drawn :
  checkDrawn routeLine (filter isArea drawn) = checkDrawn routeLine drawn.
Proof.
  induction drawn as [|item rest IH]; [reflexivity|].
  cbn [filter checkDrawn]. destruct (isArea item) eqn:E; [|exact IH].
  cbn [checkDrawn]. rewrite E, IH. reflexivity.
Qed.

End CheckFacts.

(** ** The nearest-zone loops as a minimum search *)
Section ClosestFacts.
Context {K : TurfKernel}.
Local Open Scope result_scope.

(** What a hazard contributes to the search: its zone and its distance from
    the start point, to the point of a report and to the first ring, taken as
    a line, of an area. *)
Definition candidate : Type := floodZone * float.

Definition reportCandidate (startPointTurf : geometry) (report : Report.t)
  : result candidate :=
  point <- Turf.point (Report.lng report, Report.lat report) ;;
  Ok (ZonePoint point, distance startPointTurf point Kilometers).

Definition areaCandidate (startPointTurf : geometry) (item : Drawn.t)
  : result candidate :=
  polygon <- itemPolygon item ;;
  ring <- firstRing polygon ;;
  line <- Turf.lineString ring ;;
  Ok (ZoneRing ring, pointToLineDistance startPointTurf line Kilometers).

Definition hazardCandidate (startPointTurf : geometry) (h : hazard)
  : result candidate :=
  match h with
  | HazardReport report => reportCandidate startPointTurf report
  | HazardArea item => areaCandidate startPointTurf item
  end.

Fixpoint collect {A B : Type} (f : A -> result B) (xs : list A) : result (list B) :=
  match xs with
  | [] => Ok []
  | x :: rest => b <- f x ;; bs <- collect f rest ;; Ok (b :: bs)
  end.

(** The candidates of a snapshot in visiting order, when all can be built. *)
Definition candidates (startPointTurf : geometry) (reports : list Report.t)
    (drawn : list Drawn.t) : result (list candidate) :=
  collect (hazardCandidate startPointTurf) (hazardSet reports drawn).

(** [if (distance < minDistance) { minDistance = distance; closestFloodZone = ... }] *)
Definition consider (sel : selection) (c : candidate) : selection :=
  if (snd c <? snd sel)%float then (Some (fst c), snd c) else sel.

Lemma closerReport_consider sp sel report :
  closerReport sp sel report = c <- reportCandidate sp report ;; Ok (consider sel c).
Proof.
  unfold closerReport, reportCandidate, consider.
  destruct (Turf.point _); [|reflexivity]. cbn.
  destruct (_ <? _)%float; reflexivity.
Qed.

Lemma closerDrawn_consider sp sel item :
  closerDrawn sp sel item =
    if isArea item then c <- areaCandidate sp item ;; Ok (consider sel c) else Ok sel.
Proof.
  unfold closerDrawn, areaCandidate, consider.
  destruct (isArea item); [|reflexivity].
  destruct (itemPolygon item) as [g|]; [|reflexivity]. cbn [rbind].
  destruct (firstRing g) as [ring|]; [|reflexivity]. cbn [rbind].
  destruct (Turf.lineString ring); [|reflexivity]. cbn.
  destruct (_ <? _)%float; reflexivity.
Qed.

Lemma collect_app {A B : Type} (f : A -> result B) xs ys :
  collect f (xs ++ ys) = bs <- collect f xs ;; cs <- collect f ys ;; Ok (bs ++ cs).
Proof.
  induction xs as [|x rest IH]; cbn.
  - destruct (collect f ys); reflexivity.
  - destruct (f x); [|reflexivity]. cbn. rewrite IH.
    destruct (collect f rest); [|reflexivity]. cbn.
    destruct (collect f ys); reflexivity.
Qed.

Lemma forOf_reports sp reports : forall sel cs,
  collect (hazardCandidate sp) (map HazardReport reports) = Ok cs ->
  forOf (closerReport sp) sel reports = Ok (fold_left consider cs sel).
Proof.
  induction reports as [|report rest IH]; cbn; intros sel cs H.
  - injection H as <-. reflexivity.
  - rewrite closerReport_consider.
    destruct (reportCandidate sp report) as [c|]; [|discriminate]. cbn in *.
    destruct (collect _ _) as [cs'|]; [|discriminate]. injection H as <-.
    cbn. apply IH. reflexivity.
Qed.

Lemma forOf_drawn sp drawn : forall sel cs,
  collect (hazardCandidate sp) (map HazardArea (filter isArea drawn)) = Ok cs ->
  forOf (closerDrawn sp) sel drawn = Ok (fold_left consider cs sel).
Proof.
  induction drawn as [|item rest IH]; cbn [filter map collect forOf]; intros sel cs H.
  - injection H as <-. reflexivity.
  - rewrite closerDrawn_consider. destruct (isArea item).
    + cbn in H. destruct (areaCandidate sp item) as [c|]; [|discriminate]. cbn in *.
      destruct (collect _ _) as [cs'|]; [|discriminate]. injection H as <-.
      cbn. apply IH. reflexivity.
    + cbn [rbind]. apply IH. exact H.
Qed.

Lemma findClosest_fold startCoords reports drawn sp cs :
  Turf.point (LatLng.lng startCoords, LatLng.lat startCoords) = Ok sp ->
  candidates sp reports drawn = Ok cs ->
  findClosestFloodZone startCoords reports drawn = Ok (fold_left consider cs noSelection).
Proof.
  intros Hsp Hcs. unfold findClosestFloodZone, candidates, hazardSet in *.
  rewrite Hsp. cbn [rbind]. rewrite collect_app in Hcs.
  destruct (collect _ (map HazardReport reports)) as [cr|] eqn:Er; [|discriminate].
  cbn [rbind] in Hcs.
  destruct (collect _ (map HazardArea _)) as [cd|] eqn:Ed; [|discriminate].
  injection Hcs as <-.
  erewrite forOf_reports by exact Er. cbn [rbind].
  erewrite forOf_drawn by exact Ed. rewrite fold_left_app. reflexivity.
Qed.

(** A drawn item that is no area, or an area whose polygon can be built and
    has a first ring. *)
Definition areaReady (item : Drawn.t) : bool :=
  negb (isArea item) ||
  match itemPolygon item with
  | Ok (Polygon (_ :: _)) => true
  | _ => false
  end.

Lemma areaCandidate_ready sp item :
  isArea item = true -> areaReady item = true ->
  exists c, areaCandidate sp item = Ok c.
Proof.
  unfold areaReady, areaCandidate. intros -> H. cbn [negb orb] in H.
  unfold itemPolygon, Turf.polygon in *.
  destruct (Drawn.latlngs item) as [rs|]; [|discriminate].
  destruct (Turf.checkRings (map (map flip) rs)) as [[]|] eqn:E; [|discriminate].
  destruct (map (map flip) rs) as [|ring rest] eqn:Em; [discriminate|].
  cbn [rbind firstRing].
  assert (Hring : is_ok (Turf.checkRing ring) = true).
  { assert (Hall : is_ok (Turf.checkRings (ring :: rest)) = true)
      by (rewrite E; reflexivity).
    apply checkRings_ok_iff in Hall. inversion Hall; assumption. }
  apply checkRing_ok_iff in Hring. destruct Hring as [Hlen _].
  rewrite lineString_ok by lia. cbn [rbind]. eauto.
Qed.

(** On reports and areas that can be built, every candidate can. *)
Lemma candidates_buildable sp reports drawn :
  Forall (fun r => reportOk r = true) reports ->
  Forall (fun i => areaReady i = true) drawn ->
  exists cs, candidates sp reports drawn = Ok cs.
Proof.
  intros Hr Hd. unfold candidates, hazardSet. rewrite collect_app.
  assert (Er : exists cr, collect (hazardCandidate sp) (map HazardReport reports) = Ok cr).
  { induction Hr as [|report rest Hrep _ IH]; [exists []; reflexivity|].
    destruct IH as (cr & IH). cbn [map collect hazardCandidate].
    unfold reportCandidate. unfold reportOk in Hrep.
    destruct (Turf.point _); [|discriminate]. cbn [rbind]. rewrite IH.
    cbn [rbind]. eauto. }
  assert (Ed : exists cd,
             collect (hazardCandidate sp) (map HazardArea (filter isArea drawn)) = Ok cd).
  { induction Hd as [|item rest Hitem _ IH]; [exists []; reflexivity|].
    destruct IH as (cd & IH). cbn [filter].
    destruct (isArea item) eqn:Ea; [|exists cd; exact IH].
    cbn [map collect hazardCandidate].
    destruct (areaCandidate_ready sp item Ea Hitem) as (c & Hc). rewrite Hc.
    cbn [rbind]. rewrite IH. cbn [rbind]. eauto. }
  destruct Er as (cr & ->), Ed as (cd & ->). cbn [rbind]. eauto.
Qed.

(** What the search has established after visiting [cs]. *)
Definition nearest (cs : list candidate) (sel : selection) : Prop :=
  (forall c, In c cs -> (snd c <? snd sel)%float = false) /\
  (fst sel = None -> snd sel = infinity) /\
  (forall zone, fst sel = Some zone ->
     (snd sel <? infinity)%float = true /\
     exists i, nth_error cs i = Some (zone, snd sel) /\
       forall j c, (j < i)%nat -> nth_error cs j = Some c ->
                   (snd c <=? snd sel)%float = false).

Lemma nearest_step cs sel c :
  nearest cs sel -> nearest (cs ++ [c]) (consider sel c).
Proof.
  intros (Hmin & Hnone & Hsome). unfold consider, nearest.
  destruct (snd c <? snd sel)%float eqn:Hlt; cbn [fst snd].
  - split; [|split].
    + intros c' Hin. apply in_app_or in Hin. destruct Hin as [Hin|[<-|[]]].
      * destruct (snd c' <? snd c)%float eqn:E; [|reflexivity].
        rewrite <- (Hmin c' Hin). symmetry. eapply ltb_trans; eassumption.
      * apply ltb_irrefl.
    + discriminate.
    + intros zone Hz. injection Hz as <-. split.
      * destruct (fst sel) as [z|] eqn:Ez.
        -- eapply ltb_trans; [exact Hlt | apply (Hsome z eq_refl)].
        -- rewrite <- (Hnone eq_refl). exact Hlt.
      * exists (List.length cs). split.
        -- rewrite nth_error_app2 by lia. rewrite Nat.sub_diag. cbn.
           destruct c; reflexivity.
        -- intros j c' Hj Hn. rewrite nth_error_app1 in Hn by exact Hj.
           apply nth_error_In in Hn.
           destruct (snd c' <=? snd c)%float eqn:E; [|reflexivity].
           rewrite <- (Hmin c' Hn). symmetry. eapply leb_ltb_trans; eassumption.
  - split; [|split].
    + intros c' Hin. apply in_app_or in Hin. destruct Hin as [Hin|[<-|[]]]; auto.
    + exact Hnone.
    + intros zone Hz. destruct (Hsome zone Hz) as (Hfin & i & Hi & Hbefore).
      split; [exact Hfin|]. exists i. split.
      * rewrite nth_error_app1; [exact Hi|]. apply nth_error_Some. congruence.
      * intros j c' Hj Hn. apply (Hbefore j c' Hj).
        rewrite nth_error_app1 in Hn; [exact Hn|].
        assert (i < List.length cs)%nat by (apply nth_error_Some; congruence). lia.
Qed.

Lemma nearest_fold cs : nearest cs (fold_left consider cs noSelection).
Proof.
  induction cs as [|c cs IH] using rev_ind.
  - cbn. split; [|split].
    + intros c [].
    + reflexivity.
    + discriminate.
  - rewrite fold_left_app. cbn [fold_left]. apply nearest_step. exact IH.
Qed.

End ClosestFacts.

(** ** Runs of [getRoute] on a blocked route *)
Section AppFacts.
Context {K : TurfKernel}.
Variable net : Net.
Local Open Scope app_scope.

(** The world a computation leaves behind. *)
Definition exec {A : Type} (m : M A) (w : World) : World := snd (m w).

Definition lngLat (c : LatLng.t) : position := (LatLng.lng c, LatLng.lat c).

(** What [geocodeAddress] returns for an address. *)
Definition geocoded (address : string) : option LatLng.t :=
  match nominatim net address with
  | Json (hit :: _) => Some {| LatLng.lat := hit_lat hit; LatLng.lng := hit_lon hit |}
  | _ => None
  end.

(** The two geocoded ends and the display coordinates of the first route of
    the primary request, when [getRoute] gets that far. *)
Definition primaryRoute (w : World) : option (LatLng.t * LatLng.t * list coord) :=
  if isEmpty (start w) || isEmpty (end_ w) then None
  else
    match geocoded (start w), geocoded (end_ w) with
    | Some startCoords, Some endCoords =>
        match osrm net (lngLat startCoords) (lngLat endCoords) with
        | Json data =>
            match firstRoute data with
            | Some r => Some (startCoords, endCoords, map flip (coordinates r))
            | None => None
            end
        | _ => None
        end
    | _, _ => None
    end.

(** The candidate route of one leg: none when the request or its parsing
    failed, or when the body lists no route. *)
Definition legCandidate (f : fetched osrmData) : option osrmRoute :=
  match f with
  | Json data => firstRoute data
  | _ => None
  end.

(** The [catch] block of [getRoute]. *)
Definition failed : M unit :=
  consoleError "Error fetching route:" ;;
  alert "An error occurred while getting the route.".

(** The world right after [setShowWarning(true)]. *)
Definition blockedWorld (w : World) (startCoords endCoords : LatLng.t)
    (routeCoordinates : list coord) : World :=
  {| start := start w; end_ := end_ w;
     route := Some routeCoordinates; altRoute := None;
     startPoint := Some startCoords; endPoint := Some endCoords;
     floodReports := floodReports w; drawnItems := drawnItems w;
     showWarning := true;
     alerts := alerts w; consoleErrors := consoleErrors w;
     requests := ((requests w ++ [Search (start w)]) ++ [Search (end_ w)])
                 ++ [Driving (lngLat startCoords) (lngLat endCoords)] |}.

(** The world after the two leg requests were sent. *)
Definition legsSent (w : World) (origin waypoint destination : position) : World :=
  exec (send (Driving origin waypoint) ;; send (Driving waypoint destination)) w.

Lemma getRoute_blocked w startCoords endCoords routeCoordinates :
  primaryRoute w = Some (startCoords, endCoords, routeCoordinates) ->
  checkRouteForFloods routeCoordinates (floodReports w) (drawnItems w) = Ok true ->
  exec (getRoute net) w =
    exec (tryCatch
            (alternativeRoute net startCoords endCoords routeCoordinates
               (floodReports w) (drawnItems w))
            (fun _ => failed))
         (blockedWorld w startCoords endCoords routeCoordinates).
Proof.
  unfold primaryRoute, geocoded. intros H Hcheck.
  destruct (isEmpty (start w) || isEmpty (end_ w)) eqn:E; [discriminate|].
  destruct (nominatim net (start w)) as [| |[|h1 t1]] eqn:N1; try discriminate.
  destruct (nominatim net (end_ w)) as [| |[|h2 t2]] eqn:N2; try discriminate.
  destruct (osrm net _ _) as [| |data] eqn:O; try discriminate.
  destruct (firstRoute data) as [r|] eqn:F; try discriminate.
  injection H as <- <- <-.
  unfold exec, getRoute, geocodeAddress, fetchAndEvaluate, tryCatch, bind, getWorld,
    liftR, ret, modify, setRoute, setAltRoute, setStartPoint, setEndPoint,
    setShowWarning, send, parsed, lngLat in *.
  cbn in O. cbn. rewrite E. cbn. rewrite N1. cbn. rewrite N2. cbn. rewrite O. cbn.
  rewrite F. cbn. rewrite Hcheck. cbn. reflexivity.
Qed.

Lemma alternativeRoute_exec startCoords endCoords routeCoordinates reports drawn w :
  exec (tryCatch
          (alternativeRoute net startCoords endCoords routeCoordinates reports drawn)
          (fun _ => failed)) w =
    match findClosestFloodZone startCoords reports drawn with
    | Throw _ => exec failed w
    | Ok (None, _) => w
    | Ok (Some zone, _) =>
        match bypassWaypoint routeCoordinates zone with
        | Throw _ => exec failed w
        | Ok waypoint =>
            let w1 := legsSent w (lngLat startCoords) waypoint (lngLat endCoords) in
            match legCandidate (osrm net (lngLat startCoords) waypoint),
                  legCandidate (osrm net waypoint (lngLat endCoords)) with
            | Some leg1, Some leg2 =>
                exec (setAltRoute (Some (combinedRouteCoordinates leg1 leg2))) w1
            | _, _ =>
                match parsedBoth (osrm net (lngLat startCoords) waypoint)
                                 (osrm net waypoint (lngLat endCoords)) with
                | Throw _ => exec failed w1
                | Ok _ => w1
                end
            end
        end
    end.
Proof.
  unfold exec, alternativeRoute, detour, tryCatch, bind, liftR, legsSent, lngLat.
  destruct (findClosestFloodZone _ _ _) as [[[zone|] d]|]; cbn [fst snd]; try reflexivity.
  destruct (bypassWaypoint _ _) as [waypoint|]; cbn [fst snd]; try reflexivity.
  cbn [send modify fst snd exec bind].
  destruct (osrm net _ waypoint) as [| |d1]; destruct (osrm net waypoint _) as [| |d2];
    cbn [parsedBoth legCandidate fst snd]; try reflexivity;
    try (destruct (firstRoute d1); reflexivity).
  destruct (firstRoute d1), (firstRoute d2); reflexivity.
Qed.

End AppFacts.

(** ** Reports that differ in severity only, drawn items of other kinds *)

Definition sameButSeverity (r r' : Report.t) : Prop :=
  Report.id r = Report.id r' /\
  Report.lat r = Report.lat r' /\
  Report.lng r = Report.lng r'.

Section Irrelevance.
Context {K : TurfKernel}.

Lemma reportZone_severity r r' :
  sameButSeverity r r' -> reportZone r = reportZone r'.
Proof. intros (_ & Hlat & Hlng). unfold reportZone. rewrite Hlat, Hlng. reflexivity. Qed.

Lemma checkReports_severity routeLine reports reports' :
  Forall2 sameButSeverity reports reports' ->
  checkReports routeLine reports = checkReports routeLine reports'.
Proof.
  induction 1 as [|r r' rest rest' Hr _ IH]; [reflexivity|].
  cbn [checkReports]. rewrite (reportZone_severity Hr), IH. reflexivity.
Qed.

Lemma closerReport_severity sp sel r r' :
  sameButSeverity r r' -> closerReport sp sel r = closerReport sp sel r'.
Proof. intros (_ & Hlat & Hlng). unfold closerReport. rewrite Hlat, Hlng. reflexivity. Qed.

Lemma forOf_reports_severity sp reports reports' :
  Forall2 sameButSeverity reports reports' ->
  forall sel, forOf (closerReport sp) sel reports = forOf (closerReport sp) sel reports'.
Proof.
  induction 1 as [|r r' rest rest' Hr _ IH]; intro sel; [reflexivity|].
  cbn [forOf]. rewrite (closerReport_severity sp sel Hr).
  destruct (closerReport sp sel r'); [apply IH | reflexivity].
Qed.

Lemma findClosest_severity startCoords reports reports' drawn :
  Forall2 sameButSeverity reports reports' ->
  findClosestFloodZone startCoords reports drawn =
  findClosestFloodZone startCoords reports' drawn.
Proof.
  intro H. unfold findClosestFloodZone.
  destruct (Turf.point _) as [sp|]; [|reflexivity]. cbn [rbind].
  rewrite (forOf_reports_severity sp H). reflexivity.
Qed.

Lemma forOf_drawn_filter sp drawn :
  forall sel, forOf (closerDrawn sp) sel (filter isArea drawn) =
              forOf (closerDrawn sp) sel drawn.
Proof.
  induction drawn as [|item rest IH]; intro sel; [reflexivity|].
  cbn [filter forOf]. destruct (isArea item) eqn:E.
  - cbn [forOf]. destruct (closerDrawn sp sel item); [apply IH | reflexivity].
  - unfold closerDrawn at 2. rewrite E. cbn [rbind]. apply IH.
Qed.

Lemma findClosest_filter startCoords reports drawn :
  findClosestFloodZone startCoords reports (filter isArea drawn) =
  findClosestFloodZone startCoords reports drawn.
Proof.
  unfold findClosestFloodZone.
  destruct (Turf.point _) as [sp|]; [|reflexivity]. cbn [rbind].
  destruct (forOf (closerReport sp) noSelection reports); [|reflexivity]. cbn [rbind].
  apply forOf_drawn_filter.
Qed.

Lemma check_filter routeCoords reports drawn :
  checkRouteForFloods routeCoords reports (filter isArea drawn) =
  checkRouteForFloods routeCoords reports drawn.
Proof.
  unfold checkRouteForFloods.
  destruct (Turf.lineString _) as [line|]; [|reflexivity]. cbn [rbind].
  destruct (checkReports line reports) as [[]|]; cbn [rbind]; try reflexivity.
  apply checkDrawn_filter.
Qed.

Lemma filter_Permutation {A : Type} (f : A -> bool) (l l' : list A) :
  Permutation l l' -> Permutation (filter f l) (filter f l').
Proof.
  induction 1; cbn.
  - constructor.
  - destruct (f x); [constructor|]; assumption.
  - destruct (f x), (f y); try apply Permutation_refl. constructor.
  - eapply Permutation_trans; eassumption.
Qed.

Lemma hazardSet_Permutation reports reports' drawn drawn' :
  Permutation reports reports' -> Permutation drawn drawn' ->
  Permutation (hazardSet reports drawn) (hazardSet reports' drawn').
Proof.
  intros Hr Hd. unfold hazardSet. apply Permutation_app.
  - apply Permutation_map. exact Hr.
  - apply Permutation_map. apply filter_Permutation. exact Hd.
Qed.

End Irrelevance.

(** * The claims *)
Section Claims.
Context {K : TurfKernel}.
Variable net : Net.

(** C1 (amended).  For every route with at least two points and every hazard
    set in which the test of each hazard returns (the point and the buffer of
    a report, or the polygon of a drawn area, can be built, and intersecting
    it with the route line raises no exception), [checkRouteForFloods]
    returns a boolean, and it returns true exactly when the effective
    geometry of some hazard, the 0.1 km buffer of a report or the polygon of
    an area, intersects the route line.  For no hazards it returns false.  On
    such hazard sets the outcome is the same for every order of the reports,
    of the drawn items and of the hazards. *)
Theorem check_true_iff_some_hazard_intersects
    (routeCoords : list coord) (reports : list Report.t) (drawn : list Drawn.t) :
  (2 <= List.length routeCoords)%nat ->
  Forall (testable (LineString (map flip routeCoords))) (hazardSet reports drawn) ->
  let routeLine := LineString (map flip routeCoords) in
  (checkRouteForFloods routeCoords reports drawn = Ok true <->
     exists h g, In h (hazardSet reports drawn) /\
                 effectiveGeometry h = Ok g /\
                 booleanIntersects routeLine g = Ok true) /\
  (checkRouteForFloods routeCoords reports drawn = Ok true \/
   checkRouteForFloods routeCoords reports drawn = Ok false) /\
  checkRouteForFloods routeCoords [] [] = Ok false /\
  (forall reports' drawn',
     Permutation reports reports' -> Permutation drawn drawn' ->
     checkRouteForFloods routeCoords reports' drawn' =
     checkRouteForFloods routeCoords reports drawn) /\
  (forall hs, Permutation hs (hazardSet reports drawn) ->
     checkRouteForFloods routeCoords reports drawn = Ok (existsb (hits routeLine) hs)).
Proof.
  intros Hlen Hall routeLine.
  pose proof (check_ok routeCoords reports drawn Hlen Hall) as Hcheck.
  fold routeLine in Hcheck.
  split; [|split; [|split; [|split]]].
  - rewrite Hcheck. split.
    + intro H. injection H as H. apply existsb_exists in H.
      destruct H as (h & Hin & Hh). apply hits_spec in Hh.
      destruct Hh as (g & Hg & Hi). exists h, g. auto.
    + intros (h & g & Hin & Hg & Hi). f_equal. apply existsb_exists.
      exists h. split; [exact Hin|]. apply hits_spec. exists g. auto.
  - rewrite Hcheck. destruct (existsb _ _); auto.
  - unfold checkRouteForFloods. rewrite lineString_ok by (rewrite length_map; exact Hlen).
    reflexivity.
  - intros reports' drawn' Pr Pd.
    assert (P : Permutation (hazardSet reports drawn) (hazardSet reports' drawn'))
      by (apply hazardSet_Permutation; assumption).
    rewrite Hcheck.
    rewrite (check_ok routeCoords reports' drawn' Hlen (Permutation_Forall P Hall)).
    f_equal. apply existsb_Permutation. apply Permutation_sym. exact P.
  - intros hs P. rewrite Hcheck. f_equal. symmetry. apply existsb_Permutation. exact P.
Qed.

(** C2 (amended).  A degenerate drawn area is not skipped.  Whatever the
    hazards before and after it, the check returns true when a hazard tested
    before the area intersects the route, passes on an exception raised while
    testing an earlier hazard, and otherwise ends with the exception of the
    polygon constructor: no boolean is returned and the hazards after the
    area are not tested. *)
Theorem degenerate_area_stops_the_check
    (routeCoords : list coord) (reports : list Report.t)
    (before after : list Drawn.t) (item : Drawn.t) :
  degenerate item ->
  exists e, itemPolygon item = Throw e /\
    checkRouteForFloods routeCoords reports (before ++ item :: after) =
      match checkRouteForFloods routeCoords reports before with
      | Ok false => Throw e
      | r => r
      end.
Proof.
  intro Hdeg. destruct (degenerate_throws Hdeg) as (e & He).
  exists e. split; [exact He|].
  unfold checkRouteForFloods.
  destruct (Turf.lineString _) as [line|]; [|reflexivity]. cbn [rbind].
  destruct (checkReports line reports) as [[]|]; cbn [rbind]; try reflexivity.
  rewrite checkDrawn_app. destruct (checkDrawn line before) as [[]|]; try reflexivity.
  cbn [checkDrawn]. destruct Hdeg as (Harea & _). rewrite Harea, He. reflexivity.
Qed.

(** C8.  Severity does not interfere: for two lists of reports that agree on
    everything but severity, the buffers are the same, the check has the same
    outcome, the same nearest zone is selected at the same distance, and the
    alternative-route block behaves the same, bypass waypoint of its two
    requests included. *)
Theorem severity_does_not_interfere
    (startCoords endCoords : LatLng.t) (routeCoordinates : list coord)
    (reports reports' : list Report.t) (drawn : list Drawn.t) (w : World) :
  Forall2 sameButSeverity reports reports' ->
  Forall2 (fun r r' => reportZone r = reportZone r') reports reports' /\
  checkRouteForFloods routeCoordinates reports drawn =
    checkRouteForFloods routeCoordinates reports' drawn /\
  findClosestFloodZone startCoords reports drawn =
    findClosestFloodZone startCoords reports' drawn /\
  alternativeRoute net startCoords endCoords routeCoordinates reports drawn w =
    alternativeRoute net startCoords endCoords routeCoordinates reports' drawn w.
Proof.
  intro H. split; [|split; [|split]].
  - induction H; constructor; [apply reportZone_severity|]; assumption.
  - unfold checkRouteForFloods.
    destruct (Turf.lineString _) as [line|]; [|reflexivity]. cbn [rbind].
    rewrite (checkReports_severity line H). reflexivity.
  - apply findClosest_severity. exact H.
  - unfold alternativeRoute. rewrite (findClosest_severity startCoords drawn H).
    reflexivity.
Qed.

(** C9.  Drawn items whose type is neither "rectangle" nor "polygon" are
    ignored: two lists of drawn items with the same rectangles and polygons
    in the same order give the same outcome of the check, the same selected
    zone, and the same behaviour of the alternative-route block. *)
Theorem other_shapes_are_ignored
    (startCoords endCoords : LatLng.t) (routeCoordinates : list coord)
    (reports : list Report.t) (drawn drawn' : list Drawn.t) (w : World) :
  filter isArea drawn = filter isArea drawn' ->
  checkRouteForFloods routeCoordinates reports drawn =
    checkRouteForFloods routeCoordinates reports drawn' /\
  findClosestFloodZone startCoords reports drawn =
    findClosestFloodZone startCoords reports drawn' /\
  alternativeRoute net startCoords endCoords routeCoordinates reports drawn w =
    alternativeRoute net startCoords endCoords routeCoordinates reports drawn' w.
Proof.
  intro H.
  assert (Hc : findClosestFloodZone startCoords reports drawn =
               findClosestFloodZone startCoords reports drawn').
  { rewrite <- (findClosest_filter startCoords reports drawn), H.
    apply findClosest_filter. }
  split; [|split].
  - rewrite <- (check_filter routeCoordinates reports drawn), H. apply check_filter.
  - exact Hc.
  - unfold alternativeRoute. rewrite Hc. reflexivity.
Qed.

End Claims.

Section DetourClaims.
Context {K : TurfKernel}.
Variable net : Net.

(** C3.  On a blocked route the hazard flag is set and stays set whatever
    happens afterwards.  Once a zone is selected and the bypass waypoint is
    computed, the alternate route is the merged route when both legs return a
    candidate route and null when either leg fails or returns none; an
    alternate route is present after [getRoute] only when both legs returned a
    candidate. *)
Theorem detour_needs_both_legs
    (w : World) (startCoords endCoords : LatLng.t) (routeCoordinates : list coord) :
  primaryRoute net w = Some (startCoords, endCoords, routeCoordinates) ->
  checkRouteForFloods routeCoordinates (floodReports w) (drawnItems w) = Ok true ->
  showWarning (exec (getRoute net) w) = true /\
  (forall zone d waypoint,
     findClosestFloodZone startCoords (floodReports w) (drawnItems w) = Ok (Some zone, d) ->
     bypassWaypoint routeCoordinates zone = Ok waypoint ->
     altRoute (exec (getRoute net) w) =
       match legCandidate (osrm net (lngLat startCoords) waypoint),
             legCandidate (osrm net waypoint (lngLat endCoords)) with
       | Some leg1, Some leg2 => Some (combinedRouteCoordinates leg1 leg2)
       | _, _ => None
       end) /\
  (forall alt,
     altRoute (exec (getRoute net) w) = Some alt ->
     exists zone d waypoint leg1 leg2,
       findClosestFloodZone startCoords (floodReports w) (drawnItems w) = Ok (Some zone, d) /\
       bypassWaypoint routeCoordinates zone = Ok waypoint /\
       legCandidate (osrm net (lngLat startCoords) waypoint) = Some leg1 /\
       legCandidate (osrm net waypoint (lngLat endCoords)) = Some leg2 /\
       alt = combinedRouteCoordinates leg1 leg2).
Proof.
  intros Hp Hc. rewrite (@getRoute_blocked _ _ _ _ _ _ Hp Hc), alternativeRoute_exec.
  split; [|split].
  - destruct (findClosestFloodZone _ _ _) as [[[zone|] d]|]; try reflexivity.
    destruct (bypassWaypoint _ _) as [waypoint|]; try reflexivity.
    cbv zeta.
    destruct (legCandidate _) as [leg1|]; [destruct (legCandidate _) as [leg2|]|];
      try reflexivity; destruct (parsedBoth _ _); reflexivity.
  - intros zone d waypoint Hz Hw. rewrite Hz, Hw. cbv zeta.
    destruct (legCandidate _) as [leg1|]; [destruct (legCandidate _) as [leg2|]|];
      try reflexivity; destruct (parsedBoth _ _); reflexivity.
  - intros alt.
    destruct (findClosestFloodZone _ _ _) as [[[zone|] d]|] eqn:Ez; try discriminate.
    destruct (bypassWaypoint _ _) as [waypoint|] eqn:Ew; try discriminate.
    cbv zeta.
    destruct (legCandidate _) as [leg1|] eqn:E1;
      [destruct (legCandidate (osrm net waypoint _)) as [leg2|] eqn:E2|].
    + cbn. intro H. injection H as <-. exists zone, d, waypoint, leg1, leg2.
      repeat split; try reflexivity; assumption.
    + destruct (parsedBoth _ _); discriminate.
    + destruct (parsedBoth _ _); discriminate.
Qed.

(** C4 (amended).  When the start point and the candidates of all hazards can
    be built, the search returns: it selects nothing exactly when no
    candidate is nearer than infinity, and otherwise a candidate such that no
    candidate is strictly nearer and every candidate visited earlier (reports
    before areas, each in list order) is strictly farther.  A single report
    strictly nearer than every area is the one selected.  With no hazards the
    alternative-route block changes nothing and sends no request. *)
Theorem nearest_buildable_hazard_is_selected
    (startCoords endCoords : LatLng.t) (routeCoordinates : list coord)
    (reports : list Report.t) (drawn : list Drawn.t)
    (sp : geometry) (cs : list candidate) (w : World) :
  Turf.point (lngLat startCoords) = Ok sp ->
  candidates sp reports drawn = Ok cs ->
  exists sel,
    findClosestFloodZone startCoords reports drawn = Ok sel /\
    (fst sel = None <-> forall c, In c cs -> (snd c <? infinity)%float = false) /\
    (forall zone, fst sel = Some zone ->
       exists i, nth_error cs i = Some (zone, snd sel) /\
         (forall c, In c cs -> (snd c <? snd sel)%float = false) /\
         (forall j c, (j < i)%nat -> nth_error cs j = Some c ->
                      (snd c <=? snd sel)%float = false)) /\
    (forall report c areas,
       reports = [report] -> cs = c :: areas ->
       (snd c <? infinity)%float = true ->
       (forall a, In a areas -> (snd c <? snd a)%float = true) ->
       fst sel = Some (ZonePoint (Point (Report.lng report, Report.lat report)))) /\
    exec (alternativeRoute net startCoords endCoords routeCoordinates [] []) w = w.
Proof.
  intros Hsp Hcs. exists (fold_left consider cs noSelection).
  pose proof (nearest_fold cs) as (Hmin & Hnone & Hsome).
  split; [apply (findClosest_fold startCoords reports drawn Hsp Hcs)|].
  split; [|split; [|split]].
  - split.
    + intros Hn c Hin. rewrite <- (Hnone Hn). apply Hmin, Hin.
    + intro Hall. destruct (fst (fold_left consider cs noSelection)) as [zone|] eqn:E;
        [|reflexivity].
      destruct (Hsome zone eq_refl) as (Hfin & i & Hi & _).
      apply nth_error_In in Hi. apply Hall in Hi. cbn [snd] in Hi. congruence.
  - intros zone Hz. destruct (Hsome zone Hz) as (_ & i & Hi & Hbefore).
    exists i. auto.
  - intros report c areas -> -> Hfin Hareas.
    assert (Hc : fst c = ZonePoint (Point (Report.lng report, Report.lat report))).
    { unfold candidates, hazardSet in Hcs. cbn in Hcs.
      unfold reportCandidate, Turf.point in Hcs. cbn [fst snd] in Hcs.
      destruct (_ && _); [|discriminate]. cbn in Hcs.
      destruct (collect _ _); [|discriminate]. cbn in Hcs.
      injection Hcs as <- _. reflexivity. }
    destruct (fst (fold_left consider (c :: areas) noSelection)) as [zone|] eqn:E.
    + destruct (Hsome zone eq_refl) as (_ & i & Hi & Hbefore).
      destruct i as [|i].
      * cbn [nth_error] in Hi. injection Hi as Hi. rewrite Hi in Hc.
        cbn [fst] in Hc. congruence.
      * exfalso. cbn [nth_error] in Hi. apply nth_error_In in Hi.
        specialize (Hareas _ Hi). cbn [snd] in Hareas. apply ltb_leb in Hareas.
        rewrite (Hbefore 0%nat c) in Hareas; [discriminate | lia | reflexivity].
    + exfalso. specialize (Hmin c (or_introl eq_refl)).
      rewrite (Hnone eq_refl) in Hmin. congruence.
  - unfold exec, alternativeRoute, findClosestFloodZone, bind, liftR.
    fold (lngLat startCoords). rewrite Hsp. reflexivity.
Qed.

(** C5.  On a blocked route with a selected zone [getRoute] has sent the
    two searches and the primary route request.  When the zone is the point
    of a report and the library returns the point of the route line nearest
    to it (the anchor), the two leg requests follow, and both use the anchor
    with 0.01 added to each of its two coordinates as their shared end.  When
    the zone is the ring of a drawn area, the library is handed the bare ring
    where it reads a point and throws: there is no anchor, no waypoint and no
    leg request, and the run ends in the [catch] block with the warning on
    and without alternate route. *)
Theorem bypass_waypoint_only_for_report_zones
    (w : World) (startCoords endCoords : LatLng.t) (routeCoordinates : list coord)
    (zone : floodZone) (d : float) :
  primaryRoute net w = Some (startCoords, endCoords, routeCoordinates) ->
  checkRouteForFloods routeCoordinates (floodReports w) (drawnItems w) = Ok true ->
  findClosestFloodZone startCoords (floodReports w) (drawnItems w) = Ok (Some zone, d) ->
  let routeLine := LineString (map flip routeCoordinates) in
  let sent :=
    requests w ++
    [Search (start w); Search (end_ w); Driving (lngLat startCoords) (lngLat endCoords)] in
  (forall p anchor,
     zone = ZonePoint (Point p) ->
     nearestPointOnLine routeLine p = Ok anchor ->
     requests (exec (getRoute net) w) =
       sent ++
       [Driving (lngLat startCoords) (fst anchor + 0.01, snd anchor + 0.01)%float;
        Driving (fst anchor + 0.01, snd anchor + 0.01)%float (lngLat endCoords)]) /\
  (forall ring,
     zone = ZoneRing ring ->
     detourAnchor routeCoordinates zone = Throw CoordNotPoint /\
     requests (exec (getRoute net) w) = sent /\
     altRoute (exec (getRoute net) w) = None /\
     showWarning (exec (getRoute net) w) = true /\
     alerts (exec (getRoute net) w) =
       alerts w ++ ["An error occurred while getting the route."%string] /\
     consoleErrors (exec (getRoute net) w) =
       consoleErrors w ++ ["Error fetching route:"%string]).
Proof.
  intros Hp Hc Hz routeLine sent.
  rewrite (@getRoute_blocked _ _ _ _ _ _ Hp Hc), alternativeRoute_exec, Hz.
  assert (Hline : Turf.lineString (map flip routeCoordinates) = Ok routeLine).
  { unfold checkRouteForFloods, Turf.lineString in *.
    destruct (_ <? _)%nat; [discriminate | reflexivity]. }
  unfold bypassWaypoint, detourAnchor. rewrite Hline. cbn [rbind]. split.
  - intros p anchor -> Ha. cbn [Turf.getCoord rbind]. rewrite Ha. cbn [rbind].
    cbv zeta. fold (offset anchor).
    assert (Hreq : forall w1, requests w1 = requests
                     (legsSent (blockedWorld w startCoords endCoords routeCoordinates)
                        (lngLat startCoords) (offset anchor) (lngLat endCoords)) ->
                   requests w1 = sent ++
                     [Driving (lngLat startCoords) (offset anchor);
                      Driving (offset anchor) (lngLat endCoords)]).
    { intros w1 ->. unfold sent. cbn. rewrite <- !app_assoc. reflexivity. }
    apply Hreq.
    destruct (legCandidate _) as [leg1|]; [destruct (legCandidate _) as [leg2|]|];
      try reflexivity; destruct (parsedBoth _ _); reflexivity.
  - intros ring ->. cbn [Turf.getCoord rbind]. unfold sent. cbn.
    rewrite <- !app_assoc. repeat split.
Qed.

(** C6.  When the waypoint is computed and both leg requests succeed with a
    route each, the alternate route set by the detour block has as many
    points as the first routes of leg A and of leg B together: the point at
    index [i] of leg A, [[lng, lat]], is found as [[lat, lng]] at index [i],
    and the point at index [i] of leg B as [[lat, lng]] at index [i] plus the
    length of leg A.  Nothing is dropped, added or reordered. *)
Theorem alternate_route_is_leg_concatenation
    (startCoords endCoords : LatLng.t) (routeCoordinates : list coord)
    (zone : floodZone) (waypoint : position) (data1 data2 : osrmData)
    (leg1 leg2 : osrmRoute) (w : World) :
  bypassWaypoint routeCoordinates zone = Ok waypoint ->
  osrm net (lngLat startCoords) waypoint = Json data1 ->
  osrm net waypoint (lngLat endCoords) = Json data2 ->
  firstRoute data1 = Some leg1 ->
  firstRoute data2 = Some leg2 ->
  exists alt,
    altRoute (exec (detour net startCoords endCoords routeCoordinates zone) w) = Some alt /\
    List.length alt = (List.length (coordinates leg1) + List.length (coordinates leg2))%nat /\
    (forall i lng lat,
       nth_error (coordinates leg1) i = Some (lng, lat) ->
       nth_error alt i = Some (lat, lng)) /\
    (forall i lng lat,
       nth_error (coordinates leg2) i = Some (lng, lat) ->
       nth_error alt (List.length (coordinates leg1) + i) = Some (lat, lng)).
Proof.
  intros Hw H1 H2 F1 F2. exists (combinedRouteCoordinates leg1 leg2).
  unfold combinedRouteCoordinates. split; [|split; [|split]].
  - unfold exec, detour, bind, liftR. rewrite Hw. cbn [fst snd send modify].
    fold (lngLat startCoords) (lngLat endCoords). rewrite H1, H2.
    cbn [parsedBoth fst snd]. rewrite F1, F2. reflexivity.
  - rewrite length_map, length_app. reflexivity.
  - intros i lng lat Hi. rewrite nth_error_map, nth_error_app1.
    + rewrite Hi. reflexivity.
    + apply nth_error_Some. congruence.
  - intros i lng lat Hi. rewrite nth_error_map, nth_error_app2 by lia.
    replace (List.length (coordinates leg1) + i - List.length (coordinates leg1))%nat
      with i by lia.
    rewrite Hi. reflexivity.
Qed.

(** C10.  The merged route is not checked against the hazards: when both legs
    return a candidate, [getRoute] ends with the merged route as alternate
    route and with the two leg requests as its last requests, also when the
    merged route itself is blocked by the same reports and drawn items. *)
Theorem alternate_route_is_not_rechecked
    (w : World) (startCoords endCoords : LatLng.t) (routeCoordinates : list coord)
    (zone : floodZone) (d : float) (waypoint : position) (leg1 leg2 : osrmRoute) :
  primaryRoute net w = Some (startCoords, endCoords, routeCoordinates) ->
  checkRouteForFloods routeCoordinates (floodReports w) (drawnItems w) = Ok true ->
  findClosestFloodZone startCoords (floodReports w) (drawnItems w) = Ok (Some zone, d) ->
  bypassWaypoint routeCoordinates zone = Ok waypoint ->
  legCandidate (osrm net (lngLat startCoords) waypoint) = Some leg1 ->
  legCandidate (osrm net waypoint (lngLat endCoords)) = Some leg2 ->
  checkRouteForFloods (combinedRouteCoordinates leg1 leg2) (floodReports w) (drawnItems w)
    = Ok true ->
  altRoute (exec (getRoute net) w) = Some (combinedRouteCoordinates leg1 leg2) /\
  showWarning (exec (getRoute net) w) = true /\
  requests (exec (getRoute net) w) =
    requests w
    ++ [Search (start w); Search (end_ w); Driving (lngLat startCoords) (lngLat endCoords);
        Driving (lngLat startCoords) waypoint; Driving waypoint (lngLat endCoords)].
Proof.
  intros Hp Hc Hz Hw H1 H2 _.
  rewrite (@getRoute_blocked _ _ _ _ _ _ Hp Hc), alternativeRoute_exec, Hz, Hw. cbv zeta.
  rewrite H1, H2. repeat split. cbn. rewrite <- !app_assoc. reflexivity.
Qed.

End DetourClaims.

(** * The check on JavaScript objects

    [checkRouteForFloods] once more, this time on the arrays and objects it
    is handed: values are numbers, strings, [undefined], references into a
    store of arrays and objects, and the features that the geometry library
    returns.  The function reads its arguments through references, builds
    new arrays with [map] and array literals, and hands only these to the
    library.  What the library does to an array it is handed is left open
    ([meddle]); the features it returns are taken as values, and its routines
    as functions of them. *)
Module Js.

Inductive value : Type :=
| Undefined
| Num (x : float)
| Str (s : string)
| Ref (l : nat)
| Feature (g : geometry).

Inductive object : Type :=
| Arr (elements : list value)
| Obj (fields : list (string * value)).

(** The store: an object lives at its index, a new one is put at the end. *)
Definition heap : Type := list object.

Definition J (A : Type) : Type := heap -> result A * heap.

Definition ret {A : Type} (a : A) : J A := fun h => (Ok a, h).

Definition bind {A B : Type} (m : J A) (k : A -> J B) : J B :=
  fun h =>
    match m h with
    | (Ok a, h') => k a h'
    | (Throw e, h') => (Throw e, h')
    end.

Declare Scope js_scope.
Delimit Scope js_scope with js.
Notation "x <- m ;; k" := (bind m (fun x => k))
  (at level 61, m at next level, right associativity) : js_scope.
Local Open Scope js_scope.

(** An array literal or an object literal. *)
Definition alloc (o : object) : J value :=
  fun h => (Ok (Ref (List.length h)), h ++ [o]).

Definition field (name : string) (fields : list (string * value)) : value :=
  match find (fun f => (fst f =? name)%string) fields with
  | Some f => snd f
  | None => Undefined
  end.

(** [v.name]: a TypeError on [undefined], [undefined] where there is no such
    property. *)
Definition get (v : value) (name : string) : J value :=
  fun h =>
    match v with
    | Undefined => (Throw TypeError, h)
    | Ref l =>
        match nth_error h l with
        | Some (Obj fields) => (Ok (field name fields), h)
        | _ => (Ok Undefined, h)
        end
    | _ => (Ok Undefined, h)
    end.

(** [v[i]] *)
Definition index (v : value) (i : nat) : J value :=
  fun h =>
    match v with
    | Undefined => (Throw TypeError, h)
    | Ref l =>
        match nth_error h l with
        | Some (Arr elements) => (Ok (nth i elements Undefined), h)
        | _ => (Ok Undefined, h)
        end
    | _ => (Ok Undefined, h)
    end.

(** The elements of an array, as [for ... of] and [map] visit them; a value
    that is no array is not iterable and has no [map]. *)
Definition elements (v : value) : J (list value) :=
  fun h =>
    match v with
    | Ref l =>
        match nth_error h l with
        | Some (Arr elements) => (Ok elements, h)
        | _ => (Throw TypeError, h)
        end
    | _ => (Throw TypeError, h)
    end.

Fixpoint mapM (f : value -> J value) (vs : list value) : J (list value) :=
  match vs with
  | [] => ret []
  | v :: rest => w <- f v ;; ws <- mapM f rest ;; ret (w :: ws)
  end.

(** [v.map(f)] *)
Definition arrayMap (f : value -> J value) (v : value) : J value :=
  vs <- elements v ;;
  ws <- mapM f vs ;;
  alloc (Arr ws).

(** A loop [for (const x of v) { if (body(x)) return true; }]: did it
    return? *)
Fixpoint anyOf (body : value -> J bool) (vs : list value) : J bool :=
  match vs with
  | [] => ret false
  | v :: rest => hit <- body v ;; if hit then ret true else anyOf body rest
  end.

Definition forOf (body : value -> J bool) (v : value) : J bool :=
  vs <- elements v ;; anyOf body vs.

(** [v === s] for a string literal [s]. *)
Definition isString (v : value) (s : string) : bool :=
  match v with
  | Str t => (t =? s)%string
  | _ => false
  end.

(** [coord => [coord[1], coord[0]]] *)
Definition flipped (coord : value) : J value :=
  c1 <- index coord 1 ;;
  c0 <- index coord 0 ;;
  alloc (Arr [c1; c0]).

Section Library.
Context {K : TurfKernel}.

(** What the library leaves at a location that it was handed. *)
Variable meddle : heap -> nat -> object -> object.

(** The locations that hang from a value. *)
Fixpoint reach (fuel : nat) (h : heap) (v : value) : list nat :=
  match fuel with
  | O => []
  | S fuel' =>
      match v with
      | Ref l =>
          l :: match nth_error h l with
               | Some (Arr elements) => flat_map (reach fuel' h) elements
               | Some (Obj fields) => flat_map (fun f => reach fuel' h (snd f)) fields
               | None => []
               end
      | _ => []
      end
  end.

Definition handed (h : heap) (v : value) : list nat :=
  reach (S (List.length h)) h v.

Fixpoint meddledFrom (i : nat) (ls : list nat) (f : nat -> object -> object)
    (h : heap) : heap :=
  match h with
  | [] => []
  | o :: rest =>
      (if existsb (Nat.eqb i) ls then f i o else o) :: meddledFrom (S i) ls f rest
  end.

(** The store after a call that was handed [v]. *)
Definition meddled (h : heap) (v : value) : heap :=
  meddledFrom 0 (handed h v) (meddle h) h.

(** An array of two numbers, an array of such arrays, and an array of those,
    as the library reads them. *)
Definition positionOf (h : heap) (v : value) : option position :=
  match v with
  | Ref l =>
      match nth_error h l with
      | Some (Arr (Num x :: Num y :: _)) => Some (x, y)
      | _ => None
      end
  | _ => None
  end.

Fixpoint allOf {A : Type} (read : value -> option A) (vs : list value)
  : option (list A) :=
  match vs with
  | [] => Some []
  | v :: rest =>
      match read v, allOf read rest with
      | Some a, Some others => Some (a :: others)
      | _, _ => None
      end
  end.

Definition arrayOf {A : Type} (read : heap -> value -> option A) (h : heap)
    (v : value) : option (list A) :=
  match v with
  | Ref l =>
      match nth_error h l with
      | Some (Arr elements) => allOf (read h) elements
      | _ => None
      end
  | _ => None
  end.

(** A feature constructor of the library called on an array: the feature, or
    the exception, of the constructor on what the array holds.  An array that
    does not hold numbers where positions are expected is refused. *)
Definition construct {A : Type} (read : heap -> value -> option A)
    (make : A -> result geometry) (v : value) : J value :=
  fun h =>
    (match read h v with
     | Some a =>
         match make a with
         | Ok g => Ok (Feature g)
         | Throw e => Throw e
         end
     | None => Throw TypeError
     end,
     meddled h v).

Definition point : value -> J value := construct positionOf Turf.point.

Definition lineString : value -> J value :=
  construct (arrayOf positionOf) Turf.lineString.

Definition polygon : value -> J value :=
  construct (arrayOf (arrayOf positionOf)) Turf.polygon.

Definition buffer (v : value) (radius : float) : J value :=
  fun h =>
    match v with
    | Feature g =>
        match buffer g radius Kilometers with
        | Ok g' => (Ok (Feature g'), h)
        | Throw e => (Throw e, h)
        end
    | _ => (Throw TypeError, h)
    end.

Definition booleanIntersects (v1 v2 : value) : J bool :=
  fun h =>
    match v1, v2 with
    | Feature g1, Feature g2 => (booleanIntersects g1 g2, h)
    | _, _ => (Throw TypeError, h)
    end.

(** The test of the first loop, on one report. *)
Definition reportHits (routeLine report : value) : J bool :=
  lng <- get report "lng" ;;
  lat <- get report "lat" ;;
  coordinates <- alloc (Arr [lng; lat]) ;;
  point <- point coordinates ;;
  bufferedPoint <- buffer point 0.1 ;;
  booleanIntersects routeLine bufferedPoint.

(** The test of the second loop, on one drawn item. *)
Definition itemHits (routeLine item : value) : J bool :=
  type <- get item "type" ;;
  if isString type "rectangle" || isString type "polygon" then
    latlngs <- get item "latlngs" ;;
    rings <- arrayMap (arrayMap flipped) latlngs ;;
    polygon <- polygon rings ;;
    booleanIntersects routeLine polygon
  else ret false.

Definition checkRouteForFloods (routeCoords reports drawn : value) : J bool :=
  coordinates <- arrayMap flipped routeCoords ;;
  routeLine <- lineString coordinates ;;
  hit <- forOf (reportHits routeLine) reports ;;
  if hit then ret true else forOf (itemHits routeLine) drawn.

End Library.

(** How the arguments of the check lie in the store. *)
Definition isCoord (h : heap) (v : value) (c : coord) : Prop :=
  exists l, v = Ref l /\ nth_error h l = Some (Arr [Num (fst c); Num (snd c)]).

Definition isArray {A : Type} (rep : heap -> value -> A -> Prop) (h : heap)
    (v : value) (xs : list A) : Prop :=
  exists l vs, v = Ref l /\ nth_error h l = Some (Arr vs) /\ Forall2 (rep h) vs xs.

Definition isReport (h : heap) (v : value) (report : Report.t) : Prop :=
  exists l fields,
    v = Ref l /\ nth_error h l = Some (Obj fields) /\
    field "lat" fields = Num (Report.lat report) /\
    field "lng" fields = Num (Report.lng report) /\
    field "severity" fields = Str (Report.severity report).

(** [latlngs]: an array of rings, or one [LatLng] object. *)
Definition isLatLngs (h : heap) (v : value) (ll : latlngs) : Prop :=
  match ll with
  | Rings rs => isArray (isArray isCoord) h v rs
  | Single c =>
      exists l fields,
        v = Ref l /\ nth_error h l = Some (Obj fields) /\
        field "lat" fields = Num (LatLng.lat c) /\
        field "lng" fields = Num (LatLng.lng c)
  end.

Definition isItem (h : heap) (v : value) (item : Drawn.t) : Prop :=
  exists l fields,
    v = Ref l /\ nth_error h l = Some (Obj fields) /\
    field "type" fields = Str (Drawn.type item) /\
    field "color" fields = Str (Drawn.color item) /\
    isLatLngs h (field "latlngs" fields) (Drawn.latlngs item).

End Js.

(** ** The check leaves the store it finds, and depends on what it holds *)
Section JsFacts.
Context {K : TurfKernel}.
Variable meddle : Js.heap -> nat -> Js.object -> Js.object.

(** Every object of [h] is still in [h'], where it was. *)
Definition keeps (h h' : Js.heap) : Prop :=
  forall l o, nth_error h l = Some o -> nth_error h' l = Some o.

Lemma keeps_refl h : keeps h h.
Proof. intros l o H. exact H. Qed.

Lemma keeps_trans h1 h2 h3 : keeps h1 h2 -> keeps h2 h3 -> keeps h1 h3.
Proof. intros H12 H23 l o H. apply H23, H12, H. Qed.

Lemma keeps_app h t : keeps h (h ++ t).
Proof.
  intros l o H. rewrite nth_error_app1; [exact H|].
  apply nth_error_Some. congruence.
Qed.

Lemma keeps_length h h' : keeps h h' -> (List.length h <= List.length h')%nat.
Proof.
  intro H. destruct h as [|o0 rest] eqn:E using rev_ind; [cbn; lia|].
  clear IHrest.
  assert (Hl : nth_error (rest ++ [o0]) (List.length rest) = Some o0)
    by (rewrite nth_error_app2, Nat.sub_diag by lia; reflexivity).
  apply H in Hl.
  assert (List.length rest < List.length h')%nat by (apply nth_error_Some; congruence).
  rewrite length_app. cbn. lia.
Qed.

(** A description of a value that does not depend on what is added to the
    store. *)
Definition stable {A : Type} (rep : Js.heap -> Js.value -> A -> Prop) : Prop :=
  forall h h' v a, keeps h h' -> rep h v a -> rep h' v a.

Lemma Forall2_stable {A : Type} (rep : Js.heap -> Js.value -> A -> Prop) h h' vs xs :
  stable rep -> keeps h h' -> Forall2 (rep h) vs xs -> Forall2 (rep h') vs xs.
Proof.
  intros Hs Hk H. induction H; constructor; [eapply Hs; eassumption | assumption].
Qed.

Lemma isCoord_stable : stable Js.isCoord.
Proof. intros h h' v c Hk (l & -> & Hl). exists l. split; [reflexivity | apply Hk, Hl]. Qed.

Lemma isArray_stable {A : Type} (rep : Js.heap -> Js.value -> A -> Prop) :
  stable rep -> stable (Js.isArray rep).
Proof.
  intros Hs h h' v xs Hk (l & vs & -> & Hl & Hall).
  exists l, vs. split; [reflexivity|]. split; [apply Hk, Hl|].
  eapply Forall2_stable; eassumption.
Qed.

Lemma isReport_stable : stable Js.isReport.
Proof.
  intros h h' v r Hk (l & fields & -> & Hl & Hrest).
  exists l, fields. split; [reflexivity|]. split; [apply Hk, Hl | exact Hrest].
Qed.

Lemma isItem_stable : stable Js.isItem.
Proof.
  intros h h' v item Hk (l & fields & -> & Hl & Ht & Hc & Hll).
  exists l, fields. split; [reflexivity|]. split; [apply Hk, Hl|].
  split; [exact Ht|]. split; [exact Hc|].
  unfold Js.isLatLngs in *. destruct (Drawn.latlngs item) as [rs|c].
  - eapply (isArray_stable (isArray_stable isCoord_stable)); eassumption.
  - destruct Hll as (l' & fs & E & Hl' & Hr). exists l', fs.
    split; [exact E|]. split; [apply Hk, Hl' | exact Hr].
Qed.

(** Arrays made during the call: they lie at or above [n]. *)
Definition freshPair (n : nat) (h : Js.heap) (v : Js.value) (p : position) : Prop :=
  exists l, v = Js.Ref l /\ (n <= l)%nat /\
            nth_error h l = Some (Js.Arr [Js.Num (fst p); Js.Num (snd p)]).

Definition freshArray {A : Type} (rep : Js.heap -> Js.value -> A -> Prop) (n : nat)
    (h : Js.heap) (v : Js.value) (xs : list A) : Prop :=
  exists l vs, v = Js.Ref l /\ (n <= l)%nat /\
               nth_error h l = Some (Js.Arr vs) /\ Forall2 (rep h) vs xs.

Lemma freshPair_stable n : stable (freshPair n).
Proof.
  intros h h' v p Hk (l & -> & Hn & Hl). exists l. repeat split; [exact Hn | apply Hk, Hl].
Qed.

Lemma freshArray_stable {A : Type} (rep : Js.heap -> Js.value -> A -> Prop) n :
  stable rep -> stable (freshArray rep n).
Proof.
  intros Hs h h' v xs Hk (l & vs & -> & Hn & Hl & Hall).
  exists l, vs. split; [reflexivity|]. split; [exact Hn|]. split; [apply Hk, Hl|].
  eapply Forall2_stable; eassumption.
Qed.

(** [f] turns a described value into a fresh one and only adds to the store. *)
Definition builds {A B : Type} (repA : Js.heap -> Js.value -> A -> Prop)
    (repB : Js.heap -> Js.value -> B -> Prop) (n : nat)
    (f : Js.value -> Js.J Js.value) (g : A -> B) : Prop :=
  forall h v a, (n <= List.length h)%nat -> repA h v a ->
    exists w t, f v h = (Ok w, h ++ t) /\ repB (h ++ t) w (g a).

Lemma flipped_builds n : builds Js.isCoord (freshPair n) n Js.flipped flip.
Proof.
  intros h v c Hn (l & -> & Hl).
  exists (Js.Ref (List.length h)), [Js.Arr [Js.Num (snd c); Js.Num (fst c)]].
  split.
  - unfold Js.flipped, Js.bind, Js.index, Js.alloc. rewrite Hl. cbn. rewrite Hl. reflexivity.
  - exists (List.length h). split; [reflexivity|]. split; [exact Hn|].
    rewrite nth_error_app2, Nat.sub_diag by lia. reflexivity.
Qed.

Lemma mapM_builds {A B : Type} (repA : Js.heap -> Js.value -> A -> Prop)
    (repB : Js.heap -> Js.value -> B -> Prop) n f g :
  stable repA -> stable repB -> builds repA repB n f g ->
  forall vs xs h, (n <= List.length h)%nat -> Forall2 (repA h) vs xs ->
    exists ws t, Js.mapM f vs h = (Ok ws, h ++ t) /\
                 Forall2 (repB (h ++ t)) ws (map g xs).
Proof.
  intros HA HB Hf vs. induction vs as [|v rest IH]; intros xs h Hn Hall.
  - inversion Hall; subst. exists [], []. rewrite app_nil_r. split; [reflexivity | constructor].
  - inversion Hall as [|? x ? xs' Hv Hrest]; subst.
    destruct (Hf h v x Hn Hv) as (w & t1 & Hw & Hrep).
    assert (Hn1 : (n <= List.length (h ++ t1))%nat) by (rewrite length_app; lia).
    destruct (IH xs' (h ++ t1) Hn1 (Forall2_stable HA (keeps_app h t1) Hrest))
      as (ws & t2 & Hws & Hreps).
    exists (w :: ws), (t1 ++ t2). rewrite app_assoc. split.
    + cbn [Js.mapM]. unfold Js.bind at 1. rewrite Hw.
      unfold Js.bind at 1. rewrite Hws. reflexivity.
    + cbn [map]. constructor; [|exact Hreps].
      eapply HB; [apply keeps_app | exact Hrep].
Qed.

Lemma arrayMap_builds {A B : Type} (repA : Js.heap -> Js.value -> A -> Prop)
    (repB : Js.heap -> Js.value -> B -> Prop) n f g :
  stable repA -> stable repB -> builds repA repB n f g ->
  builds (Js.isArray repA) (freshArray repB n) n (Js.arrayMap f) (map g).
Proof.
  intros HA HB Hf h v xs Hn (l & vs & -> & Hl & Hall).
  destruct (@mapM_builds _ _ repA repB n f g HA HB Hf vs xs h Hn Hall)
    as (ws & t & Hws & Hreps).
  exists (Js.Ref (List.length (h ++ t))), (t ++ [Js.Arr ws]). split.
  - unfold Js.arrayMap, Js.bind, Js.elements. rewrite Hl, Hws.
    unfold Js.alloc. rewrite app_assoc. reflexivity.
  - exists (List.length (h ++ t)), ws. split; [reflexivity|].
    split; [rewrite length_app; lia|]. rewrite app_assoc. split.
    + rewrite nth_error_app2, Nat.sub_diag by lia. reflexivity.
    + eapply Forall2_stable; [exact HB | apply keeps_app | exact Hreps].
Qed.

(** What the library reads from a fresh array. *)
Lemma positionOf_fresh n h v p : freshPair n h v p -> Js.positionOf h v = Some p.
Proof.
  intros (l & -> & _ & Hl). unfold Js.positionOf. rewrite Hl. destruct p; reflexivity.
Qed.

Lemma allOf_fresh {A : Type} (rep : Js.heap -> Js.value -> A -> Prop)
    (read : Js.heap -> Js.value -> option A) h vs xs :
  (forall v a, rep h v a -> read h v = Some a) ->
  Forall2 (rep h) vs xs -> Js.allOf (read h) vs = Some xs.
Proof.
  intros Hr H. induction H as [|v x vs xs Hv _ IH]; [reflexivity|].
  cbn [Js.allOf]. rewrite (Hr v x Hv), IH. reflexivity.
Qed.

Lemma arrayOf_fresh {A : Type} (rep : Js.heap -> Js.value -> A -> Prop)
    (read : Js.heap -> Js.value -> option A) n h v xs :
  (forall v a, rep h v a -> read h v = Some a) ->
  freshArray rep n h v xs -> Js.arrayOf read h v = Some xs.
Proof.
  intros Hr (l & vs & -> & _ & Hl & Hall). unfold Js.arrayOf. rewrite Hl.
  eapply allOf_fresh; eassumption.
Qed.

(** Everything that hangs from [v] lies at or above [n]. *)
Definition young (n : nat) (h : Js.heap) (v : Js.value) : Prop :=
  forall fuel l, In l (Js.reach fuel h v) -> (n <= l)%nat.

Lemma young_number n h x : young n h (Js.Num x).
Proof. intros [|fuel] l []. Qed.

Lemma young_freshPair n h v p : freshPair n h v p -> young n h v.
Proof.
  intros (l & -> & Hn & Hl) [|fuel] l' Hin; [destruct Hin|].
  cbn [Js.reach] in Hin. rewrite Hl in Hin. destruct Hin as [<-|Hin]; [exact Hn|].
  cbn [flat_map] in Hin. rewrite app_nil_r in Hin.
  apply in_app_or in Hin. destruct Hin as [Hin|Hin]; eapply young_number; exact Hin.
Qed.

Lemma young_freshArray {A : Type} (rep : Js.heap -> Js.value -> A -> Prop) n h v xs :
  (forall v a, rep h v a -> young n h v) ->
  freshArray rep n h v xs -> young n h v.
Proof.
  intros Hr (l & vs & -> & Hn & Hl & Hall) [|fuel] l' Hin; [destruct Hin|].
  cbn [Js.reach] in Hin. rewrite Hl in Hin. destruct Hin as [<-|Hin]; [exact Hn|].
  apply in_flat_map in Hin. destruct Hin as (v & Hv & Hin).
  assert (Hy : exists a, rep h v a).
  { clear - Hall Hv. induction Hall as [|w x ws xs' Hw _ IH]; [destruct Hv|].
    destruct Hv as [<-|Hv]; [eauto | exact (IH Hv)]. }
  destruct Hy as (a & Ha). exact (Hr v a Ha fuel l' Hin).
Qed.

(** The library changes no object that does not hang from what it is
    handed. *)
Lemma meddledFrom_nth ls f h : forall i l,
  nth_error (Js.meddledFrom i ls f h) l =
    option_map (fun o => if existsb (Nat.eqb (i + l)) ls then f (i + l)%nat o else o)
               (nth_error h l).
Proof.
  induction h as [|o rest IH]; intros i l.
  - destruct l; reflexivity.
  - destruct l as [|l]; cbn [Js.meddledFrom nth_error option_map].
    + rewrite Nat.add_0_r. reflexivity.
    + rewrite IH. replace (S i + l)%nat with (i + S l)%nat by lia. reflexivity.
Qed.

Lemma meddled_keeps h0 h v :
  keeps h0 h -> young (List.length h0) h v -> keeps h0 (Js.meddled meddle h v).
Proof.
  intros Hk Hy l o Hl. unfold Js.meddled. rewrite meddledFrom_nth.
  rewrite (Hk l o Hl). cbn [option_map Nat.add]. f_equal.
  destruct (existsb (Nat.eqb l) (Js.handed h v)) eqn:E; [|reflexivity].
  exfalso. apply existsb_exists in E. destruct E as (l' & Hin & Heq).
  apply Nat.eqb_eq in Heq. subst l'.
  assert (List.length h0 <= l)%nat by (exact (Hy _ _ Hin)).
  assert (l < List.length h0)%nat by (apply nth_error_Some; congruence). lia.
Qed.

(** A constructor called on a fresh array. *)
Lemma construct_fresh {A : Type} (read : Js.heap -> Js.value -> option A)
    (make : A -> result geometry) h0 h v a :
  keeps h0 h -> read h v = Some a -> young (List.length h0) h v ->
  exists h',
    Js.construct meddle read make v h =
      (match make a with Ok g => Ok (Js.Feature g) | Throw e => Throw e end, h') /\
    keeps h0 h'.
Proof.
  intros Hk Hr Hy. exists (Js.meddled meddle h v). split.
  - unfold Js.construct. rewrite Hr. reflexivity.
  - apply meddled_keeps; assumption.
Qed.

(** The outcome of a loop test on the store: what the test returns on the
    value it stands for, in a store that keeps what was there. *)
Definition follows (h0 h : Js.heap) (r : result bool) (run : result bool * Js.heap)
  : Prop :=
  fst run = r /\ keeps h0 (snd run).

Lemma get_object h l fields name :
  nth_error h l = Some (Js.Obj fields) ->
  Js.get (Js.Ref l) name h = (Ok (Js.field name fields), h).
Proof. intro Hl. unfold Js.get. rewrite Hl. reflexivity. Qed.

Lemma reportHits_follows h0 h line v report :
  keeps h0 h -> Js.isReport h0 v report ->
  follows h0 h (hazardTest line (HazardReport report))
    (Js.reportHits meddle (Js.Feature line) v h).
Proof.
  intros Hk Hv. pose proof (isReport_stable Hk Hv) as (l & fields & -> & Hl & Hlat & Hlng & _).
  unfold Js.reportHits.
  unfold Js.bind at 1. rewrite (@get_object h l fields _ Hl), Hlng. cbv beta iota.
  unfold Js.bind at 1. rewrite (@get_object h l fields _ Hl), Hlat. cbv beta iota.
  unfold Js.bind at 1. unfold Js.alloc at 1. cbv beta iota.
  set (pair := Js.Arr [Js.Num (Report.lng report); Js.Num (Report.lat report)]).
  set (h1 := h ++ [pair]).
  assert (Hk1 : keeps h0 h1) by (eapply keeps_trans; [exact Hk | apply keeps_app]).
  assert (Hf : freshPair (List.length h0) h1 (Js.Ref (List.length h))
                 (Report.lng report, Report.lat report)).
  { exists (List.length h). split; [reflexivity|]. split; [apply keeps_length, Hk|].
    unfold h1. rewrite nth_error_app2, Nat.sub_diag by lia. reflexivity. }
  destruct (@construct_fresh _ Js.positionOf Turf.point h0 h1 _ _ Hk1
              (positionOf_fresh Hf) (young_freshPair Hf)) as (h2 & Hc & Hk2).
  unfold Js.bind at 1. unfold Js.point. rewrite Hc.
  unfold hazardTest, effectiveGeometry, reportZone, rbind.
  destruct (Turf.point _) as [g|e]; [|split; [reflexivity | exact Hk2]].
  unfold Js.bind, Js.buffer. destruct (buffer g 0.1%float Kilometers) as [g'|e];
    [|split; [reflexivity | exact Hk2]].
  unfold Js.booleanIntersects. split; [reflexivity | exact Hk2].
Qed.

Lemma itemHits_follows h0 h line v item :
  keeps h0 h -> Js.isItem h0 v item ->
  follows h0 h (if isArea item then hazardTest line (HazardArea item) else Ok false)
    (Js.itemHits meddle (Js.Feature line) v h).
Proof.
  intros Hk Hv.
  pose proof (isItem_stable Hk Hv) as (l & fields & -> & Hl & Ht & _ & Hll).
  unfold Js.itemHits. unfold Js.bind at 1. rewrite (@get_object h l fields _ Hl), Ht. cbv beta iota.
  unfold Js.isString. fold (isArea item). destruct (isArea item);
    [|split; [reflexivity | exact Hk]].
  unfold Js.bind at 1. rewrite (@get_object h l fields _ Hl). cbv beta iota.
  unfold hazardTest, effectiveGeometry, itemPolygon. unfold Js.isLatLngs in Hll.
  destruct (Drawn.latlngs item) as [rs|c].
  - assert (Hb : builds (Js.isArray (Js.isArray Js.isCoord))
                   (freshArray (freshArray (freshPair (List.length h0)) (List.length h0))
                      (List.length h0))
                   (List.length h0) (Js.arrayMap (Js.arrayMap Js.flipped)) (map (map flip))).
    { apply arrayMap_builds.
      - apply isArray_stable, isCoord_stable.
      - apply freshArray_stable, freshPair_stable.
      - apply arrayMap_builds;
          [apply isCoord_stable | apply freshPair_stable | apply flipped_builds]. }
    destruct (Hb h _ rs (keeps_length Hk) Hll) as (w & t & Hw & Hf).
    unfold Js.bind at 1. rewrite Hw.
    assert (Hk1 : keeps h0 (h ++ t)) by (eapply keeps_trans; [exact Hk | apply keeps_app]).
    assert (Hread : Js.arrayOf (Js.arrayOf Js.positionOf) (h ++ t) w
                    = Some (map (map flip) rs)).
    { eapply arrayOf_fresh; [|exact Hf]. intros v a Ha.
      eapply arrayOf_fresh; [|exact Ha]. intros v' a' Ha'.
      eapply positionOf_fresh; exact Ha'. }
    assert (Hy : young (List.length h0) (h ++ t) w).
    { eapply young_freshArray; [|exact Hf]. intros v a Ha.
      eapply young_freshArray; [|exact Ha]. intros v' a' Ha'.
      eapply young_freshPair; exact Ha'. }
    destruct (@construct_fresh _ (Js.arrayOf (Js.arrayOf Js.positionOf)) Turf.polygon
                h0 (h ++ t) w _ Hk1 Hread Hy) as (h2 & Hc & Hk2).
    unfold Js.bind at 1. unfold Js.polygon. rewrite Hc. unfold rbind.
    destruct (Turf.polygon _) as [g|e]; [|split; [reflexivity | exact Hk2]].
    unfold Js.booleanIntersects. split; [reflexivity | exact Hk2].
  - destruct Hll as (l' & fs & -> & Hl' & _).
    unfold Js.bind at 1. unfold Js.arrayMap, Js.bind, Js.elements. rewrite Hl'.
    split; [reflexivity | exact Hk].
Qed.

Lemma anyOf_reports h0 line vs reports : forall h,
  keeps h0 h -> Forall2 (Js.isReport h0) vs reports ->
  follows h0 h (checkReports line reports)
    (Js.anyOf (Js.reportHits meddle (Js.Feature line)) vs h).
Proof.
  intros h Hk Hall. revert h Hk.
  induction Hall as [|v report vs reports Hv _ IH]; intros h Hk.
  - split; [reflexivity | exact Hk].
  - cbn [Js.anyOf]. unfold Js.bind.
    destruct (@reportHits_follows h0 h line v report Hk Hv) as (Hr & Hk1).
    destruct (Js.reportHits _ _ _ _) as [r h1]. cbn [fst snd] in *. subst r.
    rewrite checkReports_scan. cbn [map scan]. rewrite <- checkReports_scan.
    destruct (hazardTest line (HazardReport report)) as [[]|e]; cbn [orElse].
    + split; [reflexivity | exact Hk1].
    + apply IH. exact Hk1.
    + split; [reflexivity | exact Hk1].
Qed.

Lemma anyOf_items h0 line vs drawn : forall h,
  keeps h0 h -> Forall2 (Js.isItem h0) vs drawn ->
  follows h0 h (checkDrawn line drawn)
    (Js.anyOf (Js.itemHits meddle (Js.Feature line)) vs h).
Proof.
  intros h Hk Hall. revert h Hk.
  induction Hall as [|v item vs drawn Hv _ IH]; intros h Hk.
  - split; [reflexivity | exact Hk].
  - cbn [Js.anyOf]. unfold Js.bind.
    destruct (@itemHits_follows h0 h line v item Hk Hv) as (Hr & Hk1).
    destruct (Js.itemHits _ _ _ _) as [r h1]. cbn [fst snd] in *. subst r.
    rewrite checkDrawn_scan. cbn [filter]. destruct (isArea item).
    + cbn [map scan]. rewrite <- checkDrawn_scan.
      destruct (hazardTest line (HazardArea item)) as [[]|e]; cbn [orElse].
      * split; [reflexivity | exact Hk1].
      * apply IH. exact Hk1.
      * split; [reflexivity | exact Hk1].
    + rewrite <- checkDrawn_scan. apply IH. exact Hk1.
Qed.

(** The check on objects returns what the check on the values they hold
    returns, and keeps every object that was in the store. *)
Lemma check_follows h routeCoords reports drawn routeV reportsV drawnV :
  Js.isArray Js.isCoord h routeV routeCoords ->
  Js.isArray Js.isReport h reportsV reports ->
  Js.isArray Js.isItem h drawnV drawn ->
  follows h h (checkRouteForFloods routeCoords reports drawn)
    (Js.checkRouteForFloods meddle routeV reportsV drawnV h).
Proof.
  intros Hroute (lr & rs & -> & Hlr & Hrs) (ld & ds & -> & Hld & Hds).
  unfold Js.checkRouteForFloods, checkRouteForFloods.
  assert (Hb : builds (Js.isArray Js.isCoord)
                 (freshArray (freshPair (List.length h)) (List.length h))
                 (List.length h) (Js.arrayMap Js.flipped) (map flip)).
  { apply arrayMap_builds;
      [apply isCoord_stable | apply freshPair_stable | apply flipped_builds]. }
  destruct (Hb h routeV routeCoords (le_n _) Hroute) as (w & t & Hw & Hf).
  unfold Js.bind at 1. rewrite Hw.
  assert (Hk1 : keeps h (h ++ t)) by apply keeps_app.
  assert (Hread : Js.arrayOf Js.positionOf (h ++ t) w = Some (map flip routeCoords)).
  { eapply arrayOf_fresh; [|exact Hf]. intros v a Ha. eapply positionOf_fresh; exact Ha. }
  assert (Hy : young (List.length h) (h ++ t) w).
  { eapply young_freshArray; [|exact Hf]. intros v a Ha. eapply young_freshPair; exact Ha. }
  destruct (@construct_fresh _ (Js.arrayOf Js.positionOf) Turf.lineString
              h (h ++ t) w _ Hk1 Hread Hy) as (h2 & Hc & Hk2).
  unfold Js.bind at 1. unfold Js.lineString. rewrite Hc. unfold rbind at 1.
  destruct (Turf.lineString _) as [line|e]; [|split; [reflexivity | exact Hk2]].
  unfold Js.bind at 1. unfold Js.forOf at 1. unfold Js.bind at 1.
  unfold Js.elements at 1. rewrite (Hk2 _ _ Hlr).
  destruct (@anyOf_reports h line rs reports h2 Hk2 Hrs) as (Hr & Hk3).
  destruct (Js.anyOf _ rs h2) as [r h3]. cbn [fst snd] in *. subst r.
  unfold rbind.
  destruct (checkReports line reports) as [[]|e]; try (split; [reflexivity | exact Hk3]).
  unfold Js.forOf, Js.bind, Js.elements. rewrite (Hk3 _ _ Hld).
  apply anyOf_items; assumption.
Qed.

End JsFacts.

(** C7.  [checkRouteForFloods] on the objects of the program.  In every
    store, called on references to a route, to reports and to drawn items, it
    returns what the check returns on the coordinates, reports and items that
    these objects hold; so two calls whose arguments hold the same values end
    alike, wherever the objects lie and whatever else the stores contain.
    And every object that was in the store before a call is in it, unchanged,
    after the call, whatever the library does to the arrays it is handed: the
    route, the reports, the drawn items and every other object of the program
    are left as they were. *)
Theorem check_is_pure
    (meddle meddle' : Js.heap -> nat -> Js.object -> Js.object)
    (h h' : Js.heap) (routeV reportsV drawnV routeV' reportsV' drawnV' : Js.value)
    (routeCoords : list coord) (reports : list Report.t) (drawn : list Drawn.t)
    {K : TurfKernel} :
  Js.isArray Js.isCoord h routeV routeCoords ->
  Js.isArray Js.isReport h reportsV reports ->
  Js.isArray Js.isItem h drawnV drawn ->
  Js.isArray Js.isCoord h' routeV' routeCoords ->
  Js.isArray Js.isReport h' reportsV' reports ->
  Js.isArray Js.isItem h' drawnV' drawn ->
  let run := Js.checkRouteForFloods meddle routeV reportsV drawnV h in
  let run' := Js.checkRouteForFloods meddle' routeV' reportsV' drawnV' h' in
  fst run = fst run' /\
  fst run = checkRouteForFloods routeCoords reports drawn /\
  (forall l o, nth_error h l = Some o -> nth_error (snd run) l = Some o) /\
  (forall l o, nth_error h' l = Some o -> nth_error (snd run') l = Some o) /\
  Js.isArray Js.isCoord (snd run) routeV routeCoords /\
  Js.isArray Js.isReport (snd run) reportsV reports /\
  Js.isArray Js.isItem (snd run) drawnV drawn.
Proof.
  intros H1 H2 H3 H1' H2' H3' run run'.
  destruct (check_follows meddle H1 H2 H3) as (Hr & Hk).
  destruct (check_follows meddle' H1' H2' H3') as (Hr' & Hk').
  fold run in Hr, Hk. fold run' in Hr', Hk'.
  split; [congruence|]. split; [exact Hr|]. split; [exact Hk|]. split; [exact Hk'|].
  split; [|split].
  - exact (isArray_stable isCoord_stable Hk H1).
  - exact (isArray_stable isReport_stable Hk H2).
  - exact (isArray_stable isItem_stable Hk H3).
Qed.

(** * The theorems at the sample data *)
Section Instances.
Local Existing Instance Planar.kernel.
Local Open Scope float_scope.

Lemma sample_primaryRoute reports drawn :
  primaryRoute Sample.net (Sample.world reports drawn) =
    Some (Sample.startCoords, Sample.endCoords, Sample.routeCoords).
Proof. reflexivity. Qed.

Lemma sample_primaryRoute_leg_down reports drawn :
  primaryRoute Sample.netLegDown (Sample.world reports drawn) =
    Some (Sample.startCoords, Sample.endCoords, Sample.routeCoords).
Proof. reflexivity. Qed.

Lemma sample_selection :
  findClosestFloodZone Sample.startCoords [Sample.onRoute] [] =
    Ok (Some Sample.zone, Sample.zoneDistance).
Proof. vm_compute. reflexivity. Qed.

Lemma sample_bypass : bypassWaypoint Sample.routeCoords Sample.zone = Ok Sample.bypass.
Proof. vm_compute. reflexivity. Qed.

Lemma sample_blocked :
  checkRouteForFloods Sample.routeCoords [Sample.onRoute] [] = Ok true.
Proof. vm_compute. reflexivity. Qed.

Lemma sliver_degenerate : degenerate Sample.sliver.
Proof.
  split; [reflexivity|]. eexists. split; [reflexivity|].
  constructor. cbn. repeat constructor.
Defined.

(** A two-point area stops the check in every kernel. *)
Lemma sliver_stops_every_kernel (K : TurfKernel) (rest : list Drawn.t) :
  checkRouteForFloods Sample.routeCoords [] (Sample.sliver :: rest) = Throw RingTooShort.
Proof. reflexivity. Qed.

(** The three scenarios of the specification.  The rectangle of the third
    one, four corners without the first repeated, is refused by the polygon
    constructor in every kernel; with its ring closed it is found. *)
Example scenario_report_on_route :
  checkRouteForFloods Sample.routeCoords [Sample.onRoute] [] = Ok true.
Proof. vm_compute. reflexivity. Qed.

Example scenario_report_far_away :
  checkRouteForFloods Sample.routeCoords [Sample.farAway] [] = Ok false.
Proof. vm_compute. reflexivity. Qed.

Example scenario_open_rectangle (K : TurfKernel) :
  checkRouteForFloods Sample.routeCoords [] [Sample.openRectangle] = Throw RingNotClosed.
Proof. reflexivity. Qed.

Example scenario_closed_rectangle :
  checkRouteForFloods Sample.routeCoords [] [Sample.closedRectangle] = Ok true.
Proof. vm_compute. reflexivity. Qed.

(** C1, the claim as it is written: an area intersects the route, and the
    check returns true or throws depending on where a degenerate area stands
    in the list of drawn items. *)
Lemma order_of_drawn_items_matters :
  (exists g, effectiveGeometry (HazardArea Sample.closedRectangle) = Ok g /\
             booleanIntersects (LineString (map flip Sample.routeCoords)) g = Ok true) /\
  checkRouteForFloods Sample.routeCoords [] [Sample.sliver; Sample.closedRectangle]
    = Throw RingTooShort /\
  checkRouteForFloods Sample.routeCoords [] [Sample.closedRectangle; Sample.sliver]
    = Ok true.
Proof.
  split; [|split].
  - eexists. split; [reflexivity|]. vm_compute. reflexivity.
  - reflexivity.
  - vm_compute. reflexivity.
Qed.

Lemma check_on_sample_hazards :
  (2 <= List.length Sample.routeCoords)%nat /\
  Forall (testable (LineString (map flip Sample.routeCoords)))
    (hazardSet [Sample.farAway; Sample.onRoute] [Sample.marker; Sample.farRectangle]) /\
  (exists h g,
     In h (hazardSet [Sample.farAway; Sample.onRoute] [Sample.marker; Sample.farRectangle]) /\
     effectiveGeometry h = Ok g /\
     booleanIntersects (LineString (map flip Sample.routeCoords)) g = Ok true) /\
  checkRouteForFloods Sample.routeCoords [Sample.onRoute; Sample.farAway]
    [Sample.farRectangle; Sample.marker] = Ok true.
Proof.
  assert (Hlen : (2 <= List.length Sample.routeCoords)%nat) by (cbn; constructor).
  assert (Hall : Forall (testable (LineString (map flip Sample.routeCoords)))
                   (hazardSet [Sample.farAway; Sample.onRoute]
                      [Sample.marker; Sample.farRectangle]))
    by (repeat constructor; eexists; vm_compute; reflexivity).
  destruct (check_true_iff_some_hazard_intersects Sample.routeCoords
              [Sample.farAway; Sample.onRoute] [Sample.marker; Sample.farRectangle]
              Hlen Hall)
    as (Hiff & _ & _ & Hperm & _).
  assert (Hc : checkRouteForFloods Sample.routeCoords [Sample.farAway; Sample.onRoute]
                 [Sample.marker; Sample.farRectangle] = Ok true)
    by (vm_compute; reflexivity).
  split; [exact Hlen|]. split; [exact Hall|]. split.
  - apply Hiff. exact Hc.
  - rewrite (Hperm [Sample.onRoute; Sample.farAway] [Sample.farRectangle; Sample.marker]).
    + exact Hc.
    + apply perm_swap.
    + apply perm_swap.
Defined.

(** C2, the claim as it is written: the closed rectangle alone is found, but
    behind a two-point area the check throws, and [getRoute] ends in its
    [catch] block with the warning off. *)
Lemma degenerate_area_aborts_the_check :
  checkRouteForFloods Sample.routeCoords [] [Sample.closedRectangle] = Ok true /\
  checkRouteForFloods Sample.routeCoords [] [Sample.sliver; Sample.closedRectangle]
    = Throw RingTooShort /\
  showWarning (exec (getRoute Sample.net)
                 (Sample.world [] [Sample.sliver; Sample.closedRectangle])) = false /\
  alerts (exec (getRoute Sample.net)
            (Sample.world [] [Sample.sliver; Sample.closedRectangle]))
    = ["An error occurred while getting the route."%string].
Proof. repeat split; vm_compute; reflexivity. Qed.

Lemma sliver_between_other_items :
  degenerate Sample.sliver /\
  checkRouteForFloods Sample.routeCoords [Sample.farAway]
    ([Sample.marker] ++ Sample.sliver :: [Sample.closedRectangle]) = Throw RingTooShort.
Proof.
  split; [exact sliver_degenerate|].
  destruct (degenerate_area_stops_the_check Sample.routeCoords [Sample.farAway]
              [Sample.marker] [Sample.closedRectangle] sliver_degenerate)
    as (e & He & Hc).
  rewrite Hc. injection He as <-. vm_compute. reflexivity.
Defined.

Lemma leg_down_keeps_the_warning :
  primaryRoute Sample.netLegDown (Sample.world [Sample.onRoute] []) =
    Some (Sample.startCoords, Sample.endCoords, Sample.routeCoords) /\
  legCandidate (osrm Sample.netLegDown Sample.bypass (lngLat Sample.endCoords)) = None /\
  showWarning (exec (getRoute Sample.netLegDown) (Sample.world [Sample.onRoute] [])) = true /\
  altRoute (exec (getRoute Sample.netLegDown) (Sample.world [Sample.onRoute] [])) = None.
Proof.
  assert (Hp : primaryRoute Sample.netLegDown (Sample.world [Sample.onRoute] []) =
               Some (Sample.startCoords, Sample.endCoords, Sample.routeCoords))
    by apply sample_primaryRoute_leg_down.
  destruct (detour_needs_both_legs Sample.netLegDown (Sample.world [Sample.onRoute] [])
              Hp sample_blocked) as (Hflag & Halt & _).
  split; [exact Hp|]. split; [vm_compute; reflexivity|]. split; [exact Hflag|].
  rewrite (Halt _ _ _ sample_selection sample_bypass). vm_compute. reflexivity.
Defined.

Lemma report_before_far_rectangle :
  Turf.point (lngLat Sample.startCoords) = Ok (Point (78.40, 17.30)) /\
  candidates (Point (78.40, 17.30)) [Sample.onRoute] [Sample.farRectangle]
    = Ok [(Sample.zone, Sample.zoneDistance); Sample.farRectangleCandidate] /\
  exists sel,
    findClosestFloodZone Sample.startCoords [Sample.onRoute] [Sample.farRectangle] = Ok sel /\
    fst sel = Some (ZonePoint (Point (78.45, 17.35))).
Proof.
  assert (Hsp : Turf.point (lngLat Sample.startCoords) = Ok (Point (78.40, 17.30)))
    by reflexivity.
  assert (Hcs : candidates (Point (78.40, 17.30)) [Sample.onRoute] [Sample.farRectangle]
                = Ok [(Sample.zone, Sample.zoneDistance); Sample.farRectangleCandidate])
    by (vm_compute; reflexivity).
  split; [exact Hsp|]. split; [exact Hcs|].
  destruct (nearest_buildable_hazard_is_selected Sample.net Sample.startCoords
              Sample.endCoords Sample.routeCoords [Sample.onRoute] [Sample.farRectangle]
              (Sample.world [] []) Hsp Hcs)
    as (sel & Hsel & _ & _ & Hsingle & _).
  exists sel. split; [exact Hsel|].
  apply (Hsingle Sample.onRoute (Sample.zone, Sample.zoneDistance)
           [Sample.farRectangleCandidate]); try reflexivity.
  intros a [<-|[]]. reflexivity.
Defined.

Lemma sample_ring_selection :
  findClosestFloodZone Sample.startCoords [] [Sample.closedRectangle] =
    Ok (Some (ZoneRing Sample.rectangleRing), Sample.rectangleDistance).
Proof. vm_compute. reflexivity. Qed.

Lemma sample_blocked_by_rectangle :
  checkRouteForFloods Sample.routeCoords [] [Sample.closedRectangle] = Ok true.
Proof. vm_compute. reflexivity. Qed.

(** C5 at the sample data: a report on the route leads to two legs through
    the offset anchor; a rectangle across the route, selected as the zone,
    leads to no leg at all. *)
Lemma rectangle_zone_has_no_waypoint :
  requests (exec (getRoute Sample.net) (Sample.world [Sample.onRoute] [])) =
    [Search "A"; Search "B"; Driving (78.40, 17.30) (78.50, 17.40);
     Driving (78.40, 17.30) (78.45 + 0.01, 17.35 + 0.01);
     Driving (78.45 + 0.01, 17.35 + 0.01) (78.50, 17.40)] /\
  requests (exec (getRoute Sample.net) (Sample.world [] [Sample.closedRectangle])) =
    [Search "A"; Search "B"; Driving (78.40, 17.30) (78.50, 17.40)] /\
  altRoute (exec (getRoute Sample.net) (Sample.world [] [Sample.closedRectangle])) = None /\
  showWarning (exec (getRoute Sample.net) (Sample.world [] [Sample.closedRectangle])) = true /\
  alerts (exec (getRoute Sample.net) (Sample.world [] [Sample.closedRectangle])) =
    ["An error occurred while getting the route."%string].
Proof.
  destruct (bypass_waypoint_only_for_report_zones Sample.net
              (Sample.world [Sample.onRoute] [])
              (sample_primaryRoute [Sample.onRoute] [])
              sample_blocked sample_selection) as (Hpoint & _).
  destruct (bypass_waypoint_only_for_report_zones Sample.net
              (Sample.world [] [Sample.closedRectangle])
              (sample_primaryRoute [] [Sample.closedRectangle])
              sample_blocked_by_rectangle sample_ring_selection) as (_ & Hring).
  destruct (Hring Sample.rectangleRing eq_refl) as (_ & Hr & Ha & Hw & Hal & _).
  split; [|split; [exact Hr | split; [exact Ha | split; [exact Hw | exact Hal]]]].
  rewrite (Hpoint (78.45, 17.35) (78.45, 17.35) eq_refl); [reflexivity|].
  vm_compute. reflexivity.
Defined.

Lemma sample_legs_are_concatenated :
  altRoute (exec (detour Sample.net Sample.startCoords Sample.endCoords
                    Sample.routeCoords Sample.zone) (Sample.world [Sample.onRoute] []))
    = Some [(17.30, 78.40); (17.36, 78.43); (17.36, 78.46);
            (17.36, 78.46); (17.35, 78.45); (17.40, 78.50)].
Proof.
  destruct (alternate_route_is_leg_concatenation Sample.net Sample.startCoords
              Sample.endCoords Sample.routeCoords Sample.zone
              (data1 := {| routes := Some [Sample.legA] |})
              (data2 := {| routes := Some [Sample.legB] |})
              (Sample.world [Sample.onRoute] [])
              sample_bypass eq_refl eq_refl eq_refl eq_refl)
    as (alt & Halt & Hlen & HA & HB).
  rewrite Halt. f_equal.
  pose proof (HA 0%nat _ _ eq_refl) as A0. pose proof (HA 1%nat _ _ eq_refl) as A1.
  pose proof (HA 2%nat _ _ eq_refl) as A2.
  pose proof (HB 0%nat _ _ eq_refl) as B0. pose proof (HB 1%nat _ _ eq_refl) as B1.
  pose proof (HB 2%nat _ _ eq_refl) as B2.
  cbn [Sample.legA Sample.legB coordinates List.length Nat.add] in *.
  destruct alt as [|a0 [|a1 [|a2 [|a3 [|a4 [|a5 [|a6 rest]]]]]]]; try discriminate Hlen.
  cbn [nth_error] in *.
  injection A0 as ->. injection A1 as ->. injection A2 as ->.
  injection B0 as ->. injection B1 as ->. injection B2 as ->.
  reflexivity.
Defined.

(** [onRoute] reported as a low-severity hazard. *)
Definition onRouteLow : Report.t :=
  {| Report.id := 1; Report.lat := 17.35; Report.lng := 78.45; Report.severity := "Low" |}.

Lemma severity_of_sample_report :
  Forall2 sameButSeverity [Sample.onRoute] [onRouteLow] /\
  checkRouteForFloods Sample.routeCoords [Sample.onRoute] [Sample.farRectangle] =
    checkRouteForFloods Sample.routeCoords [onRouteLow] [Sample.farRectangle] /\
  findClosestFloodZone Sample.startCoords [Sample.onRoute] [Sample.farRectangle] =
    findClosestFloodZone Sample.startCoords [onRouteLow] [Sample.farRectangle].
Proof.
  assert (H : Forall2 sameButSeverity [Sample.onRoute] [onRouteLow])
    by (repeat constructor).
  destruct (severity_does_not_interfere Sample.net Sample.startCoords Sample.endCoords
              Sample.routeCoords [Sample.farRectangle] (Sample.world [] []) H)
    as (_ & Hc & Hs & _).
  split; [exact H|]. split; [exact Hc | exact Hs].
Defined.

Lemma marker_is_ignored :
  filter isArea [Sample.marker; Sample.closedRectangle] = filter isArea [Sample.closedRectangle] /\
  checkRouteForFloods Sample.routeCoords [] [Sample.marker; Sample.closedRectangle] =
    checkRouteForFloods Sample.routeCoords [] [Sample.closedRectangle] /\
  findClosestFloodZone Sample.startCoords [] [Sample.marker; Sample.closedRectangle] =
    findClosestFloodZone Sample.startCoords [] [Sample.closedRectangle].
Proof.
  assert (H : filter isArea [Sample.marker; Sample.closedRectangle]
              = filter isArea [Sample.closedRectangle]) by reflexivity.
  destruct (other_shapes_are_ignored Sample.net Sample.startCoords Sample.endCoords
              Sample.routeCoords [] [Sample.marker; Sample.closedRectangle]
              [Sample.closedRectangle] (Sample.world [] []) H) as (Hc & Hs & _).
  split; [exact H|]. split; [exact Hc | exact Hs].
Defined.

Lemma blocked_alternate_is_surfaced :
  checkRouteForFloods (combinedRouteCoordinates Sample.legA Sample.legB) [Sample.onRoute] []
    = Ok true /\
  altRoute (exec (getRoute Sample.net) (Sample.world [Sample.onRoute] [])) =
    Some (combinedRouteCoordinates Sample.legA Sample.legB).
Proof.
  assert (Hm : checkRouteForFloods (combinedRouteCoordinates Sample.legA Sample.legB)
                 [Sample.onRoute] [] = Ok true) by (vm_compute; reflexivity).
  split; [exact Hm|].
  apply (alternate_route_is_not_rechecked Sample.net (Sample.world [Sample.onRoute] [])
           (sample_primaryRoute [Sample.onRoute] [])
           sample_blocked sample_selection sample_bypass
           (leg1 := Sample.legA) (leg2 := Sample.legB) eq_refl eq_refl Hm).
Defined.

End Instances.

(** * The check on two stores *)

(** A store with the sample route, the report on it and a marker, and the
    same values in a store laid out otherwise. *)
Module Store.
Local Open Scope float_scope.

Definition heap : Js.heap :=
  [ Js.Arr [Js.Num 17.30; Js.Num 78.40];
    Js.Arr [Js.Num 17.40; Js.Num 78.50];
    Js.Arr [Js.Ref 0; Js.Ref 1];
    Js.Obj [("id"%string, Js.Num 1); ("lat"%string, Js.Num 17.35);
            ("lng"%string, Js.Num 78.45); ("severity"%string, Js.Str "High")];
    Js.Arr [Js.Ref 3];
    Js.Obj [("lat"%string, Js.Num 17.35); ("lng"%string, Js.Num 78.45)];
    Js.Obj [("id"%string, Js.Num 6); ("type"%string, Js.Str "Marker");
            ("latlngs"%string, Js.Ref 5); ("color"%string, Js.Str "red")];
    Js.Arr [Js.Ref 6] ].

Definition elsewhere : Js.heap :=
  [ Js.Obj [("lng"%string, Js.Num 78.45); ("lat"%string, Js.Num 17.35);
            ("severity"%string, Js.Str "High")];
    Js.Arr [Js.Ref 0];
    Js.Obj [("lat"%string, Js.Num 17.35); ("lng"%string, Js.Num 78.45)];
    Js.Obj [("color"%string, Js.Str "red"); ("latlngs"%string, Js.Ref 2);
            ("type"%string, Js.Str "Marker")];
    Js.Arr [Js.Ref 3];
    Js.Arr [Js.Num 17.40; Js.Num 78.50];
    Js.Arr [Js.Num 17.30; Js.Num 78.40];
    Js.Arr [Js.Ref 6; Js.Ref 5];
    Js.Arr [Js.Ref 7; Js.Ref 1; Js.Ref 4] ].

(** A library that empties every array it is handed. *)
Definition emptying (h : Js.heap) (l : nat) (o : Js.object) : Js.object := Js.Arr [].

(** A library that leaves what it is handed as it is. *)
Definition idle (h : Js.heap) (l : nat) (o : Js.object) : Js.object := o.

End Store.

Section JsInstances.
Local Existing Instance Planar.kernel.
Local Open Scope float_scope.

Lemma check_on_two_stores :
  fst (Js.checkRouteForFloods Store.idle (Js.Ref 2) (Js.Ref 4) (Js.Ref 7) Store.heap)
    = Ok true /\
  fst (Js.checkRouteForFloods Store.emptying (Js.Ref 7) (Js.Ref 1) (Js.Ref 4) Store.elsewhere)
    = Ok true /\
  nth_error (snd (Js.checkRouteForFloods Store.emptying (Js.Ref 7) (Js.Ref 1) (Js.Ref 4)
                    Store.elsewhere)) 7 = Some (Js.Arr [Js.Ref 6; Js.Ref 5]) /\
  nth_error (snd (Js.checkRouteForFloods Store.emptying (Js.Ref 7) (Js.Ref 1) (Js.Ref 4)
                    Store.elsewhere)) 6 = Some (Js.Arr [Js.Num 17.30; Js.Num 78.40]) /\
  nth_error (snd (Js.checkRouteForFloods Store.emptying (Js.Ref 7) (Js.Ref 1) (Js.Ref 4)
                    Store.elsewhere)) 0 =
    Some (Js.Obj [("lng"%string, Js.Num 78.45); ("lat"%string, Js.Num 17.35);
                  ("severity"%string, Js.Str "High")]).
Proof.
  assert (H1 : Js.isArray Js.isCoord Store.heap (Js.Ref 2) Sample.routeCoords).
  { exists 2%nat, [Js.Ref 0; Js.Ref 1]. repeat split.
    repeat constructor; eexists; split; reflexivity. }
  assert (H2 : Js.isArray Js.isReport Store.heap (Js.Ref 4) [Sample.onRoute]).
  { exists 4%nat, [Js.Ref 3]. repeat split.
    repeat constructor. eexists _, _. repeat split; reflexivity. }
  assert (H3 : Js.isArray Js.isItem Store.heap (Js.Ref 7) [Sample.marker]).
  { exists 7%nat, [Js.Ref 6]. repeat split.
    repeat constructor. eexists _, _. split; [reflexivity|]. split; [reflexivity|].
    split; [reflexivity|]. split; [reflexivity|].
    eexists _, _. repeat split; reflexivity. }
  assert (H1' : Js.isArray Js.isCoord Store.elsewhere (Js.Ref 7) Sample.routeCoords).
  { exists 7%nat, [Js.Ref 6; Js.Ref 5]. repeat split.
    repeat constructor; eexists; split; reflexivity. }
  assert (H2' : Js.isArray Js.isReport Store.elsewhere (Js.Ref 1) [Sample.onRoute]).
  { exists 1%nat, [Js.Ref 0]. repeat split.
    repeat constructor. eexists _, _. repeat split; reflexivity. }
  assert (H3' : Js.isArray Js.isItem Store.elsewhere (Js.Ref 4) [Sample.marker]).
  { exists 4%nat, [Js.Ref 3]. repeat split.
    repeat constructor. eexists _, _. split; [reflexivity|]. split; [reflexivity|].
    split; [reflexivity|]. split; [reflexivity|].
    eexists _, _. repeat split; reflexivity. }
  destruct (check_is_pure Store.idle Store.emptying H1 H2 H3 H1' H2' H3')
    as (Hsame & Hvalue & _ & Hkept & _).
  assert (Hc : checkRouteForFloods Sample.routeCoords [Sample.onRoute] [Sample.marker]
               = Ok true) by (vm_compute; reflexivity).
  split; [rewrite Hvalue; exact Hc|].
  split; [rewrite <- Hsame, Hvalue; exact Hc|].
  split; [|split]; apply Hkept; reflexivity.
Defined.

End JsInstances.

(** * The selection with distances on the sphere *)
Section SphericalInstances.
Local Existing Instance Spherical.kernel.
Local Open Scope float_scope.

(** C4, the claim as it is written, at three non-empty hazard sets on a
    blocked route.  With a two-point area behind the report that blocks the
    route, the search ends with the exception of the polygon constructor and
    no leg is requested.  With a report 9.98 degrees north of a start at 60
    degrees north and a report on the route twenty degrees east of it, the
    northern report is the nearer one in the plane, however longitudes are
    scaled, and the report on the route is the one selected, being the nearer
    one on the sphere.  With a start whose latitude is [Infinity] no distance
    is a number below [Infinity], nothing is selected and the run ends
    without alternate route and without any message. *)
Lemma selection_departs_from_the_planar_minimum :
  (checkRouteForFloods Sample.routeCoords [Sample.onRoute] [Sample.sliver] = Ok true /\
   findClosestFloodZone Sample.startCoords [Sample.onRoute] [Sample.sliver]
     = Throw RingTooShort /\
   requests (exec (getRoute Sample.net) (Sample.world [Sample.onRoute] [Sample.sliver]))
     = [Search "A"; Search "B"; Driving (78.40, 17.30) (78.50, 17.40)] /\
   altRoute (exec (getRoute Sample.net) (Sample.world [Sample.onRoute] [Sample.sliver]))
     = None) /\
  (checkRouteForFloods North.routeCoords [North.north; North.east] [] = Ok true /\
   (Plane.degrees (0, 60) (0, 69.98) <? Plane.degrees (0, 60) (20, 60)) = true /\
   (Plane.projected (0, 60) (0, 69.98) <? Plane.projected (0, 60) (20, 60)) = true /\
   (North.eastDistance <? North.northDistance) = true /\
   findClosestFloodZone North.startCoords [North.north; North.east] []
     = Ok (Some (ZonePoint (Point (20, 60))), North.eastDistance)) /\
  (checkRouteForFloods Sample.routeCoords [Sample.onRoute] [] = Ok true /\
   findClosestFloodZone {| LatLng.lat := infinity; LatLng.lng := 78.40 |} [Sample.onRoute] []
     = Ok (None, infinity) /\
   showWarning (exec (getRoute North.netUnbounded) (Sample.world [Sample.onRoute] []))
     = true /\
   altRoute (exec (getRoute North.netUnbounded) (Sample.world [Sample.onRoute] []))
     = None /\
   alerts (exec (getRoute North.netUnbounded) (Sample.world [Sample.onRoute] []))
     = [] /\
   requests (exec (getRoute North.netUnbounded) (Sample.world [Sample.onRoute] []))
     = [Search "A"; Search "B"; Driving (78.40, infinity) (78.50, 17.40)]).
Proof. repeat split; vm_compute; reflexivity. Qed.

End SphericalInstances.

(** * The rest of the component *)

(** ** The hazard events, the marker colours and the map view *)

(** [setFloodReports(prevReports => [...prevReports, newReport])] in
    [window.reportSeverity]; [now] is the value of [Date.now()].  The removal
    of the popup elements touches the page only and is left out. *)
Definition reportSeverity (now : Z) (severity : string) (lat lng : float) : M unit :=
  modify (fun w =>
    {| start := start w;
       end_ := end_ w;
       route := route w;
       altRoute := altRoute w;
       startPoint := startPoint w;
       endPoint := endPoint w;
       floodReports :=
         floodReports w ++
         [{| Report.id := now; Report.lat := lat; Report.lng := lng;
             Report.severity := severity |}];
       drawnItems := drawnItems w;
       showWarning := showWarning w;
       alerts := alerts w;
       consoleErrors := consoleErrors w;
       requests := requests w |}).

(** What a [pm:create] event carries: [e.shape], and the value of
    [e.layer.getLatLngs ? e.layer.getLatLngs() : e.layer.getLatLng()]. *)
Record created : Type := { shape : string; layerLatLngs : latlngs }.

(** The [pm:create] handler of [MapGeoman]. *)
Definition onCreate (now : Z) (e : created) : M unit :=
  modify (fun w =>
    {| start := start w;
       end_ := end_ w;
       route := route w;
       altRoute := altRoute w;
       startPoint := startPoint w;
       endPoint := endPoint w;
       floodReports := floodReports w;
       drawnItems :=
         drawnItems w ++
         [{| Drawn.id := now; Drawn.type := shape e;
             Drawn.latlngs := layerLatLngs e; Drawn.color := "red" |}];
       showWarning := showWarning w;
       alerts := alerts w;
       consoleErrors := consoleErrors w;
       requests := requests w |}).

(** The [switch] of [getMarkerIcon]. *)
Definition markerColor (severity : string) : string :=
  if (severity =? "Low")%string then "green"
  else if (severity =? "Medium")%string then "orange"
  else if (severity =? "High")%string then "red"
  else "blue".

Record icon : Type := {
  iconUrl : string;
  shadowUrl : string;
  iconSize : Z * Z;
  iconAnchor : Z * Z;
  popupAnchor : Z * Z;
  shadowSize : Z * Z
}.

Definition getMarkerIcon (severity : string) : icon :=
  {| iconUrl :=
       "https://raw.githubusercontent.com/pointhi/leaflet-color-markers/master/img/marker-icon-2x-"
       ++ markerColor severity ++ ".png";
     shadowUrl := "https://cdnjs.cloudflare.com/ajax/libs/leaflet/1.7.1/images/marker-shadow.png";
     iconSize := (25, 41)%Z;
     iconAnchor := (12, 41)%Z;
     popupAnchor := (1, -34)%Z;
     shadowSize := (41, 41)%Z |}.


(** [route || altRoute], the argument of [MapUpdater]: an array, empty or
    not, is truthy. *)
Definition mapUpdaterCoordinates (w : World) : option (list coord) :=
  match route w with
  | Some routeCoordinates => Some routeCoordinates
  | None => altRoute w
  end.

(** [MapUpdater]: the coordinates whose bounds the map flies to, if any
    ([routeCoordinates && routeCoordinates.length > 0]). *)
Definition flyTarget (routeCoordinates : option (list coord)) : option (list coord) :=
  match routeCoordinates with
  | Some (c :: cs) => Some (c :: cs)
  | _ => None
  end.

(** The colour of the primary route's polyline. *)
Definition routeColor (w : World) : string :=
  if showWarning w then "red" else "blue".

(** ** Every run of [geocodeAddress] and of [getRoute] *)
Section Runs.
Context {K : TurfKernel}.
Variable net : Net.
Local Open Scope app_scope.

(** Did the search service answer with a body that parses? *)
Definition answered (address : string) : bool :=
  match nominatim net address with
  | Json _ => true
  | _ => false
  end.

(** The world after one call of [geocodeAddress]. *)
Definition searched (address : string) (w : World) : World :=
  {| start := start w; end_ := end_ w;
     route := route w; altRoute := altRoute w;
     startPoint := startPoint w; endPoint := endPoint w;
     floodReports := floodReports w; drawnItems := drawnItems w;
     showWarning := showWarning w;
     alerts := alerts w;
     consoleErrors :=
       if answered address then consoleErrors w
       else consoleErrors w ++ ["Error geocoding address:"%string];
     requests := requests w ++ [Search address] |}.

Lemma geocodeAddress_run address w :
  geocodeAddress net address w = (Ok (geocoded net address), searched address w).
Proof.
  unfold geocodeAddress, geocoded, searched, answered, tryCatch, bind, liftR, send,
    consoleError, modify, ret, parsed.
  cbn. destruct (nominatim net address) as [| |[|hit rest]]; reflexivity.
Qed.

(** The world after the five setters at the head of [getRoute]. *)
Definition resetWorld (w : World) : World :=
  {| start := start w; end_ := end_ w;
     route := None; altRoute := None;
     startPoint := None; endPoint := None;
     floodReports := floodReports w; drawnItems := drawnItems w;
     showWarning := false;
     alerts := alerts w; consoleErrors := consoleErrors w;
     requests := requests w |}.

Lemma reset_run {A : Type} (k : M A) w :
  (setRoute None ;; setAltRoute None ;; setStartPoint None ;; setEndPoint None ;;
   setShowWarning false ;; k) w = k (resetWorld w).
Proof. reflexivity. Qed.

(** The world after both searches. *)
Definition searchedBoth (w : World) : World :=
  searched (end_ w) (searched (start w) (resetWorld w)).

(** The world after both markers are set and the primary request is sent,
    with [r] as the displayed route. *)
Definition routedWorld (w : World) (startCoords endCoords : LatLng.t)
    (r : option (list coord)) (warning : bool) : World :=
  {| start := start w; end_ := end_ w;
     route := r; altRoute := None;
     startPoint := Some startCoords; endPoint := Some endCoords;
     floodReports := floodReports w; drawnItems := drawnItems w;
     showWarning := warning;
     alerts := alerts w;
     consoleErrors := consoleErrors (searchedBoth w);
     requests := requests (searchedBoth w)
                 ++ [Driving (lngLat startCoords) (lngLat endCoords)] |}.

(** Where a run of [getRoute] ends, branch by branch. *)
Lemma getRoute_exec w :
  exec (getRoute net) w =
    if isEmpty (start w) || isEmpty (end_ w) then
      exec (alert "Please enter both start and end points.") (resetWorld w)
    else
      match geocoded net (start w), geocoded net (end_ w) with
      | Some startCoords, Some endCoords =>
          match osrm net (lngLat startCoords) (lngLat endCoords) with
          | Json data =>
              match firstRoute data with
              | Some r =>
                  let routeCoordinates := map flip (coordinates r) in
                  match checkRouteForFloods routeCoordinates (floodReports w) (drawnItems w) with
                  | Ok true =>
                      exec (tryCatch
                              (alternativeRoute net startCoords endCoords routeCoordinates
                                 (floodReports w) (drawnItems w))
                              (fun _ => failed))
                           (routedWorld w startCoords endCoords (Some routeCoordinates) true)
                  | Ok false =>
                      routedWorld w startCoords endCoords (Some routeCoordinates) false
                  | Throw _ =>
                      exec failed
                        (routedWorld w startCoords endCoords (Some routeCoordinates) false)
                  end
              | None =>
                  exec (alert "Could not find a route.")
                       (routedWorld w startCoords endCoords None false)
              end
          | _ => exec failed (routedWorld w startCoords endCoords None false)
          end
      | _, _ =>
          exec (alert "Could not find one or both locations. Please try again.")
               (searchedBoth w)
      end.
Proof.
  unfold exec, getRoute. rewrite reset_run.
  unfold bind at 1. unfold getWorld. cbv beta iota.
  change (start (resetWorld w)) with (start w).
  change (end_ (resetWorld w)) with (end_ w).
  change (floodReports (resetWorld w)) with (floodReports w).
  change (drawnItems (resetWorld w)) with (drawnItems w).
  destruct (isEmpty (start w) || isEmpty (end_ w)); [reflexivity|].
  unfold bind at 1. rewrite geocodeAddress_run.
  unfold bind at 1. rewrite geocodeAddress_run.
  fold (searchedBoth w).
  destruct (geocoded net (start w)) as [startCoords|];
    [destruct (geocoded net (end_ w)) as [endCoords|]|]; try reflexivity.
  unfold fetchAndEvaluate, tryCatch, bind, liftR, setRoute, setStartPoint, setEndPoint,
    setShowWarning, setAltRoute, send, modify, parsed, failed, routedWorld, lngLat.
  cbn [fst snd]. 
  destruct (osrm net _ _) as [| |data]; try reflexivity.
  destruct (firstRoute data) as [r|]; try reflexivity.
  cbv zeta.
  destruct (checkRouteForFloods _ _ _) as [[]|]; try reflexivity.
Qed.

End Runs.

(** ** What [getRoute] leaves on display, in closed form *)
Section Display.
Context {K : TurfKernel}.
Variable net : Net.

(** Both ends, when both addresses are entered and resolved. *)
Definition bothGeocoded (w : World) : option (LatLng.t * LatLng.t) :=
  if isEmpty (start w) || isEmpty (end_ w) then None
  else
    match geocoded net (start w), geocoded net (end_ w) with
    | Some startCoords, Some endCoords => Some (startCoords, endCoords)
    | _, _ => None
    end.

(** Is there a primary route on which the check returns true? *)
Definition blocked (w : World) : bool :=
  match primaryRoute net w with
  | Some (_, _, routeCoordinates) =>
      match checkRouteForFloods routeCoordinates (floodReports w) (drawnItems w) with
      | Ok true => true
      | _ => false
      end
  | None => false
  end.

(** The alternate route of a blocked primary route: the merged legs around
    the bypass waypoint of the selected zone, when all of that exists. *)
Definition alternate (w : World) : option (list coord) :=
  match primaryRoute net w with
  | Some (startCoords, endCoords, routeCoordinates) =>
      if blocked w then
        match findClosestFloodZone startCoords (floodReports w) (drawnItems w) with
        | Ok (Some zone, _) =>
            match bypassWaypoint routeCoordinates zone with
            | Ok waypoint =>
                match legCandidate (osrm net (lngLat startCoords) waypoint),
                      legCandidate (osrm net waypoint (lngLat endCoords)) with
                | Some leg1, Some leg2 => Some (combinedRouteCoordinates leg1 leg2)
                | _, _ => None
                end
            | Throw _ => None
            end
        | _ => None
        end
      else None
  | None => None
  end.

Lemma geocoded_answered address c :
  geocoded net address = Some c -> answered net address = true.
Proof.
  unfold geocoded, answered. destruct (nominatim net address); [discriminate..|reflexivity].
Qed.

Lemma primaryRoute_inv w startCoords endCoords routeCoordinates :
  primaryRoute net w = Some (startCoords, endCoords, routeCoordinates) ->
  isEmpty (start w) || isEmpty (end_ w) = false /\
  geocoded net (start w) = Some startCoords /\
  geocoded net (end_ w) = Some endCoords /\
  exists data r,
    osrm net (lngLat startCoords) (lngLat endCoords) = Json data /\
    firstRoute data = Some r /\
    routeCoordinates = map flip (coordinates r).
Proof.
  unfold primaryRoute.
  destruct (isEmpty (start w) || isEmpty (end_ w)); [discriminate|].
  destruct (geocoded net (start w)) as [s|]; [|discriminate].
  destruct (geocoded net (end_ w)) as [e|]; [|discriminate].
  destruct (osrm net (lngLat s) (lngLat e)) as [| |data] eqn:O; try discriminate.
  destruct (firstRoute data) as [r|] eqn:F; [|discriminate].
  intro H. injection H as <- <- <-. repeat split. exists data, r. auto.
Qed.

(** Case analysis over the branches of a run. *)
Ltac branches :=
  repeat match goal with
  | |- context [exec (tryCatch (alternativeRoute _ _ _ _ _ _) _) _] =>
      rewrite alternativeRoute_exec
  | |- context [match ?x with _ => _ end] =>
      lazymatch type of x with
      | World => fail
      | _ => destruct x eqn:?
      end
  | |- context [if ?b then _ else _] => destruct b eqn:?
  end.

Lemma getRoute_display w :
  route (exec (getRoute net) w) = option_map snd (primaryRoute net w) /\
  altRoute (exec (getRoute net) w) = alternate w /\
  startPoint (exec (getRoute net) w) = option_map fst (bothGeocoded w) /\
  endPoint (exec (getRoute net) w) = option_map snd (bothGeocoded w) /\
  showWarning (exec (getRoute net) w) = blocked w.
Proof.
  rewrite getRoute_exec. unfold alternate, blocked, bothGeocoded, primaryRoute.
  destruct (isEmpty (start w) || isEmpty (end_ w)); [repeat split|].
  destruct (geocoded net (start w)) as [s|];
    [destruct (geocoded net (end_ w)) as [e|]|]; [|repeat split..].
  destruct (osrm net (lngLat s) (lngLat e)) as [| |data]; [repeat split..|].
  destruct (firstRoute data) as [r|]; [|repeat split].
  cbv zeta.
  destruct (checkRouteForFloods _ _ _) as [[]|]; [|repeat split..].
  rewrite alternativeRoute_exec.
  destruct (findClosestFloodZone _ _ _) as [[[zone|] d]|]; [|repeat split..].
  destruct (bypassWaypoint _ _) as [waypoint|]; [|repeat split].
  cbv zeta.
  destruct (legCandidate _) as [leg1|]; [destruct (legCandidate _) as [leg2|]|];
    [repeat split| |]; destruct (parsedBoth _ _); repeat split.
Qed.

End Display.

(** ** Computations that cannot throw *)
Section Safety.
Context {K : TurfKernel}.
Variable net : Net.

(** A computation that returns normally from every world. *)
Definition safe {A : Type} (m : M A) : Prop :=
  forall w, exists a, fst (m w) = Ok a.

Lemma safe_ret {A : Type} (a : A) : safe (ret a).
Proof. intro w. exists a. reflexivity. Qed.

Lemma safe_modify f : safe (modify f).
Proof. intro w. exists tt. reflexivity. Qed.

Lemma safe_getWorld : safe getWorld.
Proof. intro w. exists w. reflexivity. Qed.

Lemma safe_bind {A B : Type} (m : M A) (k : A -> M B) :
  safe m -> (forall a, safe (k a)) -> safe (bind m k).
Proof.
  intros Hm Hk w. unfold bind. destruct (Hm w) as (a & Ha).
  destruct (m w) as [r w1]. cbn in Ha. subst r. apply Hk.
Qed.

Lemma safe_tryCatch {A : Type} (body : M A) (handler : error -> M A) :
  (forall e, safe (handler e)) -> safe (tryCatch body handler).
Proof.
  intros Hh w. unfold tryCatch. destruct (body w) as [[a|e] w1].
  - exists a. reflexivity.
  - apply Hh.
Qed.

Lemma safe_geocodeAddress address : safe (geocodeAddress net address).
Proof. intro w. rewrite geocodeAddress_run. eexists. reflexivity. Qed.

Ltac safety :=
  repeat first
    [ apply safe_ret
    | apply safe_getWorld
    | apply safe_geocodeAddress
    | apply safe_modify
    | apply safe_tryCatch; intro
    | apply safe_bind; [|intro]
    | match goal with
      | |- safe (if ?b then _ else _) => destruct b
      | |- safe (match ?x with _ => _ end) => destruct x
      end ].

Lemma safe_getRoute : safe (getRoute net).
Proof.
  unfold getRoute, setRoute, setAltRoute, setStartPoint, setEndPoint, setShowWarning,
    alert, consoleError.
  safety.
Qed.

End Safety.

(** ** Where a selected zone comes from *)
Section SelectionOrigin.
Context {K : TurfKernel}.

(** The candidate of a report, and of an area with first ring [ring]. *)
Definition reportSelection (sp : geometry) (report : Report.t) : selection :=
  let point := Point (Report.lng report, Report.lat report) in
  (Some (ZonePoint point), distance sp point Kilometers).

Definition ringSelection (sp : geometry) (ring : list coord) : selection :=
  (Some (ZoneRing (map flip ring)),
   pointToLineDistance sp (LineString (map flip ring)) Kilometers).

Lemma closerReport_cases sp sel report sel' :
  closerReport sp sel report = Ok sel' ->
  sel' = sel \/
  (sel' = reportSelection sp report /\ (snd sel' <? snd sel)%float = true).
Proof.
  unfold closerReport, reportSelection, Turf.point. cbn [fst snd].
  destruct (_ && _); [|discriminate]. cbn [rbind].
  destruct (_ <? _)%float eqn:E; intro H; injection H as <-; auto.
Qed.

Lemma closerDrawn_cases sp sel item sel' :
  closerDrawn sp sel item = Ok sel' ->
  sel' = sel \/
  (isArea item = true /\
   exists ring rest,
     Drawn.latlngs item = Rings (ring :: rest) /\
     sel' = ringSelection sp ring /\ (snd sel' <? snd sel)%float = true).
Proof.
  unfold closerDrawn, ringSelection, itemPolygon, Turf.polygon.
  destruct (isArea item); [|intro H; injection H as <-; auto].
  destruct (Drawn.latlngs item) as [rs|]; [|discriminate].
  destruct (Turf.checkRings _) as [[]|]; [|discriminate]. cbn [rbind].
  destruct rs as [|ring rest]; [discriminate|]. cbn [map firstRing rbind].
  unfold Turf.lineString. destruct (_ <? _)%nat; [discriminate|]. cbn [rbind].
  destruct (_ <? _)%float eqn:E; intro H; injection H as <-; auto.
  right. split; [reflexivity|]. exists ring, rest. auto.
Qed.

Lemma forOf_reports_origin sp reports : forall sel sel',
  forOf (closerReport sp) sel reports = Ok sel' ->
  sel' = sel \/
  (exists report, In report reports /\ sel' = reportSelection sp report) /\
  (snd sel' <? snd sel)%float = true.
Proof.
  induction reports as [|report rest IH]; cbn [forOf]; intros sel sel' H.
  - injection H as <-. auto.
  - destruct (closerReport sp sel report) as [sel1|] eqn:E1; [|discriminate].
    cbn [rbind] in H. apply closerReport_cases in E1. apply IH in H.
    destruct H as [->|((r & Hin & Hr) & Hlt)].
    + destruct E1 as [->|(E1 & Hlt)]; [auto|].
      right. split; [|exact Hlt]. exists report. split; [left; reflexivity | exact E1].
    + right. split; [exists r; split; [right; exact Hin | exact Hr]|].
      destruct E1 as [->|(_ & Hlt1)]; [exact Hlt|]. eapply ltb_trans; eassumption.
Qed.

Lemma forOf_drawn_origin sp drawn : forall sel sel',
  forOf (closerDrawn sp) sel drawn = Ok sel' ->
  sel' = sel \/
  (exists item ring rest,
     In item drawn /\ isArea item = true /\
     Drawn.latlngs item = Rings (ring :: rest) /\ sel' = ringSelection sp ring) /\
  (snd sel' <? snd sel)%float = true.
Proof.
  induction drawn as [|item more IH]; cbn [forOf]; intros sel sel' H.
  - injection H as <-. auto.
  - destruct (closerDrawn sp sel item) as [sel1|] eqn:E1; [|discriminate].
    cbn [rbind] in H. apply closerDrawn_cases in E1. apply IH in H.
    destruct H as [->|((i & ring & rest & Hin & Ha & Hl & Hs) & Hlt)].
    + destruct E1 as [->|(Ha & ring & rest & Hl & E1 & Hlt)]; [auto|].
      right. split; [|exact Hlt]. exists item, ring, rest.
      repeat split; try assumption. left. reflexivity.
    + right. split.
      * exists i, ring, rest. repeat split; try assumption. right. exact Hin.
      * destruct E1 as [->|(_ & _ & _ & _ & _ & Hlt1)]; [exact Hlt|].
        eapply ltb_trans; eassumption.
Qed.

End SelectionOrigin.

(** * Further properties of the component *)
Section Further.
Context {K : TurfKernel}.
Variable net : Net.

Lemma searchedBoth_logs w startCoords endCoords :
  geocoded net (start w) = Some startCoords ->
  geocoded net (end_ w) = Some endCoords ->
  alerts (searchedBoth net w) = alerts w /\
  consoleErrors (searchedBoth net w) = consoleErrors w /\
  requests (searchedBoth net w) = requests w ++ [Search (start w); Search (end_ w)].
Proof.
  intros G1 G2. unfold searchedBoth, searched. cbn.
  rewrite (geocoded_answered _ _ G1), (geocoded_answered _ _ G2).
  rewrite <- app_assoc. repeat split.
Qed.

Lemma primaryRoute_ext w1 w2 :
  start w1 = start w2 -> end_ w1 = end_ w2 ->
  primaryRoute net w1 = primaryRoute net w2.
Proof. intros H1 H2. unfold primaryRoute. rewrite H1, H2. reflexivity. Qed.

Lemma alternate_none_unless_blocked w :
  alternate net w <> None -> blocked net w = true.
Proof.
  unfold alternate. destruct (primaryRoute net w) as [[[s e] rc]|]; [|congruence].
  destruct (blocked net w); congruence.
Qed.

Lemma blocked_has_route w :
  blocked net w = true ->
  exists startCoords endCoords routeCoordinates,
    primaryRoute net w = Some (startCoords, endCoords, routeCoordinates) /\
    checkRouteForFloods routeCoordinates (floodReports w) (drawnItems w) = Ok true.
Proof.
  unfold blocked. destruct (primaryRoute net w) as [[[s e] rc]|]; [|discriminate].
  destruct (checkRouteForFloods _ _ _) as [[]|] eqn:E; try discriminate.
  intros _. exists s, e, rc. auto.
Qed.

Lemma primaryRoute_bothGeocoded w startCoords endCoords routeCoordinates :
  primaryRoute net w = Some (startCoords, endCoords, routeCoordinates) ->
  bothGeocoded net w = Some (startCoords, endCoords).
Proof.
  intro H. apply primaryRoute_inv in H. destruct H as (H0 & G1 & G2 & _).
  unfold bothGeocoded. rewrite H0, G1, G2. reflexivity.
Qed.

(** [w'] has the inputs of [w] and its logs with at most [na] alerts, [ne]
    console errors and [nr] requests added. *)
Definition grown (w w' : World) (na ne nr : nat) : Prop :=
  start w' = start w /\
  end_ w' = end_ w /\
  floodReports w' = floodReports w /\
  drawnItems w' = drawnItems w /\
  exists newAlerts newErrors newRequests,
    alerts w' = alerts w ++ newAlerts /\
    consoleErrors w' = consoleErrors w ++ newErrors /\
    requests w' = requests w ++ newRequests /\
    (List.length newAlerts <= na)%nat /\
    (List.length newErrors <= ne)%nat /\
    (List.length newRequests <= nr)%nat.

Lemma grown_intro w w' na ne nr a c r :
  start w' = start w -> end_ w' = end_ w ->
  floodReports w' = floodReports w -> drawnItems w' = drawnItems w ->
  alerts w' = alerts w ++ a -> consoleErrors w' = consoleErrors w ++ c ->
  requests w' = requests w ++ r ->
  (List.length a <= na)%nat -> (List.length c <= ne)%nat -> (List.length r <= nr)%nat ->
  grown w w' na ne nr.
Proof. intros. repeat split; try assumption. exists a, c, r. repeat split; assumption. Qed.

Lemma grown_failed w w0 na ne nr :
  grown w w0 na ne nr -> grown w (exec failed w0) (S na) (S ne) nr.
Proof.
  intros (H1 & H2 & H3 & H4 & a & c & r & Ha & Hc & Hr & La & Lc & Lr).
  eapply grown_intro with (a := a ++ ["An error occurred while getting the route."%string])
                          (c := c ++ ["Error fetching route:"%string]) (r := r);
    try assumption.
  - cbn. rewrite Ha, <- app_assoc. reflexivity.
  - cbn. rewrite Hc, <- app_assoc. reflexivity.
  - rewrite length_app. cbn. lia.
  - rewrite length_app. cbn. lia.
Qed.

Lemma grown_searchedBoth w : grown w (searchedBoth net w) 0 2 2.
Proof.
  unfold searchedBoth, searched.
  destruct (answered net (start w)), (answered net (end_ w)).
  - eapply grown_intro with (a := []) (c := []) (r := [Search (start w); Search (end_ w)]);
      cbn; rewrite <- ?app_assoc, ?app_nil_r; try reflexivity; lia.
  - eapply grown_intro with (a := []) (c := ["Error geocoding address:"%string])
                            (r := [Search (start w); Search (end_ w)]);
      cbn; rewrite <- ?app_assoc, ?app_nil_r; try reflexivity; lia.
  - eapply grown_intro with (a := []) (c := ["Error geocoding address:"%string])
                            (r := [Search (start w); Search (end_ w)]);
      cbn; rewrite <- ?app_assoc, ?app_nil_r; try reflexivity; lia.
  - eapply grown_intro
      with (a := []) (c := ["Error geocoding address:"%string; "Error geocoding address:"%string])
           (r := [Search (start w); Search (end_ w)]);
      cbn; rewrite <- ?app_assoc, ?app_nil_r; try reflexivity; lia.
Qed.

Lemma grown_routed w startCoords endCoords r warning :
  grown w (routedWorld net w startCoords endCoords r warning) 0 2 3.
Proof.
  destruct (grown_searchedBoth w) as (_ & _ & _ & _ & a & c & rq & Ha & Hc & Hr & La & Lc & Lr).
  apply grown_intro with (a := []) (c := c)
                         (r := rq ++ [Driving (lngLat startCoords) (lngLat endCoords)]).
  1-4: reflexivity.
  - cbn. now rewrite app_nil_r.
  - cbn [routedWorld consoleErrors]. exact Hc.
  - cbn [routedWorld requests]. rewrite Hr, <- app_assoc. reflexivity.
  - cbn. lia.
  - exact Lc.
  - rewrite length_app. cbn. lia.
Qed.

Lemma grown_legsSent w w0 origin waypoint destination na ne nr :
  grown w w0 na ne nr ->
  grown w (legsSent w0 origin waypoint destination) na ne (S (S nr)).
Proof.
  intros (H1 & H2 & H3 & H4 & a & c & r & Ha & Hc & Hr & La & Lc & Lr).
  eapply grown_intro with (a := a) (c := c)
    (r := r ++ [Driving origin waypoint; Driving waypoint destination]); try assumption.
  - cbn. rewrite Hr, <- !app_assoc. reflexivity.
  - rewrite length_app. cbn. lia.
Qed.

Lemma grown_setAltRoute w w0 v na ne nr :
  grown w w0 na ne nr -> grown w (exec (setAltRoute v) w0) na ne nr.
Proof. intro H. exact H. Qed.

Lemma grown_weaken w w' na ne nr na' ne' nr' :
  grown w w' na ne nr -> (na <= na')%nat -> (ne <= ne')%nat -> (nr <= nr')%nat ->
  grown w w' na' ne' nr'.
Proof.
  intros (H1 & H2 & H3 & H4 & a & c & r & Ha & Hc & Hr & La & Lc & Lr) ? ? ?.
  eapply grown_intro with (a := a) (c := c) (r := r); try assumption; lia.
Qed.

(** X3.  [getRoute] leaves the two addresses, the reports and the drawn items
    as they are, and only adds to the alerts, console errors and requests: at
    most one alert, three console errors and five requests per run. *)
Theorem getRoute_keeps_inputs_and_extends_logs (w : World) :
  start (exec (getRoute net) w) = start w /\
  end_ (exec (getRoute net) w) = end_ w /\
  floodReports (exec (getRoute net) w) = floodReports w /\
  drawnItems (exec (getRoute net) w) = drawnItems w /\
  exists newAlerts newErrors newRequests,
    alerts (exec (getRoute net) w) = alerts w ++ newAlerts /\
    consoleErrors (exec (getRoute net) w) = consoleErrors w ++ newErrors /\
    requests (exec (getRoute net) w) = requests w ++ newRequests /\
    (List.length newAlerts <= 1)%nat /\
    (List.length newErrors <= 3)%nat /\
    (List.length newRequests <= 5)%nat.
Proof.
  change (grown w (exec (getRoute net) w) 1 3 5).
  rewrite getRoute_exec.
  destruct (isEmpty (start w) || isEmpty (end_ w)).
  { eapply grown_intro with (a := ["Please enter both start and end points."%string])
                            (c := []) (r := []); try reflexivity;
      try (cbn; now rewrite app_nil_r); cbn; lia. }
  assert (Hunresolved :
    grown w (exec (alert "Could not find one or both locations. Please try again.")
               (searchedBoth net w)) 1 3 5).
  { destruct (grown_searchedBoth w)
      as (H1 & H2 & H3 & H4 & a & c & r & Ha & Hc & Hr & La & Lc & Lr).
    eapply grown_intro
      with (a := a ++ ["Could not find one or both locations. Please try again."%string])
           (c := c) (r := r); try assumption.
    - cbn [exec alert modify snd alerts]. rewrite Ha, <- app_assoc. reflexivity.
    - rewrite length_app. cbn. lia.
    - lia.
    - lia. }
  destruct (geocoded net (start w)) as [s|];
    [destruct (geocoded net (end_ w)) as [e|]|]; [|exact Hunresolved..].
  assert (Hrouted : forall r warning,
            grown w (routedWorld net w s e r warning) 1 3 5)
    by (intros; eapply grown_weaken; [apply grown_routed | lia..]).
  assert (Hfailed : forall r warning,
            grown w (exec failed (routedWorld net w s e r warning)) 1 3 5)
    by (intros; eapply grown_weaken; [apply grown_failed, grown_routed | lia..]).
  destruct (osrm net (lngLat s) (lngLat e)) as [| |data]; [apply Hfailed..|].
  destruct (firstRoute data) as [r|].
  2: { destruct (grown_routed w s e None false)
         as (H1 & H2 & H3 & H4 & a & c & rq & Ha & Hc & Hr & La & Lc & Lr).
       eapply grown_intro with (a := a ++ ["Could not find a route."%string])
                               (c := c) (r := rq); try assumption.
       - cbn [exec alert modify snd alerts]. rewrite Ha, <- app_assoc. reflexivity.
       - rewrite length_app. cbn. lia.
       - lia.
       - lia. }
  cbv zeta. destruct (checkRouteForFloods _ _ _) as [[]|];
    [|apply Hrouted | apply Hfailed].
  rewrite alternativeRoute_exec.
  destruct (findClosestFloodZone _ _ _) as [[[zone|] d]|];
    [|apply Hrouted | apply Hfailed].
  destruct (bypassWaypoint _ _) as [waypoint|]; [|apply Hfailed].
  cbv zeta.
  assert (Hsent : grown w (legsSent (routedWorld net w s e (Some (map flip (coordinates r))) true)
                             (lngLat s) waypoint (lngLat e)) 0 2 5)
    by apply grown_legsSent, grown_routed.
  assert (Hsent' : grown w (exec failed
                              (legsSent (routedWorld net w s e
                                           (Some (map flip (coordinates r))) true)
                                 (lngLat s) waypoint (lngLat e))) 1 3 5)
    by apply grown_failed, Hsent.
  assert (Hkept : grown w (legsSent (routedWorld net w s e
                                       (Some (map flip (coordinates r))) true)
                             (lngLat s) waypoint (lngLat e)) 1 3 5)
    by (eapply grown_weaken; [exact Hsent | lia..]).
  destruct (legCandidate _) as [leg1|]; [destruct (legCandidate _) as [leg2|]|].
  - apply grown_setAltRoute. exact Hkept.
  - destruct (parsedBoth _ _); [exact Hkept | exact Hsent'].
  - destruct (parsedBoth _ _); [exact Hkept | exact Hsent'].
Qed.

Ltac show_world :=
  cbn [exec failed alert consoleError bind modify fst snd routedWorld
       start end_ route altRoute startPoint endPoint floodReports drawnItems
       showWarning alerts consoleErrors requests].

(** X4.  With an empty start or destination field [getRoute] stops after its
    reset: one alert, no request, no console error, and nothing on display. *)
Theorem missing_address_stops_before_any_request (w : World) :
  isEmpty (start w) || isEmpty (end_ w) = true ->
  requests (exec (getRoute net) w) = requests w /\
  alerts (exec (getRoute net) w) =
    alerts w ++ ["Please enter both start and end points."%string] /\
  consoleErrors (exec (getRoute net) w) = consoleErrors w /\
  route (exec (getRoute net) w) = None /\
  altRoute (exec (getRoute net) w) = None /\
  startPoint (exec (getRoute net) w) = None /\
  endPoint (exec (getRoute net) w) = None /\
  showWarning (exec (getRoute net) w) = false.
Proof. intro H. rewrite getRoute_exec, H. repeat split. Qed.


(** X6.  When both ends are resolved and the routing service gives no route,
    both markers are set and no route, alternate route or warning is shown.
    The three requests are the two searches and the primary route request.
    A body without routes gives the alert that no route was found; a rejected
    request or body gives the error alert and one console error. *)
Theorem no_primary_route_leaves_markers_only
    (w : World) (startCoords endCoords : LatLng.t) :
  isEmpty (start w) || isEmpty (end_ w) = false ->
  geocoded net (start w) = Some startCoords ->
  geocoded net (end_ w) = Some endCoords ->
  legCandidate (osrm net (lngLat startCoords) (lngLat endCoords)) = None ->
  startPoint (exec (getRoute net) w) = Some startCoords /\
  endPoint (exec (getRoute net) w) = Some endCoords /\
  route (exec (getRoute net) w) = None /\
  altRoute (exec (getRoute net) w) = None /\
  showWarning (exec (getRoute net) w) = false /\
  requests (exec (getRoute net) w) =
    requests w ++ [Search (start w); Search (end_ w);
                   Driving (lngLat startCoords) (lngLat endCoords)] /\
  alerts (exec (getRoute net) w) =
    alerts w ++
    [match osrm net (lngLat startCoords) (lngLat endCoords) with
     | Json _ => "Could not find a route."%string
     | _ => "An error occurred while getting the route."%string
     end] /\
  consoleErrors (exec (getRoute net) w) =
    match osrm net (lngLat startCoords) (lngLat endCoords) with
    | Json _ => consoleErrors w
    | _ => consoleErrors w ++ ["Error fetching route:"%string]
    end.
Proof.
  intros Hne G1 G2 Hleg. rewrite getRoute_exec, Hne, G1, G2.
  destruct (searchedBoth_logs w G1 G2) as (Ha & Hc & Hr).
  destruct (osrm net (lngLat startCoords) (lngLat endCoords)) as [| |data];
    cbn [legCandidate] in Hleg; try rewrite Hleg;
    show_world; rewrite ?Ha, Hc, Hr, <- app_assoc; repeat split.
Qed.

(** X7.  When the check returns false on the primary route, the route is
    displayed with both markers and without warning or alternate route; no
    alert or console error is added and exactly three requests were sent. *)
Theorem clear_route_is_shown_without_warning
    (w : World) (startCoords endCoords : LatLng.t) (routeCoordinates : list coord) :
  primaryRoute net w = Some (startCoords, endCoords, routeCoordinates) ->
  checkRouteForFloods routeCoordinates (floodReports w) (drawnItems w) = Ok false ->
  route (exec (getRoute net) w) = Some routeCoordinates /\
  showWarning (exec (getRoute net) w) = false /\
  altRoute (exec (getRoute net) w) = None /\
  startPoint (exec (getRoute net) w) = Some startCoords /\
  endPoint (exec (getRoute net) w) = Some endCoords /\
  alerts (exec (getRoute net) w) = alerts w /\
  consoleErrors (exec (getRoute net) w) = consoleErrors w /\
  requests (exec (getRoute net) w) =
    requests w ++ [Search (start w); Search (end_ w);
                   Driving (lngLat startCoords) (lngLat endCoords)].
Proof.
  intros Hp Hc. destruct (primaryRoute_inv _ _ Hp) as (Hne & G1 & G2 & data & r & O & F & ->).
  rewrite getRoute_exec, Hne, G1, G2, O, F. cbv zeta. rewrite Hc.
  destruct (searchedBoth_logs w G1 G2) as (Ha & He & Hr).
  show_world. rewrite ?Ha, He, Hr, <- app_assoc. repeat split.
Qed.

(** X8.  When the check throws on the primary route (a route of fewer than
    two points, a report with a NaN coordinate or a drawn area that cannot be
    built, reached before any hazard intersects), the route stays displayed
    without warning and without alternate route, and the run ends with the
    error alert and one console error after three requests. *)
Theorem failing_check_leaves_route_unwarned
    (w : World) (startCoords endCoords : LatLng.t) (routeCoordinates : list coord)
    (e : error) :
  primaryRoute net w = Some (startCoords, endCoords, routeCoordinates) ->
  checkRouteForFloods routeCoordinates (floodReports w) (drawnItems w) = Throw e ->
  route (exec (getRoute net) w) = Some routeCoordinates /\
  showWarning (exec (getRoute net) w) = false /\
  altRoute (exec (getRoute net) w) = None /\
  alerts (exec (getRoute net) w) =
    alerts w ++ ["An error occurred while getting the route."%string] /\
  consoleErrors (exec (getRoute net) w) =
    consoleErrors w ++ ["Error fetching route:"%string] /\
  requests (exec (getRoute net) w) =
    requests w ++ [Search (start w); Search (end_ w);
                   Driving (lngLat startCoords) (lngLat endCoords)].
Proof.
  intros Hp Hc. destruct (primaryRoute_inv _ _ Hp) as (Hne & G1 & G2 & data & r & O & F & ->).
  rewrite getRoute_exec, Hne, G1, G2, O, F. cbv zeta. rewrite Hc.
  destruct (searchedBoth_logs w G1 G2) as (Ha & He & Hr).
  show_world. rewrite ?Ha, He, Hr, <- app_assoc. repeat split.
Qed.

(** X19.  An alternate route comes without any message: when a run of
    [getRoute] ends with an alternate route on display, it has added no alert
    and no console error, and it has sent exactly five requests, the two
    searches, the primary route request and the two legs. *)
Theorem alternate_route_comes_without_error (w : World) :
  altRoute (exec (getRoute net) w) <> None ->
  alerts (exec (getRoute net) w) = alerts w /\
  consoleErrors (exec (getRoute net) w) = consoleErrors w /\
  exists startCoords endCoords waypoint,
    requests (exec (getRoute net) w) =
      requests w ++ [Search (start w); Search (end_ w);
                     Driving (lngLat startCoords) (lngLat endCoords);
                     Driving (lngLat startCoords) waypoint;
                     Driving waypoint (lngLat endCoords)].
Proof.
  rewrite getRoute_exec.
  destruct (isEmpty (start w) || isEmpty (end_ w)); [intro H; now contradiction H|].
  destruct (geocoded net (start w)) as [s|] eqn:G1;
    [destruct (geocoded net (end_ w)) as [e|] eqn:G2|];
    try (intro H; now contradiction H).
  destruct (searchedBoth_logs w G1 G2) as (Ha & He & Hr).
  destruct (osrm net (lngLat s) (lngLat e)) as [| |data];
    try (intro H; now contradiction H).
  destruct (firstRoute data) as [r|]; [|intro H; now contradiction H].
  cbv zeta. destruct (checkRouteForFloods _ _ _) as [[]|];
    try (intro H; now contradiction H).
  rewrite alternativeRoute_exec.
  destruct (findClosestFloodZone _ _ _) as [[[zone|] d]|];
    try (intro H; now contradiction H).
  destruct (bypassWaypoint _ _) as [waypoint|]; [|intro H; now contradiction H].
  cbv zeta.
  destruct (legCandidate _) as [leg1|]; [destruct (legCandidate _) as [leg2|]|].
  - intros _. unfold legsSent, setAltRoute, send. show_world.
    rewrite He, Hr, <- !app_assoc. repeat split.
    exists s, e, waypoint. reflexivity.
  - destruct (parsedBoth _ _); intro H; now contradiction H.
  - destruct (parsedBoth _ _); intro H; now contradiction H.
Qed.

End Further.

Section FurtherCheck.
Context {K : TurfKernel}.

(** X12.  The check of a concatenated snapshot is the sequence of the checks
    of its parts, reports first: a part counts only when every part before it
    returned false, and the first part that returns true or throws gives the
    outcome. *)
Theorem check_of_concatenated_snapshots
    (routeCoords : list coord) (reports reports' : list Report.t)
    (drawn drawn' : list Drawn.t) :
  checkRouteForFloods routeCoords (reports ++ reports') (drawn ++ drawn') =
    orElse (checkRouteForFloods routeCoords reports [])
      (orElse (checkRouteForFloods routeCoords reports' [])
         (orElse (checkRouteForFloods routeCoords [] drawn)
                 (checkRouteForFloods routeCoords [] drawn'))).
Proof.
  rewrite !check_scan. destruct (Turf.lineString _) as [line|]; [|reflexivity].
  cbn [rbind]. rewrite hazardSet_app, !scan_app. reflexivity.
Qed.

(** X13.  The outcome of the check on any input.  It is true exactly when the
    route has two points or more and some hazard tests true after hazards
    that all test false; false exactly when the route has two points or more
    and every hazard tests false; and an exception exactly when the route has
    fewer than two points, or some hazard throws after hazards that all test
    false.  Hazards are taken in visiting order, and testing one means
    building its geometry and intersecting it with the route line. *)
Theorem check_is_decided_by_the_first_decisive_hazard
    (routeCoords : list coord) (reports : list Report.t) (drawn : list Drawn.t) :
  let routeLine := LineString (map flip routeCoords) in
  let hs := hazardSet reports drawn in
  (checkRouteForFloods routeCoords reports drawn = Ok true <->
     (2 <= List.length routeCoords)%nat /\
     exists pre h post,
       hs = pre ++ h :: post /\
       Forall (fun x => hazardTest routeLine x = Ok false) pre /\
       hazardTest routeLine h = Ok true) /\
  (checkRouteForFloods routeCoords reports drawn = Ok false <->
     (2 <= List.length routeCoords)%nat /\
     Forall (fun x => hazardTest routeLine x = Ok false) hs) /\
  (forall e,
     checkRouteForFloods routeCoords reports drawn = Throw e <->
     ((List.length routeCoords < 2)%nat /\ e = LineStringTooShort) \/
     ((2 <= List.length routeCoords)%nat /\
      exists pre h post,
        hs = pre ++ h :: post /\
        Forall (fun x => hazardTest routeLine x = Ok false) pre /\
        hazardTest routeLine h = Throw e)).
Proof.
  intros routeLine hs. rewrite check_scan. fold hs.
  destruct (lineString_cases (map flip routeCoords)) as [[Hlen ->]|[Hlen ->]];
    rewrite length_map in Hlen; cbn [rbind]; fold routeLine; unfold coord in *.
  - split; [|split].
    + rewrite scan_true. intuition.
    + rewrite scan_false. intuition.
    + intro e. rewrite scan_throw. split; [auto|]. intros [[H _]|[_ H]]; [lia | exact H].
  - split; [|split].
    + split; [discriminate|]. intros [H _]. lia.
    + split; [discriminate|]. intros [H _]. lia.
    + intro e. split.
      * intro H. injection H as <-. auto.
      * intros [[_ ->]|[H _]]; [reflexivity | lia].
Qed.

(** X14.  A [pm:create] event appends one red item to the drawn items and
    changes nothing else, the displayed route, alternate route and warning
    included.  For every route, the new item counts in the check only when
    the reports and the items drawn before all returned false; a true outcome
    or an exception of the check stays as it was. *)
Theorem drawn_item_counts_only_after_the_rest (now : Z) (e : created) (w : World) :
  let item := {| Drawn.id := now; Drawn.type := shape e;
                 Drawn.latlngs := layerLatLngs e; Drawn.color := "red" |} in
  fst (onCreate now e w) = Ok tt /\
  drawnItems (exec (onCreate now e) w) = drawnItems w ++ [item] /\
  floodReports (exec (onCreate now e) w) = floodReports w /\
  route (exec (onCreate now e) w) = route w /\
  altRoute (exec (onCreate now e) w) = altRoute w /\
  showWarning (exec (onCreate now e) w) = showWarning w /\
  forall routeCoords,
    checkRouteForFloods routeCoords (floodReports (exec (onCreate now e) w))
      (drawnItems (exec (onCreate now e) w)) =
    orElse (checkRouteForFloods routeCoords (floodReports w) (drawnItems w))
           (checkRouteForFloods routeCoords [] [item]).
Proof.
  intro item. do 6 (split; [reflexivity|]). intro routeCoords.
  cbn [exec onCreate modify snd floodReports drawnItems]. fold item.
  rewrite !check_scan. destruct (Turf.lineString _) as [line|]; [|reflexivity].
  cbn [rbind]. unfold hazardSet. rewrite filter_app, map_app, app_assoc, scan_app.
  reflexivity.
Qed.

(** X15.  [window.reportSeverity] appends one report with the given
    severity and coordinates and changes nothing else; the displayed route
    and warning are not re-evaluated.  When the test of the new report
    against a route returns (its point and its buffer are built and the
    intersection raises no exception), a route on which the check returned
    true is still blocked with the new report. *)
Theorem tested_report_keeps_a_block
    (now : Z) (severity : string) (lat lng : float) (w : World)
    (routeCoords : list coord) :
  testable (LineString (map flip routeCoords))
    (HazardReport {| Report.id := now; Report.lat := lat; Report.lng := lng;
                     Report.severity := severity |}) ->
  checkRouteForFloods routeCoords (floodReports w) (drawnItems w) = Ok true ->
  floodReports (exec (reportSeverity now severity lat lng) w) =
    floodReports w ++
    [{| Report.id := now; Report.lat := lat; Report.lng := lng;
        Report.severity := severity |}] /\
  drawnItems (exec (reportSeverity now severity lat lng) w) = drawnItems w /\
  route (exec (reportSeverity now severity lat lng) w) = route w /\
  altRoute (exec (reportSeverity now severity lat lng) w) = altRoute w /\
  showWarning (exec (reportSeverity now severity lat lng) w) = showWarning w /\
  checkRouteForFloods routeCoords
    (floodReports (exec (reportSeverity now severity lat lng) w))
    (drawnItems (exec (reportSeverity now severity lat lng) w)) = Ok true.
Proof.
  intros (b & Hb) Hc. do 5 (split; [reflexivity|]).
  cbn [exec reportSeverity modify snd floodReports drawnItems].
  rewrite check_scan in *.
  destruct (lineString_cases (map flip routeCoords)) as [[_ Hl]|[_ Hl]];
    rewrite Hl in *; [|discriminate].
  cbn [rbind] in *. unfold hazardSet in *. rewrite map_app, <- app_assoc.
  rewrite scan_app in *. cbn [map app scan]. rewrite Hb.
  destruct (scan _ (map HazardReport (floodReports w))) as [[]|]; cbn [orElse] in *;
    try discriminate; [reflexivity|].
  destruct b; [reflexivity | exact Hc].
Qed.

(** X16.  A selected zone is one of the hazards of the snapshot and lies at
    a distance below Infinity: it is the point of one of the reports with its
    distance from the start point, or the first ring of one of the drawn
    rectangles or polygons with the distance from the start point to that
    ring taken as a line. *)
Theorem selected_zone_is_a_hazard
    (startCoords : LatLng.t) (reports : list Report.t) (drawn : list Drawn.t)
    (zone : floodZone) (d : float) :
  findClosestFloodZone startCoords reports drawn = Ok (Some zone, d) ->
  (d <? infinity)%float = true /\
  ((exists report,
      In report reports /\
      zone = ZonePoint (Point (Report.lng report, Report.lat report)) /\
      d = distance (Point (lngLat startCoords))
                   (Point (Report.lng report, Report.lat report)) Kilometers) \/
   (exists item ring rest,
      In item drawn /\ isArea item = true /\
      Drawn.latlngs item = Rings (ring :: rest) /\
      zone = ZoneRing (map flip ring) /\
      d = pointToLineDistance (Point (lngLat startCoords))
                              (LineString (map flip ring)) Kilometers)).
Proof.
  unfold findClosestFloodZone, Turf.point. cbn [fst snd]. fold (lngLat startCoords).
  destruct (_ && _); [|discriminate]. cbn [rbind].
  destruct (forOf (closerReport _) noSelection reports) as [sel|] eqn:Er; [|discriminate].
  cbn [rbind]. intro Hd.
  apply forOf_reports_origin in Er. apply forOf_drawn_origin in Hd.
  destruct Hd as [Hd|((item & ring & rest & Hin & Ha & Hl & Hs) & Hlt)].
  - subst sel. destruct Er as [Er|((report & Hin & Hr) & Hlt)]; [discriminate|].
    injection Hr as -> ->. split; [exact Hlt|]. left. exists report. auto.
  - injection Hs as -> ->. split.
    + destruct Er as [->|(_ & Hlt')]; [exact Hlt|]. cbn [snd] in *.
      eapply ltb_trans; eassumption.
    + right. exists item, ring, rest. auto.
Qed.


End FurtherCheck.

(** * [getRoute] as an asynchronous function

    [getRoute] and [geocodeAddress] are [async]: at each [await] the function
    is suspended and other handlers of the page may run before it is resumed,
    a second [getRoute] included (nothing keeps the button from being pressed
    again).  Here the two functions are written with their suspensions, and a
    run is given what the rest of the page does to the state at each of them.
    The names of the state that the function reads ([start], [end],
    [floodReports], [drawnItems]) are those of the render in which the
    handler was made: they are arguments, read once.

    Text is held as strings of bytes read as generalised UTF-8, in which the
    bytes [ED A0] to [ED BF] begin a surrogate that has no partner;
    [encodeURIComponent] throws a URIError on such a string. *)
Module Async.

Inductive async (A : Type) : Type :=
| Return (a : A)
| Raise (e : error)
| Do (f : World -> World) (next : async A)
| Await (next : async A).
Arguments Return {A} a.
Arguments Raise {A} e.
Arguments Do {A} f next.
Arguments Await {A} next.

Fixpoint bind {A B : Type} (m : async A) (k : A -> async B) : async B :=
  match m with
  | Return a => k a
  | Raise e => Raise e
  | Do f next => Do f (bind next k)
  | Await next => Await (bind next k)
  end.

Fixpoint tryCatch {A : Type} (body : async A) (handler : error -> async A) : async A :=
  match body with
  | Return a => Return a
  | Raise e => handler e
  | Do f next => Do f (tryCatch next handler)
  | Await next => Await (tryCatch next handler)
  end.

Declare Scope async_scope.
Delimit Scope async_scope with async.
Notation "x <- m ;; k" := (bind m (fun x => k))
  (at level 61, m at next level, right associativity) : async_scope.
Notation "m ;; k" := (bind m (fun _ => k))
  (at level 61, right associativity) : async_scope.
Local Open Scope async_scope.

(** A setter, an alert, a console error or the sending of a request. *)
Definition act (m : M unit) : async unit := Do (exec m) (Return tt).

Definition liftR {A : Type} (r : result A) : async A :=
  match r with
  | Ok a => Return a
  | Throw e => Raise e
  end.

(** [await p] for the promise of an asynchronous call: the call runs to its
    end, and the caller is resumed with its outcome after one more
    suspension. *)
Fixpoint await {A : Type} (call : async A) : async A :=
  match call with
  | Return a => Await (Return a)
  | Raise e => Await (Raise e)
  | Do f next => Do f (await next)
  | Await next => Await (await next)
  end.

(** [const response = await fetch(url); const data = await response.json()],
    the request being sent already. *)
Definition fetchJson {A : Type} (f : fetched A) : async A :=
  Await
    match f with
    | FetchFails => Raise FetchRejected
    | JsonFails => Await (Raise JsonRejected)
    | Json data => Await (Return data)
    end.

(** The same for two requests under [Promise.all]. *)
Definition fetchJsonBoth {A : Type} (f1 f2 : fetched A) : async (A * A) :=
  Await
    match f1, f2 with
    | FetchFails, _ | _, FetchFails => Raise FetchRejected
    | _, _ => Await (liftR (parsedBoth f1 f2))
    end.

(** Does the text hold a surrogate without its partner? *)
Fixpoint loneSurrogate (s : string) : bool :=
  match s with
  | String a (String b _ as rest) =>
      ((nat_of_ascii a =? 237)%nat
       && (160 <=? nat_of_ascii b)%nat && (nat_of_ascii b <=? 191)%nat)
      || loneSurrogate rest
  | _ => false
  end.

(** [encodeURIComponent(address)] inside the template literal of the URL. *)
Definition searchRequest (address : string) : result request :=
  if loneSurrogate address then Throw URIError else Ok (Search address).

Section App.
Context {K : TurfKernel}.
Variable net : Net.

Definition geocodeAddress (address : string) : async (option LatLng.t) :=
  url <- liftR (searchRequest address) ;;
  tryCatch
    (act (send url) ;;
     data <- fetchJson (nominatim net address) ;;
     match data with
     | hit :: _ =>
         Return (Some {| LatLng.lat := hit_lat hit; LatLng.lng := hit_lon hit |})
     | [] => Return None
     end)
    (fun _ => act (consoleError "Error geocoding address:") ;; Return None).

Definition detour (startCoords endCoords : LatLng.t)
    (routeCoordinates : list coord) (zone : floodZone) : async unit :=
  waypoint <- liftR (bypassWaypoint routeCoordinates zone) ;;
  let origin := (LatLng.lng startCoords, LatLng.lat startCoords) in
  let destination := (LatLng.lng endCoords, LatLng.lat endCoords) in
  act (send (Driving origin waypoint)) ;;
  act (send (Driving waypoint destination)) ;;
  data <- fetchJsonBoth (osrm net origin waypoint) (osrm net waypoint destination) ;;
  match firstRoute (fst data), firstRoute (snd data) with
  | Some leg1, Some leg2 => act (setAltRoute (Some (combinedRouteCoordinates leg1 leg2)))
  | _, _ => Return tt
  end.

Definition alternativeRoute (startCoords endCoords : LatLng.t)
    (routeCoordinates : list coord) (reports : list Report.t)
    (drawn : list Drawn.t) : async unit :=
  sel <- liftR (findClosestFloodZone startCoords reports drawn) ;;
  match fst sel with
  | Some closestFloodZone => detour startCoords endCoords routeCoordinates closestFloodZone
  | None => Return tt
  end.

Definition fetchAndEvaluate (startCoords endCoords : LatLng.t)
    (reports : list Report.t) (drawn : list Drawn.t) : async unit :=
  let origin := (LatLng.lng startCoords, LatLng.lat startCoords) in
  let destination := (LatLng.lng endCoords, LatLng.lat endCoords) in
  act (send (Driving origin destination)) ;;
  data <- fetchJson (osrm net origin destination) ;;
  match firstRoute data with
  | Some r =>
      let routeCoordinates := map flip (coordinates r) in
      act (setRoute (Some routeCoordinates)) ;;
      blocked <- liftR (checkRouteForFloods routeCoordinates reports drawn) ;;
      if blocked then
        act (setShowWarning true) ;;
        alternativeRoute startCoords endCoords routeCoordinates reports drawn
      else
        act (setShowWarning false) ;;
        act (setAltRoute None)
  | None => act (alert "Could not find a route.")
  end.

(** [getRoute], with [start], [end], [floodReports] and [drawnItems] as the
    render gave them to the handler. *)
Definition getRoute (start end_ : string) (floodReports : list Report.t)
    (drawnItems : list Drawn.t) : async unit :=
  act (setRoute None) ;;
  act (setAltRoute None) ;;
  act (setStartPoint None) ;;
  act (setEndPoint None) ;;
  act (setShowWarning false) ;;
  if isEmpty start || isEmpty end_ then
    act (alert "Please enter both start and end points.")
  else
    startCoords <- await (geocodeAddress start) ;;
    endCoords <- await (geocodeAddress end_) ;;
    match startCoords, endCoords with
    | Some startCoords, Some endCoords =>
        act (setStartPoint (Some startCoords)) ;;
        act (setEndPoint (Some endCoords)) ;;
        tryCatch
          (fetchAndEvaluate startCoords endCoords floodReports drawnItems)
          (fun _ =>
             act (consoleError "Error fetching route:") ;;
             act (alert "An error occurred while getting the route."))
    | _, _ => act (alert "Could not find one or both locations. Please try again.")
    end.

End App.

(** A run: [others] lists what the other handlers of the page do to the
    state at the successive suspensions of this call; past its end nothing
    else happens. *)
Fixpoint run {A : Type} (m : async A) (others : list (World -> World)) (w : World)
  : result A * World :=
  match m with
  | Return a => (Ok a, w)
  | Raise e => (Throw e, w)
  | Do f next => run next others (f w)
  | Await next =>
      match others with
      | [] => run next [] w
      | other :: rest => run next rest (other w)
      end
  end.

(** The click on the button: the handler of the current render is started. *)
Definition click {K : TurfKernel} (net : Net) (others : list (World -> World))
    (w : World) : result unit * World :=
  run (getRoute net (start w) (end_ w) (floodReports w) (drawnItems w)) others w.

End Async.

(** ** The sequential model is the asynchronous one run alone *)
Section AsyncFacts.
Context {K : TurfKernel}.
Variable net : Net.

(** Handlers that leave the state as it is. *)
Definition idle (others : list (World -> World)) : Prop :=
  Forall (fun other => forall w, other w = w) others.

Lemma run_idle {A : Type} (m : Async.async A) : forall others w,
  idle others -> Async.run m others w = Async.run m [] w.
Proof.
  induction m as [a|e|f next IH|next IH]; intros others w Hi; cbn [Async.run].
  - reflexivity.
  - reflexivity.
  - apply IH, Hi.
  - destruct others as [|other rest]; [reflexivity|].
    inversion Hi as [|? ? Ho Hrest]; subst. rewrite Ho. apply IH, Hrest.
Qed.

(** Whether a call returns or throws, and what, does not depend on the
    state or on the other handlers. *)
Lemma run_outcome {A : Type} (m : Async.async A) : forall others w others' w',
  fst (Async.run m others w) = fst (Async.run m others' w').
Proof.
  induction m as [a|e|f next IH|next IH]; intros others w others' w'; cbn [Async.run].
  - reflexivity.
  - reflexivity.
  - apply IH.
  - destruct others, others'; apply IH.
Qed.

Lemma run_bind {A B : Type} (m : Async.async A) (k : A -> Async.async B) : forall w,
  Async.run (Async.bind m k) [] w =
    match Async.run m [] w with
    | (Ok a, w') => Async.run (k a) [] w'
    | (Throw e, w') => (Throw e, w')
    end.
Proof.
  induction m as [a|e|f next IH|next IH]; intro w; cbn [Async.bind Async.run];
    try reflexivity; apply IH.
Qed.

Lemma run_tryCatch {A : Type} (body : Async.async A) handler : forall w,
  Async.run (Async.tryCatch body handler) [] w =
    match Async.run body [] w with
    | (Ok a, w') => (Ok a, w')
    | (Throw e, w') => Async.run (handler e) [] w'
    end.
Proof.
  induction body as [a|e|f next IH|next IH]; intro w; cbn [Async.tryCatch Async.run];
    try reflexivity; apply IH.
Qed.

Lemma run_await {A : Type} (call : Async.async A) : forall w,
  Async.run (Async.await call) [] w = Async.run call [] w.
Proof.
  induction call as [a|e|f next IH|next IH]; intro w; cbn [Async.await Async.run];
    try reflexivity; apply IH.
Qed.

Lemma run_liftR {A : Type} (r : result A) w : Async.run (Async.liftR r) [] w = (r, w).
Proof. destruct r; reflexivity. Qed.

Lemma run_fetchJson {A : Type} (f : fetched A) w :
  Async.run (Async.fetchJson f) [] w = (parsed f, w).
Proof. destruct f; reflexivity. Qed.

Lemma run_fetchJsonBoth {A : Type} (f1 f2 : fetched A) w :
  Async.run (Async.fetchJsonBoth f1 f2) [] w = (parsedBoth f1 f2, w).
Proof. destruct f1, f2; reflexivity. Qed.

(** One call of [geocodeAddress] run alone. *)
Lemma geocodeAddress_alone address w :
  Async.run (Async.geocodeAddress net address) [] w =
    if Async.loneSurrogate address then (Throw URIError, w)
    else geocodeAddress net address w.
Proof.
  unfold Async.geocodeAddress, Async.searchRequest.
  destruct (Async.loneSurrogate address); [reflexivity|].
  cbn [Async.liftR Async.bind]. rewrite run_tryCatch.
  unfold geocodeAddress, tryCatch, bind, liftR.
  cbn [Async.act Async.bind Async.run]. rewrite run_bind, run_fetchJson.
  unfold exec. cbn [send modify snd fst].
  destruct (nominatim net address) as [| |[|hit rest]]; reflexivity.
Qed.

Lemma detour_alone startCoords endCoords routeCoordinates zone w :
  Async.run (Async.detour net startCoords endCoords routeCoordinates zone) [] w =
    detour net startCoords endCoords routeCoordinates zone w.
Proof.
  unfold Async.detour, detour, bind, liftR.
  rewrite run_bind, run_liftR.
  destruct (bypassWaypoint routeCoordinates zone) as [waypoint|]; [|reflexivity].
  cbn [Async.act Async.bind Async.run]. rewrite run_bind, run_fetchJsonBoth.
  unfold exec. cbn [send modify snd fst].
  destruct (parsedBoth _ _) as [[data1 data2]|]; [|reflexivity].
  cbn [fst snd].
  destruct (firstRoute data1), (firstRoute data2); reflexivity.
Qed.

Lemma alternativeRoute_alone startCoords endCoords routeCoordinates reports drawn w :
  Async.run (Async.alternativeRoute net startCoords endCoords routeCoordinates
               reports drawn) [] w =
    alternativeRoute net startCoords endCoords routeCoordinates reports drawn w.
Proof.
  unfold Async.alternativeRoute, alternativeRoute, bind, liftR.
  rewrite run_bind, run_liftR.
  destruct (findClosestFloodZone startCoords reports drawn) as [[[zone|] d]|];
    try reflexivity.
  apply detour_alone.
Qed.

Lemma fetchAndEvaluate_alone startCoords endCoords reports drawn w :
  Async.run (Async.fetchAndEvaluate net startCoords endCoords reports drawn) [] w =
    fetchAndEvaluate net startCoords endCoords reports drawn w.
Proof.
  unfold Async.fetchAndEvaluate, fetchAndEvaluate, bind, liftR.
  cbn [Async.act Async.bind Async.run]. rewrite run_bind, run_fetchJson.
  unfold exec. cbn [send modify snd fst].
  destruct (parsed _) as [data|]; [|reflexivity].
  destruct (firstRoute data) as [r|]; [|reflexivity].
  cbn [Async.act Async.bind Async.run]. rewrite run_bind, run_liftR.
  cbn [setRoute modify snd fst].
  destruct (checkRouteForFloods _ _ _) as [[]|]; try reflexivity.
  cbn [Async.act Async.bind Async.run]. apply alternativeRoute_alone.
Qed.

(** Does the call end in a rejection?  It does when both fields are filled
    and one of them cannot be encoded. *)
Definition rejects (w : World) : bool :=
  negb (isEmpty (start w) || isEmpty (end_ w)) &&
  (Async.loneSurrogate (start w) || Async.loneSurrogate (end_ w)).

(** A click whose run no other handler disturbs and that is not rejected is
    the transition [getRoute] of the sequential model. *)
Lemma click_alone w :
  rejects w = false -> Async.click net [] w = getRoute net w.
Proof.
  unfold rejects. intro Hr. unfold Async.click, Async.getRoute, getRoute.
  cbn [Async.act Async.bind Async.run].
  unfold bind at 1 2 3 4 5. unfold exec.
  cbn [setRoute setAltRoute setStartPoint setEndPoint setShowWarning modify snd fst].
  unfold bind at 1. unfold getWorld.
  cbn [start end_ floodReports drawnItems].
  destruct (isEmpty (start w) || isEmpty (end_ w)); [reflexivity|].
  cbn [negb andb] in Hr. apply orb_false_iff in Hr. destruct Hr as [L1 L2].
  rewrite run_bind, run_await, geocodeAddress_alone, L1.
  unfold bind at 1.
  destruct (geocodeAddress net (start w) _) as [[startCoords|e] w1]; [|reflexivity].
  rewrite run_bind, run_await, geocodeAddress_alone, L2.
  unfold bind at 1.
  destruct (geocodeAddress net (end_ w) w1) as [[endCoords|e] w2]; [|reflexivity].
  destruct startCoords as [startCoords|]; [destruct endCoords as [endCoords|]|];
    try reflexivity.
  cbn [Async.act Async.bind Async.run]. rewrite run_tryCatch, fetchAndEvaluate_alone.
  unfold bind at 1 2. unfold tryCatch. unfold exec.
  cbn [setStartPoint setEndPoint modify snd fst].
  destruct (fetchAndEvaluate _ _ _ _ _ _) as [[[]|e] w3]; reflexivity.
Qed.

(** A rejected click run alone: the reset is done, the start is searched
    when it can be encoded, and nothing else happens. *)
Lemma click_rejected w :
  rejects w = true ->
  Async.click net [] w =
    (Throw URIError,
     if Async.loneSurrogate (start w) then resetWorld w
     else searched net (start w) (resetWorld w)).
Proof.
  unfold rejects. intro Hr. unfold Async.click, Async.getRoute.
  cbn [Async.act Async.bind Async.run]. unfold exec.
  cbn [setRoute setAltRoute setStartPoint setEndPoint setShowWarning modify snd fst].
  destruct (isEmpty (start w) || isEmpty (end_ w)); [discriminate|].
  cbn [negb andb] in Hr.
  rewrite run_bind, run_await, geocodeAddress_alone.
  destruct (Async.loneSurrogate (start w)); [reflexivity|].
  cbn [orb] in Hr. rewrite geocodeAddress_run.
  rewrite run_bind, run_await, geocodeAddress_alone, Hr. reflexivity.
Qed.

(** What a click run alone leaves on display. *)
Lemma click_display w :
  let w' := snd (Async.click net [] w) in
  route w' = (if rejects w then None else option_map snd (primaryRoute net w)) /\
  altRoute w' = (if rejects w then None else alternate net w) /\
  startPoint w' = (if rejects w then None else option_map fst (bothGeocoded net w)) /\
  endPoint w' = (if rejects w then None else option_map snd (bothGeocoded net w)) /\
  showWarning w' = (if rejects w then false else blocked net w).
Proof.
  cbv zeta. destruct (rejects w) eqn:Hr.
  - rewrite (click_rejected w Hr). cbn [snd].
    destruct (Async.loneSurrogate (start w)); repeat split.
  - rewrite (click_alone w Hr). apply (getRoute_display net w).
Qed.

End AsyncFacts.

(** * The asynchronous handler: rejections and the display of a run alone *)
Section AsyncClaims.
Context {K : TurfKernel}.
Variable net : Net.

(** X1.  [geocodeAddress] on an address that holds a surrogate without its
    partner throws a URIError before its [try] block is entered: no request
    is sent, nothing is logged and the state is as it was, whatever else
    runs meanwhile.  On every other address it never throws; it returns the
    first hit of the search when the service answers with a list that is not
    empty and null in every other case, a rejected request or body included,
    and a call that runs alone sends one request, writes one console error
    exactly when the request or its parsing failed, raises no alert and
    leaves the state of the component alone. *)
Theorem geocodeAddress_throws_on_lone_surrogates_only (address : string) (w : World) :
  if Async.loneSurrogate address then
    forall others,
      Async.run (Async.geocodeAddress net address) others w = (Throw URIError, w)
  else
    (forall others,
       fst (Async.run (Async.geocodeAddress net address) others w) =
         Ok match nominatim net address with
            | Json (hit :: _) =>
                Some {| LatLng.lat := hit_lat hit; LatLng.lng := hit_lon hit |}
            | _ => None
            end) /\
    requests (snd (Async.run (Async.geocodeAddress net address) [] w)) =
      requests w ++ [Search address] /\
    consoleErrors (snd (Async.run (Async.geocodeAddress net address) [] w)) =
      match nominatim net address with
      | Json _ => consoleErrors w
      | _ => consoleErrors w ++ ["Error geocoding address:"%string]
      end /\
    alerts (snd (Async.run (Async.geocodeAddress net address) [] w)) = alerts w /\
    route (snd (Async.run (Async.geocodeAddress net address) [] w)) = route w /\
    altRoute (snd (Async.run (Async.geocodeAddress net address) [] w)) = altRoute w /\
    startPoint (snd (Async.run (Async.geocodeAddress net address) [] w)) = startPoint w /\
    endPoint (snd (Async.run (Async.geocodeAddress net address) [] w)) = endPoint w /\
    showWarning (snd (Async.run (Async.geocodeAddress net address) [] w)) = showWarning w /\
    floodReports (snd (Async.run (Async.geocodeAddress net address) [] w)) = floodReports w /\
    drawnItems (snd (Async.run (Async.geocodeAddress net address) [] w)) = drawnItems w.
Proof.
  destruct (Async.loneSurrogate address) eqn:L.
  - intro others. unfold Async.geocodeAddress, Async.searchRequest. rewrite L. reflexivity.
  - split.
    + intro others.
      rewrite (run_outcome (Async.geocodeAddress net address) others w [] w).
      rewrite geocodeAddress_alone, L, geocodeAddress_run. reflexivity.
    + rewrite geocodeAddress_alone, L, geocodeAddress_run.
      unfold searched, answered.
      cbn [fst snd requests consoleErrors alerts route altRoute startPoint endPoint
           showWarning floodReports drawnItems].
      destruct (nominatim net address) as [| |[|hit rest]]; repeat split.
Qed.

(** X2.  A click on the button ends in a rejection exactly when both fields
    are filled and one of the two addresses holds a surrogate without its
    partner; the exception is the URIError of [encodeURIComponent], raised
    before any [try] block.  Every other exception raised on the way (by the
    services, by the feature constructors, by the numerical routines) is
    caught, whatever the services answer, whatever the hazards are and
    whatever else runs meanwhile. *)
Theorem getRoute_rejects_on_lone_surrogates_only
    (others : list (World -> World)) (w : World) :
  fst (Async.click net others w) =
    if negb (isEmpty (start w) || isEmpty (end_ w)) &&
       (Async.loneSurrogate (start w) || Async.loneSurrogate (end_ w))
    then Throw URIError
    else Ok tt.
Proof.
  unfold Async.click.
  rewrite (run_outcome _ others w [] w). fold (Async.click net [] w). fold (rejects w).
  destruct (rejects w) eqn:Hr.
  - rewrite (click_rejected net w Hr). reflexivity.
  - rewrite (click_alone net w Hr). destruct (safe_getRoute net w) as ([] & H). exact H.
Qed.

(** X9.  A click whose run no other handler disturbs leaves a coherent
    display: an alternate route is shown only together with the warning, the
    warning only together with a primary route, and a primary route only
    together with both markers. *)
Theorem undisturbed_run_leaves_a_coherent_display
    (others : list (World -> World)) (w : World) :
  idle others ->
  let w' := snd (Async.click net others w) in
  (altRoute w' <> None -> showWarning w' = true) /\
  (showWarning w' = true -> route w' <> None) /\
  (route w' <> None -> startPoint w' <> None /\ endPoint w' <> None).
Proof.
  intros Hi w'. unfold w', Async.click. rewrite (run_idle _ w Hi).
  fold (Async.click net [] w).
  destruct (click_display net w) as (-> & -> & -> & -> & ->).
  destruct (rejects w).
  - split; [|split]; intro H; try discriminate; now contradiction H.
  - split; [|split].
    + apply alternate_none_unless_blocked.
    + intro H. destruct (blocked_has_route net w H) as (s & e & rc & -> & _). discriminate.
    + intro H. destruct (primaryRoute net w) as [[[s e] rc]|] eqn:Hp; [|contradiction].
      rewrite (primaryRoute_bothGeocoded net w Hp). split; discriminate.
Qed.

(** X10.  After a click whose run no other handler disturbs, the warning is
    on exactly when the call was not rejected, a primary route was found and
    the check returned true on it with the reports and drawn items of the
    click, whatever the warning was before; the route on display is the
    primary route, or none; and the polyline of the route is red exactly
    when the warning is on. *)
Theorem undisturbed_warning_iff_primary_route_blocked
    (others : list (World -> World)) (w : World) :
  idle others ->
  let w' := snd (Async.click net others w) in
  (showWarning w' = true <->
     (Async.loneSurrogate (start w) || Async.loneSurrogate (end_ w) = false /\
      exists startCoords endCoords routeCoordinates,
        primaryRoute net w = Some (startCoords, endCoords, routeCoordinates) /\
        checkRouteForFloods routeCoordinates (floodReports w) (drawnItems w) = Ok true)) /\
  (route w' = None \/ route w' = option_map snd (primaryRoute net w)) /\
  (routeColor w' = "red"%string <-> showWarning w' = true).
Proof.
  intros Hi w'. unfold w', Async.click. rewrite (run_idle _ w Hi).
  fold (Async.click net [] w).
  destruct (click_display net w) as (Hr & _ & _ & _ & Hw).
  split; [|split].
  - rewrite Hw. unfold rejects.
    destruct (Async.loneSurrogate (start w) || Async.loneSurrogate (end_ w)) eqn:L.
    + rewrite andb_true_r.
      destruct (isEmpty (start w) || isEmpty (end_ w)) eqn:E; cbn [negb].
      * split; [|intros [? _]; discriminate].
        intro H. destruct (blocked_has_route net w H) as (s & e & rc & Hp & _).
        unfold primaryRoute in Hp. rewrite E in Hp. discriminate.
      * split; [discriminate | intros [? _]; discriminate].
    + rewrite andb_false_r. split.
      * intro H. split; [reflexivity | apply blocked_has_route, H].
      * intros (_ & s & e & rc & Hp & Hc). unfold blocked. rewrite Hp, Hc. reflexivity.
  - rewrite Hr. destruct (rejects w); auto.
  - unfold routeColor. destruct (showWarning _); split; try reflexivity; discriminate.
Qed.

(** X11.  Nothing displayed before a click survives it when no other handler
    disturbs the run: for the same answers of the two services, two clicks in
    states that agree on the two addresses, the reports and the drawn items
    end with the same route, alternate route, markers and warning. *)
Theorem undisturbed_display_depends_on_the_inputs_only
    (others1 others2 : list (World -> World)) (w1 w2 : World) :
  idle others1 -> idle others2 ->
  start w1 = start w2 -> end_ w1 = end_ w2 ->
  floodReports w1 = floodReports w2 -> drawnItems w1 = drawnItems w2 ->
  route (snd (Async.click net others1 w1)) = route (snd (Async.click net others2 w2)) /\
  altRoute (snd (Async.click net others1 w1)) = altRoute (snd (Async.click net others2 w2)) /\
  startPoint (snd (Async.click net others1 w1)) =
    startPoint (snd (Async.click net others2 w2)) /\
  endPoint (snd (Async.click net others1 w1)) = endPoint (snd (Async.click net others2 w2)) /\
  showWarning (snd (Async.click net others1 w1)) =
    showWarning (snd (Async.click net others2 w2)).
Proof.
  intros Hi1 Hi2 Hs He Hr Hd. unfold Async.click.
  rewrite (run_idle _ w1 Hi1), (run_idle _ w2 Hi2).
  fold (Async.click net [] w1) (Async.click net [] w2).
  destruct (click_display net w1) as (-> & -> & -> & -> & ->).
  destruct (click_display net w2) as (-> & -> & -> & -> & ->).
  assert (Hj : rejects w1 = rejects w2) by (unfold rejects; rewrite Hs, He; reflexivity).
  assert (Hp : primaryRoute net w1 = primaryRoute net w2) by (apply primaryRoute_ext; assumption).
  assert (Hb : blocked net w1 = blocked net w2)
    by (unfold blocked; rewrite Hp, Hr, Hd; reflexivity).
  assert (Hg : bothGeocoded net w1 = bothGeocoded net w2)
    by (unfold bothGeocoded; rewrite Hs, He; reflexivity).
  unfold alternate. rewrite Hj, Hp, Hb, Hg, Hr, Hd. repeat split.
Qed.

(** X18.  After a click whose run no other handler disturbs, the coordinates
    handed to [MapUpdater] ([route || altRoute]) are those of the route on
    display: the map flies to the bounds of the primary route when it has a
    point, and not to those of the alternate route. *)
Theorem undisturbed_map_view_follows_the_primary_route
    (others : list (World -> World)) (w : World) :
  idle others ->
  let w' := snd (Async.click net others w) in
  mapUpdaterCoordinates w' = route w' /\
  (route w' = None -> altRoute w' = None) /\
  flyTarget (mapUpdaterCoordinates w') =
    match route w' with
    | Some (c :: cs) => Some (c :: cs)
    | _ => None
    end.
Proof.
  intros Hi w'. unfold w', Async.click. rewrite (run_idle _ w Hi).
  fold (Async.click net [] w). unfold mapUpdaterCoordinates.
  destruct (click_display net w) as (-> & -> & _ & _ & _).
  destruct (rejects w); [repeat split|].
  unfold alternate.
  destruct (primaryRoute net w) as [[[s e] [|c cs]]|]; repeat split; discriminate.
Qed.

End AsyncClaims.

(** * The further properties at the sample data *)
Module Scene.

(** The sample world with other addresses in the two fields. *)
Definition world (a b : string) (reports : list Report.t) (drawn : list Drawn.t)
  : World :=
  {| start := a; end_ := b; route := None; altRoute := None;
     startPoint := None; endPoint := None;
     floodReports := reports; drawnItems := drawn; showWarning := false;
     alerts := []; consoleErrors := []; requests := [] |}.

(** A state left over from an earlier run: a warning and two routes. *)
Definition stale (reports : list Report.t) (drawn : list Drawn.t) : World :=
  {| start := "A"; end_ := "B";
     route := Some [(1, 2); (3, 4)]%float; altRoute := Some [(5, 6)]%float;
     startPoint := None; endPoint := None;
     floodReports := reports; drawnItems := drawn; showWarning := true;
     alerts := ["old"%string]; consoleErrors := []; requests := [] |}.

(** The sample search service with a router that finds no route. *)
Definition netNoRoute : Net :=
  {| nominatim := Sample.geocoder;
     osrm := fun _ _ => Json {| routes := Some [] |} |}.

End Scene.

Section FurtherInstances.
Local Existing Instance Planar.kernel.
Local Open Scope float_scope.

Lemma empty_start_sends_nothing :
  requests (exec (getRoute Sample.net) (Scene.world "" "B" [] [])) = [] /\
  alerts (exec (getRoute Sample.net) (Scene.world "" "B" [] [])) =
    ["Please enter both start and end points."%string].
Proof.
  destruct (missing_address_stops_before_any_request Sample.net
              (Scene.world "" "B" [] []) eq_refl) as (Hr & Ha & _).
  split; [exact Hr | exact Ha].
Defined.


Lemma empty_route_list_is_reported :
  startPoint (exec (getRoute Scene.netNoRoute) (Scene.world "A" "B" [] [])) =
    Some Sample.startCoords /\
  route (exec (getRoute Scene.netNoRoute) (Scene.world "A" "B" [] [])) = None /\
  alerts (exec (getRoute Scene.netNoRoute) (Scene.world "A" "B" [] [])) =
    ["Could not find a route."%string].
Proof.
  destruct (no_primary_route_leaves_markers_only Scene.netNoRoute
              (Scene.world "A" "B" [] [])
              (startCoords := Sample.startCoords) (endCoords := Sample.endCoords)
              eq_refl eq_refl eq_refl eq_refl)
    as (Hs & _ & Hr & _ & _ & _ & Ha & _).
  split; [exact Hs|]. split; [exact Hr | exact Ha].
Defined.

Lemma far_report_leaves_route_clear :
  checkRouteForFloods Sample.routeCoords [Sample.farAway] [] = Ok false /\
  route (exec (getRoute Sample.net) (Sample.world [Sample.farAway] [])) =
    Some Sample.routeCoords /\
  showWarning (exec (getRoute Sample.net) (Sample.world [Sample.farAway] [])) = false /\
  alerts (exec (getRoute Sample.net) (Sample.world [Sample.farAway] [])) = [].
Proof.
  assert (Hc : checkRouteForFloods Sample.routeCoords [Sample.farAway] [] = Ok false)
    by (vm_compute; reflexivity).
  destruct (clear_route_is_shown_without_warning Sample.net
              (Sample.world [Sample.farAway] [])
              (sample_primaryRoute [Sample.farAway] []) Hc)
    as (Hr & Hw & _ & _ & _ & Ha & _).
  split; [exact Hc|]. split; [exact Hr|]. split; [exact Hw | exact Ha].
Defined.

Lemma sliver_leaves_route_unwarned :
  checkRouteForFloods Sample.routeCoords [] [Sample.sliver] = Throw RingTooShort /\
  route (exec (getRoute Sample.net) (Sample.world [] [Sample.sliver])) =
    Some Sample.routeCoords /\
  showWarning (exec (getRoute Sample.net) (Sample.world [] [Sample.sliver])) = false /\
  alerts (exec (getRoute Sample.net) (Sample.world [] [Sample.sliver])) =
    ["An error occurred while getting the route."%string].
Proof.
  assert (Hc : checkRouteForFloods Sample.routeCoords [] [Sample.sliver] = Throw RingTooShort)
    by reflexivity.
  destruct (failing_check_leaves_route_unwarned Sample.net
              (Sample.world [] [Sample.sliver])
              (sample_primaryRoute [] [Sample.sliver]) Hc)
    as (Hr & Hw & _ & Ha & _).
  split; [exact Hc|]. split; [exact Hr|]. split; [exact Hw | exact Ha].
Defined.

Lemma second_report_keeps_the_block :
  checkRouteForFloods Sample.routeCoords
    (floodReports (exec (reportSeverity 9 "Low" 10 10) (Sample.world [Sample.onRoute] [])))
    (drawnItems (exec (reportSeverity 9 "Low" 10 10) (Sample.world [Sample.onRoute] [])))
    = Ok true /\
  showWarning (exec (reportSeverity 9 "Low" 10 10) (Sample.world [Sample.onRoute] []))
    = false.
Proof.
  assert (Ht : testable (LineString (map flip Sample.routeCoords))
                 (HazardReport {| Report.id := 9%Z; Report.lat := 10; Report.lng := 10;
                                  Report.severity := "Low"%string |}))
    by (eexists; vm_compute; reflexivity).
  destruct (@tested_report_keeps_a_block _ 9%Z "Low"%string 10 10
              (Sample.world [Sample.onRoute] []) Sample.routeCoords
              Ht sample_blocked) as (_ & _ & _ & _ & Hw & Hc).
  split; [exact Hc | exact Hw].
Defined.

Lemma sample_zone_is_the_report :
  (Sample.zoneDistance <? infinity) = true /\
  ((exists report,
      In report [Sample.onRoute] /\
      Sample.zone = ZonePoint (Point (Report.lng report, Report.lat report)) /\
      Sample.zoneDistance =
        distance (Point (lngLat Sample.startCoords))
                 (Point (Report.lng report, Report.lat report)) Kilometers) \/
   (exists item ring rest,
      In item [] /\ isArea item = true /\
      Drawn.latlngs item = Rings (ring :: rest) /\
      Sample.zone = ZoneRing (map flip ring) /\
      Sample.zoneDistance =
        pointToLineDistance (Point (lngLat Sample.startCoords))
                            (LineString (map flip ring)) Kilometers)).
Proof. exact (selected_zone_is_a_hazard Sample.startCoords [Sample.onRoute] [] sample_selection). Defined.

Lemma sample_alternate_comes_without_error :
  alerts (exec (getRoute Sample.net) (Sample.world [Sample.onRoute] [])) = [] /\
  consoleErrors (exec (getRoute Sample.net) (Sample.world [Sample.onRoute] [])) = [].
Proof.
  assert (H : altRoute (exec (getRoute Sample.net) (Sample.world [Sample.onRoute] []))
              <> None) by (vm_compute; discriminate).
  destruct (alternate_route_comes_without_error Sample.net
              (Sample.world [Sample.onRoute] []) H) as (Ha & Hc & _).
  split; [exact Ha | exact Hc].
Defined.

End FurtherInstances.

(** * The asynchronous handler at the sample data *)
Module Overlap.

(** Three handlers that change nothing. *)
Definition nobody : list (World -> World) := [fun w => w; fun w => w; fun w => w].

(** The start field is emptied ([setStart('')]). *)
Definition clearStart (w : World) : World :=
  {| start := ""; end_ := end_ w; route := route w; altRoute := altRoute w;
     startPoint := startPoint w; endPoint := endPoint w;
     floodReports := floodReports w; drawnItems := drawnItems w;
     showWarning := showWarning w; alerts := alerts w;
     consoleErrors := consoleErrors w; requests := requests w |}.

(** The start field is emptied and the button is pressed again: this second
    call runs to its end at once, since it awaits nothing. *)
Definition secondClick {K : TurfKernel} (w : World) : World :=
  snd (Async.click Sample.net [] (clearStart w)).

(** Nothing happens during the first eight suspensions of a call, and the
    second click comes during the ninth, in which the call waits for the two
    legs. *)
Definition duringTheLegs {K : TurfKernel} : list (World -> World) :=
  repeat (fun w => w) 8 ++ [secondClick].

(** An address with the bytes of U+D800, a surrogate without partner. *)
Definition broken : string :=
  String (ascii_of_nat 237) (String (ascii_of_nat 160) (String (ascii_of_nat 128) "")).

End Overlap.

Section AsyncInstances.
Local Existing Instance Planar.kernel.
Local Open Scope float_scope.

Lemma nobody_idle : idle Overlap.nobody.
Proof. repeat constructor. Qed.

(** A second click while the first call waits for its legs: the first call
    resumes after the reset of the second and sets its alternate route, which
    is then shown without route and without warning, and the map flies to
    it. *)
Example overlapping_click_leaves_a_detour_alone :
  route (snd (Async.click Sample.net Overlap.duringTheLegs
                (Sample.world [Sample.onRoute] []))) = None /\
  altRoute (snd (Async.click Sample.net Overlap.duringTheLegs
                   (Sample.world [Sample.onRoute] []))) =
    Some (combinedRouteCoordinates Sample.legA Sample.legB) /\
  showWarning (snd (Async.click Sample.net Overlap.duringTheLegs
                      (Sample.world [Sample.onRoute] []))) = false /\
  mapUpdaterCoordinates (snd (Async.click Sample.net Overlap.duringTheLegs
                                (Sample.world [Sample.onRoute] []))) =
    Some (combinedRouteCoordinates Sample.legA Sample.legB) /\
  alerts (snd (Async.click Sample.net Overlap.duringTheLegs
                 (Sample.world [Sample.onRoute] []))) =
    ["Please enter both start and end points."%string].
Proof. repeat split; vm_compute; reflexivity. Qed.

(** A click with a broken destination: the start is searched, then the call
    is rejected. *)
Example broken_destination_rejects_the_click :
  Async.loneSurrogate Overlap.broken = true /\
  fst (Async.click Sample.net [] (Scene.world "A" Overlap.broken [] [])) = Throw URIError /\
  requests (snd (Async.click Sample.net [] (Scene.world "A" Overlap.broken [] []))) =
    [Search "A"] /\
  alerts (snd (Async.click Sample.net [] (Scene.world "A" Overlap.broken [] []))) = [].
Proof. repeat split; vm_compute; reflexivity. Qed.

Lemma undisturbed_sample_run_is_coherent :
  idle Overlap.nobody /\
  altRoute (snd (Async.click Sample.net Overlap.nobody (Sample.world [Sample.onRoute] []))) =
    Some (combinedRouteCoordinates Sample.legA Sample.legB) /\
  showWarning (snd (Async.click Sample.net Overlap.nobody
                      (Sample.world [Sample.onRoute] []))) = true.
Proof.
  destruct (undisturbed_run_leaves_a_coherent_display Sample.net
              (Sample.world [Sample.onRoute] []) nobody_idle) as (Hw & _).
  assert (Ha : altRoute (snd (Async.click Sample.net Overlap.nobody
                                (Sample.world [Sample.onRoute] []))) =
               Some (combinedRouteCoordinates Sample.legA Sample.legB))
    by (vm_compute; reflexivity).
  split; [exact nobody_idle|]. split; [exact Ha|].
  apply Hw. rewrite Ha. discriminate.
Defined.

Lemma undisturbed_sample_run_is_red :
  idle Overlap.nobody /\
  routeColor (snd (Async.click Sample.net Overlap.nobody
                     (Sample.world [Sample.onRoute] []))) = "red"%string.
Proof.
  destruct (undisturbed_warning_iff_primary_route_blocked Sample.net
              (Sample.world [Sample.onRoute] []) nobody_idle) as (Hw & _ & Hc).
  split; [exact nobody_idle|]. apply Hc, Hw. split; [reflexivity|].
  exists Sample.startCoords, Sample.endCoords, Sample.routeCoords.
  split; [reflexivity | exact sample_blocked].
Defined.

Lemma stale_warning_is_cleared :
  showWarning (Scene.stale [Sample.farAway] []) = true /\
  showWarning (snd (Async.click Sample.net Overlap.nobody (Scene.stale [Sample.farAway] []))) =
    showWarning (snd (Async.click Sample.net [] (Sample.world [Sample.farAway] []))) /\
  altRoute (snd (Async.click Sample.net Overlap.nobody (Scene.stale [Sample.farAway] []))) =
    altRoute (snd (Async.click Sample.net [] (Sample.world [Sample.farAway] []))).
Proof.
  destruct (undisturbed_display_depends_on_the_inputs_only Sample.net
              (Scene.stale [Sample.farAway] []) (Sample.world [Sample.farAway] [])
              nobody_idle (Forall_nil _) eq_refl eq_refl eq_refl eq_refl)
    as (_ & Ha & _ & _ & Hw).
  split; [reflexivity|]. split; [exact Hw | exact Ha].
Defined.

Lemma undisturbed_sample_map_view :
  idle Overlap.nobody /\
  flyTarget (mapUpdaterCoordinates
               (snd (Async.click Sample.net Overlap.nobody
                       (Sample.world [Sample.onRoute] [])))) =
    Some Sample.routeCoords.
Proof.
  destruct (undisturbed_map_view_follows_the_primary_route Sample.net
              (Sample.world [Sample.onRoute] []) nobody_idle) as (_ & _ & Hf).
  split; [exact nobody_idle|]. rewrite Hf. vm_compute. reflexivity.
Defined.

End AsyncInstances.
